(** * A LIFO task queue on DynamoDB: the queue engine

    Shallow embedding of the queue engine of the serverless LIFO queue
    demonstration: [app/process_tasks.js] (lease protocol, batch selector and
    worker loop), [app/create_tasks.js] (task producer), [app/task_runner.js]
    (the fake task runner) and [app/call_function.js] (hand-off through SNS).

    The JavaScript is asynchronous and single threaded.  Asynchronous
    functions are embedded as actions of a state-and-exception monad over a
    [World] (the queue table, the chronological record of console output and
    of requests sent to AWS, and the task runner's module state); what the
    environment decides (the clock, infrastructure faults, the order in which
    pending promises are resumed) is an explicit input of every action. *)

From stdpp Require Import gmap strings list fin_maps sorting.
From Stdlib Require Import ZArith Lia.

(** ** JavaScript values *)

(** An exception value.  [err_code] is the [code] property that
    [transitionTask] inspects; [None] stands for an absent property. *)
Record JsError := { err_name : string; err_code : option string }.

#[global] Instance JsError_eq_dec : EqDecision JsError.
Proof. solve_decision. Defined.

(** The in-memory task object built by [getPendingTaskBatch].  [Number.parseInt]
    of an attribute that is not a number gives [NaN], written [None]. *)
Record Task := {
  taskId : string;
  taskStatus : string;
  taskCreated : Z;
  taskUpdated : option Z
}.

#[global] Instance Task_eq_dec : EqDecision Task.
Proof. solve_decision. Defined.

(** ** The DynamoDB table

    DynamoDB itself is outside the repository.  This is the part of its
    documented behaviour that the three commands of the source rely on. *)
Module DynamoDB.

(** Attribute values of type string ([{S: ...}]) and number ([{N: ...}]). *)
Inductive AttributeValue := AttrS (s : string) | AttrN (n : Z).

#[global] Instance AttributeValue_eq_dec : EqDecision AttributeValue.
Proof. solve_decision. Defined.

(** An item is a finite map from attribute names to values; [QueueTable]
    maps the value of its hash key [taskId] to the item. *)
Abbreviation Item := (gmap string AttributeValue).
Abbreviation Table := (gmap string Item).

(** [UpdateItemCommand]: [UpdateExpression] is kept as the list of its
    [set] assignments and [ConditionExpression] as the one equality it
    tests, both with [ExpressionAttributeValues] substituted. *)
Record UpdateItemInput := {
  upd_Key : string;
  upd_Set : list (string * AttributeValue);
  upd_Condition : string * AttributeValue
}.

(** [PutItemCommand] without a condition. *)
Record PutItemInput := { put_Item : Item }.

(** [QueryCommand] on the global secondary index
    [task-status-created-index] (hash key [taskStatus], range key
    [taskCreated]). *)
Record QueryInput := {
  qry_IndexName : string;
  qry_KeyCondition : string;
  qry_Limit : nat;
  qry_ScanIndexForward : bool
}.

Definition apply_set (it : Item) (sets : list (string * AttributeValue)) : Item :=
  foldl (fun acc av => <[av.1 := av.2]> acc) it sets.

Definition condition_holds (it : Item) (c : string * AttributeValue) : bool :=
  bool_decide (it !! c.1 = Some c.2).

(** A conditional update: when the item exists and satisfies the condition,
    the assignments are applied to it and every other attribute is kept;
    otherwise the table is unchanged and the request is rejected with
    [rejected], the exception the SDK raises for a failed condition. *)
Definition updateItem (rejected : JsError) (p : UpdateItemInput) (t : Table)
  : (JsError + unit) * Table :=
  match t !! upd_Key p with
  | Some it =>
      if condition_holds it (upd_Condition p)
      then (inr tt, <[upd_Key p := apply_set it (upd_Set p)]> t)
      else (inl rejected, t)
  | None => (inl rejected, t)
  end.

Definition ValidationException : JsError :=
  {| err_name := "ValidationException"; err_code := None |}.

(** An unconditional put creates the item or replaces the whole item stored
    under the same key. *)
Definition putItem (p : PutItemInput) (t : Table) : (JsError + unit) * Table :=
  match put_Item p !! "taskId" with
  | Some (AttrS k) => (inr tt, <[k := put_Item p]> t)
  | _ => (inl ValidationException, t)
  end.

(** The index holds the items that carry both index keys. *)
Definition index_key (it : Item) : option (string * Z) :=
  match it !! "taskStatus", it !! "taskCreated" with
  | Some (AttrS s), Some (AttrN c) => Some (s, c)
  | _, _ => None
  end.

Definition in_partition (status : string) (it : Item) : bool :=
  match index_key it with
  | Some (s, _) => bool_decide (s = status)
  | None => false
  end.

Definition range_key (it : Item) : Z :=
  match index_key it with
  | Some (_, c) => c
  | None => 0
  end.

(** Order of a scan of one partition: ascending range key when
    [ScanIndexForward], descending otherwise. *)
Definition scan_order (forward : bool) (a b : Item) : Prop :=
  if forward then (range_key a <= range_key b)%Z else (range_key b <= range_key a)%Z.

#[global] Instance scan_order_dec forward a b : Decision (scan_order forward a b).
Proof. unfold scan_order. destruct forward; apply _. Defined.

(** A query reads the partition of the index in scan order and stops after
    [Limit] items.  Items with equal range keys come in an order DynamoDB
    does not specify; here it is the one the sort leaves them in.  The
    index projects all attributes. *)
Definition query (p : QueryInput) (t : Table) : list Item :=
  take (qry_Limit p)
    (merge_sort (scan_order (qry_ScanIndexForward p))
       (filter (fun it => in_partition (qry_KeyCondition p) it = true)
          (map_to_list t).*2)).

End DynamoDB.
Import DynamoDB.

(** ** Effects *)

(** What the functions write with [console.log] and [console.error], one
    constructor per [event] of the source with the fields the proofs use. *)
Inductive LogEvent :=
| TRANSITION_TASK (from to : string) (id : string) (task : Task) (taskAge : Z)
| TRANSITION_TASK_ERROR (error : JsError) (id : string)
| TRANSITION_TASK_FAILED (from to : string) (id : string) (task : Task) (taskAge : Z)
| GET_PENDING_TASK_BATCH (taskCount : nat)
| GET_PENDING_TASK_BATCH_ERROR (error : JsError)
| PROCESS_TASK_BATCH (taskCount : nat)
| PROCESS_TASK_ERROR (error : JsError) (id : string)
| TAIL_CALL_TRIGGER (start activeTime : Z) (hasTasks reachedTimeLimit : bool)
| CALL_FUNCTION (topicArn : string)
| CALL_FUNCTION_ERROR (error : JsError)
| CREATE_TASK (id : string)
| CREATE_TASK_ERROR (error : JsError) (id : string)
| TASK_RUN_SKIP (task : Task) (activeTaskCount maxActiveTasks : Z)
| TASK_RUN_START (task : Task) (activeTaskCount maxActiveTasks : Z)
| TASK_RUN_COMPLETE (task : Task) (activeTaskCount maxActiveTasks : Z).

Inductive Level := LOG | ERROR.

Inductive Command :=
| UpdateItemCommand (p : UpdateItemInput)
| PutItemCommand (p : PutItemInput)
| QueryCommand (p : QueryInput)
| PublishCommand (topicArn message : string).

(** One entry of the record of a run: a line on the console, a command
    handed to an AWS client with whether it succeeded, or a call of the task
    runner. *)
Inductive Effect :=
| Console (lvl : Level) (e : LogEvent)
| Request (c : Command) (ok : bool)
| RunnerCall (task : Task).

(** The state the functions act on.  [trace] has the most recent effect
    first.  [runner] is the module state of the task runner. *)
Record World (RS : Type) := mkWorld {
  table : Table;
  trace : list Effect;
  runner : RS
}.
Arguments mkWorld {RS}.
Arguments table {RS}.
Arguments trace {RS}.
Arguments runner {RS}.

(** ** Invocations of a Lambda function

    The lines the three handlers write themselves, next to the effects of the
    functions they call. *)
Inductive HandlerEvent :=
| PROCESS_TASKS_START (start : Z)
| PROCESS_TASKS_END
| CREATE_TASKS_START
| CREATE_TASKS_END
| TRIGGER_CALL_PROCESS_TASKS (hasRecords hasSnsEvent hasInsertEvents : bool)
| TRIGGER_SKIP_PROCESS_TASKS (hasRecords hasSnsEvent hasInsertEvents : bool)
| TRIGGER_ERROR (error : JsError).

Inductive Entry :=
| Inner (e : Effect)
| Handler (lvl : Level) (e : HandlerEvent).

(** What one invocation of a handler leaves: its record from its first line
    on (most recent first), the table, the state of the task runner, and
    whether the promise of the handler was fulfilled. *)
Record Invocation (RS : Type) := mkInvocation {
  inv_record : list Entry;
  inv_table : Table;
  inv_runner : RS;
  inv_returned : bool
}.
Arguments mkInvocation {RS}.
Arguments inv_record {RS}.
Arguments inv_table {RS}.
Arguments inv_runner {RS}.
Arguments inv_returned {RS}.

(** ** A monad for asynchronous functions

    An [async] function either returns or rejects; both leave a [World]. *)
Inductive Completion (A : Type) := Normal (a : A) | Throw (e : JsError).
Arguments Normal {A}.
Arguments Throw {A}.

Definition M (RS A : Type) : Type := World RS -> Completion A * World RS.

#[global] Instance M_ret {RS} : MRet (M RS) :=
  fun A a w => (Normal a, w).

#[global] Instance M_bind {RS} : MBind (M RS) :=
  fun A B f m w =>
    match m w with
    | (Normal a, w') => f a w'
    | (Throw e, w') => (Throw e, w')
    end.

Definition throw {RS A} (e : JsError) : M RS A := fun w => (Throw e, w).

(** [try { body } catch (err) { handler err }] *)
Definition try_catch {RS A} (body : M RS A) (handler : JsError -> M RS A) : M RS A :=
  fun w =>
    match body w with
    | (Normal a, w') => (Normal a, w')
    | (Throw e, w') => handler e w'
    end.

Definition emit {RS} (e : Effect) : M RS unit :=
  fun w => (Normal tt, mkWorld (table w) (e :: trace w) (runner w)).

Definition console_log {RS} (e : LogEvent) : M RS unit := emit (Console LOG e).
Definition console_error {RS} (e : LogEvent) : M RS unit := emit (Console ERROR e).

(** [ddbClient.send]: either the request fails for a reason of the
    infrastructure ([fault]) and the table is not touched, or DynamoDB
    serves it.  The command is recorded with its outcome. *)
Definition ddb_send {RS A} (fault : option JsError) (c : Command)
    (serve : Table -> (JsError + A) * Table) : M RS A :=
  fun w =>
    match fault with
    | Some e => (Throw e, mkWorld (table w) (Request c false :: trace w) (runner w))
    | None =>
        match serve (table w) with
        | (inr a, t) => (Normal a, mkWorld t (Request c true :: trace w) (runner w))
        | (inl e, t) => (Throw e, mkWorld t (Request c false :: trace w) (runner w))
        end
    end.

(** ** The task runner collaborator *)

(** How a call of the task runner ends: the promise is fulfilled with a
    value, or rejected. *)
Inductive Outcome := Returns (toState : string) | Raises (e : JsError).

(** A task runner has module state [RS].  [runner_call] is the part of a call
    that runs before the promise is handed back: it yields the new state,
    what it logged, and the outcome when the promise is already settled
    ([None] when it is still pending).  [runner_resume] is what happens when
    a pending call completes. *)
Class TaskRunner (RS : Type) := {
  runner_call : Task -> RS -> RS * list LogEvent * option Outcome;
  runner_resume : Task -> RS -> RS * list LogEvent * Outcome
}.

(** ** [app/task_runner.js] *)
Module FakeTaskRunner.

Record Config := { fakeMaxActiveTasks : Z; fakeTaskDuration : Z }.

Definition CONFIG : Config :=
  {| fakeMaxActiveTasks := 3; fakeTaskDuration := 15000 |}.

(** [fakeTaskRunner] up to the promise it returns; the state is
    [activeTaskCount]. *)
Definition fakeTaskRunner (task : Task) (activeTaskCount : Z)
  : Z * list LogEvent * option Outcome :=
  let maxActiveTasks := fakeMaxActiveTasks CONFIG in
  if bool_decide (activeTaskCount >= maxActiveTasks)%Z
  then (activeTaskCount,
        [TASK_RUN_SKIP task activeTaskCount maxActiveTasks],
        Some (Returns "PENDING"))
  else ((activeTaskCount + 1)%Z,
        [TASK_RUN_START task activeTaskCount maxActiveTasks],
        None).

(** The callback of its [setTimeout], [fakeTaskDuration] later. *)
Definition fakeTaskRunner_timeout (task : Task) (activeTaskCount : Z)
  : Z * list LogEvent * Outcome :=
  let maxActiveTasks := fakeMaxActiveTasks CONFIG in
  ((activeTaskCount - 1)%Z,
   [TASK_RUN_COMPLETE task activeTaskCount maxActiveTasks],
   Returns "SUCCESS").

#[global] Instance taskRunner : TaskRunner Z := {|
  runner_call := fakeTaskRunner;
  runner_resume := fakeTaskRunner_timeout
|}.

End FakeTaskRunner.

(** ** [app/call_function.js] *)
Module CallFunction.

(** Calls a Lambda function via an SNS topic.  [fault] is the failure of
    [snsClient.send], if any. *)
Definition callFunction {RS} (fault : option JsError) (topicArn : string) : M RS unit :=
  let params := PublishCommand topicArn "Start" in
  try_catch
    (match fault with
     | Some e => emit (Request params false);; throw e
     | None => emit (Request params true)
     end;;
     console_log (CALL_FUNCTION topicArn))
    (fun err => console_error (CALL_FUNCTION_ERROR err)).

End CallFunction.

(** ** [app/trigger.js] *)
Module Trigger.

(** A record of the incoming event: [EventSource] is set on SNS records,
    [eventName] on records of the DynamoDB stream; [None] is a property that
    is absent or not a string. *)
Record EventRecord := { EventSource : option string; eventName : option string }.

(** The event of the handler: [None] when [event] is falsy or
    [event.Records] is not an array; in the array, [None] is an element that
    is [null] or [undefined], whose properties cannot be read. *)
Abbreviation TriggerEvent := (option (list (option EventRecord))).

(** [records.map(f)]: reading a property of [null] raises a [TypeError]. *)
Definition map_property (f : EventRecord -> option string)
    (records : list (option EventRecord)) : JsError + list (option string) :=
  match mapM (fun r : option EventRecord => r) records with
  | Some rs => inr (f <$> rs)
  | None => inl {| err_name := "TypeError"; err_code := None |}
  end.

(** Call the process tasks function if the event has an SNS record (a tail
    call of the process tasks function) or an INSERT record of the stream.
    [topic] is [PROCESS_TASKS_TOPIC_ARN] and [fault] the failure of the
    publish, if any. *)
Definition handler (topic : string) (fault : option JsError) (event : TriggerEvent)
  : Invocation unit :=
  let w0 := mkWorld (∅ : Table) [] tt in
  let failed err :=
    mkInvocation [Handler ERROR (TRIGGER_ERROR err)] ∅ tt true in
  match event with
  | None =>
      mkInvocation [Handler LOG (TRIGGER_SKIP_PROCESS_TASKS false false false)] ∅ tt true
  | Some records =>
      match map_property EventSource records with
      | inl err => failed err
      | inr sources =>
          let hasSnsEvent := bool_decide (Some "aws:sns" ∈ sources) in
          match map_property eventName records with
          | inl err => failed err
          | inr names =>
              let hasInsertEvents := bool_decide (Some "INSERT" ∈ names) in
              if hasSnsEvent || hasInsertEvents then
                match CallFunction.callFunction fault topic w0 with
                | (Normal _, w1) =>
                    mkInvocation
                      (Handler LOG (TRIGGER_CALL_PROCESS_TASKS true hasSnsEvent hasInsertEvents)
                         :: (Inner <$> trace w1))
                      (table w1) (runner w1) true
                | (Throw err, w1) =>
                    mkInvocation
                      (Handler ERROR (TRIGGER_ERROR err) :: (Inner <$> trace w1))
                      (table w1) (runner w1) true
                end
              else
                mkInvocation
                  [Handler LOG (TRIGGER_SKIP_PROCESS_TASKS true hasSnsEvent hasInsertEvents)]
                  ∅ tt true
          end
      end
  end.

End Trigger.

(** ** [app/create_tasks.js] *)
Module CreateTasks.

Record Config := {
  delayBetweenCreate : Z;
  maxActiveTime : Z;
  ttlAmount : Z;
  ttlUnit : string
}.

Definition CONFIG : Config := {|
  delayBetweenCreate := 1 * 1000;
  maxActiveTime := 15 * 1000;
  ttlAmount := 1;
  ttlUnit := "hour"
|}.

(** [now.plus({hour: amount}).toMillis()]: luxon adds hours as exact time,
    3600000 milliseconds each. *)
Definition plus_hours (now amount : Z) : Z := (now + amount * 3600000)%Z.

(** Create a single task in PENDING state, with a TTL value.  [now] is
    [DateTime.now()] in milliseconds; the unit of the TTL, [CONFIG.ttlUnit],
    is ['hour']. *)
Definition createTask {RS} (now : Z) (fault : option JsError) (id : string) : M RS bool :=
  let ttl := plus_hours now (ttlAmount CONFIG) in
  let params := {|
    put_Item :=
      {[ "taskId" := AttrS id;
         "taskStatus" := AttrS "PENDING";
         "taskCreated" := AttrN now;
         "taskUpdated" := AttrN now;
         "ttl" := AttrN ttl ]}
  |} in
  try_catch
    (ddb_send fault (PutItemCommand params) (putItem params);;
     console_log (CREATE_TASK id);;
     mret true)
    (fun err =>
       console_error (CREATE_TASK_ERROR err id);;
       mret false).

(** What the environment supplies to one round of [createTasks]: the clock
    read by [createTask], the id [uuidv4()] draws, the failure of the put, if
    any, and the clock read after the put for the active time. *)
Record Creation := {
  cr_now : Z;
  cr_id : string;
  cr_fault : option JsError;
  cr_check : Z
}.

Inductive Production :=
| Finished    (* [resolve()] was reached *)
| Unfinished. (* still waiting for the environment *)

(** Create a task every [delayBetweenCreate] milliseconds, until
    [maxActiveTime] is exceeded.  The recursion through [setTimeout] is the
    recursion on [rounds]. *)
Fixpoint createTasks {RS} (start : Z) (rounds : list Creation) (w : World RS)
  : Production * World RS :=
  match rounds with
  | [] => (Unfinished, w)
  | rd :: rest =>
      match createTask (cr_now rd) (cr_fault rd) (cr_id rd) w with
      | (Throw _, w1) => (Unfinished, w1)
      | (Normal _, w1) =>
          let activeTime := Z.abs (start - cr_check rd) in
          if bool_decide (activeTime < maxActiveTime CONFIG)%Z
          then createTasks start rest w1
          else (Finished, w1)
      end
  end.

(** The Lambda function handler.  [now] is its [DateTime.now()].  The promise
    it awaits is the one of the first call of [createTasks], which is
    resolved only by the [resolve()] of that call: a later round resolves
    the promise of its own call. *)
Definition handler {RS} (now : Z) (rounds : list Creation) (t : Table) (rs : RS)
  : Invocation RS :=
  let start := now in
  let w0 := mkWorld t [] rs in
  let r := createTasks start rounds w0 in
  let returned :=
    match (createTasks start (take 1 rounds) w0).1 with
    | Finished => true
    | Unfinished => false
    end in
  mkInvocation
    ((if returned then [Handler LOG CREATE_TASKS_END] else [])
       ++ (Inner <$> trace r.2) ++ [Handler LOG CREATE_TASKS_START])
    (table r.2) (runner r.2) returned.

End CreateTasks.

(** ** [app/process_tasks.js] *)
Module ProcessTasks.

Record Config := {
  delayBetweenBatch : Z;
  delayBetweenTask : Z;
  maxActiveTime : Z;
  pageLimit : nat
}.

Definition CONFIG : Config := {|
  delayBetweenBatch := 500;
  delayBetweenTask := 200;
  maxActiveTime := 59 * 1000;
  pageLimit := 10
|}.

Section Engine.

Context {RS : Type}.

(** The exception [ddbClient.send] raises when DynamoDB rejects a request
    because its condition does not hold. *)
Context (rejected : JsError).

(** Transition a task from one state to another, only if the origin state is
    as expected.  [now] is [DateTime.now().toMillis()]. *)
Definition transitionTask (now : Z) (fault : option JsError)
    (task : Task) (fromTaskStatus toTaskStatus : string) : M RS bool :=
  let id := taskId task in
  let taskAge := (now - taskCreated task)%Z in
  let params := {|
    upd_Key := id;
    upd_Set := [("taskStatus", AttrS toTaskStatus); ("taskUpdated", AttrN now)];
    upd_Condition := ("taskStatus", AttrS fromTaskStatus)
  |} in
  try_catch
    (ddb_send fault (UpdateItemCommand params) (updateItem rejected params);;
     console_log (TRANSITION_TASK fromTaskStatus toTaskStatus id task taskAge);;
     mret true)
    (fun err =>
       (if bool_decide (err_code err ≠ Some "ConditionalCheckFailedException")
        then console_error (TRANSITION_TASK_ERROR err id)
        else mret tt);;
       console_log (TRANSITION_TASK_FAILED fromTaskStatus toTaskStatus id task taskAge);;
       mret false).

Context `{!TaskRunner RS}.

(** The object [tasks.map] builds from an item.  Reading a property of an
    absent attribute raises a [TypeError], written [None].  The key schemas
    of the table and of the index give [taskId], [taskStatus] and
    [taskCreated] their types in every item a query returns, so the three
    are read at those types. *)
Definition toTask (it : Item) : option Task :=
  match it !! "taskId", it !! "taskStatus", it !! "taskCreated", it !! "taskUpdated" with
  | Some (AttrS id), Some (AttrS st), Some (AttrN created), Some updated =>
      Some {| taskId := id;
              taskStatus := st;
              taskCreated := created;
              taskUpdated := match updated with AttrN n => Some n | AttrS _ => None end |}
  | _, _, _, _ => None
  end.

Definition TypeError : JsError := {| err_name := "TypeError"; err_code := None |}.

Definition pendingQuery : QueryInput := {|
  qry_IndexName := "task-status-created-index";
  qry_KeyCondition := "PENDING";
  qry_Limit := pageLimit CONFIG;
  qry_ScanIndexForward := false
|}.

(** Get a batch of PENDING state tasks: a page of task items in LIFO order,
    created timestamp descending. *)
Definition getPendingTaskBatch (fault : option JsError) : M RS (list Task) :=
  try_catch
    (let params := pendingQuery in
     tasks ← ddb_send fault (QueryCommand params) (fun t => (inr (query params t), t));
     console_log (GET_PENDING_TASK_BATCH (length tasks));;
     match mapM toTask tasks with
     | Some ts => mret ts
     | None => throw TypeError
     end)
    (fun err =>
       console_error (GET_PENDING_TASK_BATCH_ERROR err);;
       mret []).

(** [await taskRunner(task)] when nothing else runs in between. *)
Definition taskRunner_await (task : Task) : M RS string :=
  fun w =>
    let '(rs, logs, settled) := runner_call task (runner w) in
    let w1 := mkWorld (table w) (rev (Console LOG <$> logs) ++ RunnerCall task :: trace w) rs in
    let '(rs', logs', outcome) :=
      match settled with
      | Some o => (rs, [], o)
      | None => runner_resume task rs
      end in
    let w2 := mkWorld (table w1) (rev (Console LOG <$> logs') ++ trace w1) rs' in
    match outcome with
    | Returns s => (Normal s, w2)
    | Raises e => (Throw e, w2)
    end.

(** [processTask] run from start to end with no other task in between.
    [toState] starts as ['FAILURE'] and is assigned on both paths before the
    [finally] block reads it.  [now1], [fault1] belong to the first
    transition and [now2], [fault2] to the second. *)
Definition processTask (now1 : Z) (fault1 : option JsError) (now2 : Z)
    (fault2 : option JsError) (task : Task) : M RS unit :=
  let id := taskId task in
  leased ← transitionTask now1 fault1 task "PENDING" "TAKEN";
  if leased : bool then
    toState ← try_catch
                (taskRunner_await task)
                (fun err =>
                   console_error (PROCESS_TASK_ERROR err id);;
                   mret "PENDING");
    transitionTask now2 fault2 task "TAKEN" toState;;
    mret tt
  else mret tt.

(** *** One task of a batch, between its points of suspension

    The tasks of a batch run interleaved: each waits for its timer, for
    DynamoDB and for the task runner, and while it waits the others run.
    The timers are [delayBetweenTask] apart, so the tasks start in the order
    of the batch; the model allows every order. *)
Inductive Pc :=
| Delayed                        (* the timer of [wrapProcessTask] has not fired *)
| Leased                         (* PENDING to TAKEN succeeded; the runner is called next *)
| Running                        (* awaiting the promise of the runner *)
| Concluding (toState : string)  (* [toState] is set; the [finally] block is next *)
| Settled                        (* the promise of [wrapProcessTask] is resolved *)
| Unresolved (e : JsError).      (* [processTask] rejected: the promise stays pending *)

#[global] Instance Pc_eq_dec : EqDecision Pc.
Proof. solve_decision. Defined.

Definition is_settled (pc : Pc) : bool :=
  match pc with Settled => true | _ => false end.

(** What [processTask] does with the outcome of the runner: the [try]
    assigns the value, the [catch] logs and requeues. *)
Definition after_runner (task : Task) (o : Outcome) : M RS Pc :=
  match o with
  | Returns s => mret (Concluding s)
  | Raises err =>
      console_error (PROCESS_TASK_ERROR err (taskId task));;
      mret (Concluding "PENDING")
  end.

Definition in_runner {A} (f : RS -> RS * list LogEvent * A) : M RS A :=
  fun w =>
    let '(rs, logs, a) := f (runner w) in
    (Normal a, mkWorld (table w) (rev (Console LOG <$> logs) ++ trace w) rs).

(** The code of [processTask] from one point of suspension to the next. *)
Definition processTask_resume (now : Z) (fault : option JsError) (task : Task)
    (pc : Pc) : M RS Pc :=
  match pc with
  | Delayed =>
      leased ← transitionTask now fault task "PENDING" "TAKEN";
      mret (if leased : bool then Leased else Settled)
  | Leased =>
      emit (RunnerCall task);;
      settled ← in_runner (runner_call task);
      match settled with
      | Some o => after_runner task o
      | None => mret Running
      end
  | Running =>
      o ← in_runner (runner_resume task);
      after_runner task o
  | Concluding toState =>
      transitionTask now fault task "TAKEN" toState;;
      mret Settled
  | Settled => mret Settled
  | Unresolved e => mret (Unresolved e)
  end.

(** An exception that leaves [processTask] is an unhandled rejection inside
    the timer callback. *)
Definition thread_step (now : Z) (fault : option JsError) (task : Task)
    (pc : Pc) (w : World RS) : Pc * World RS :=
  match processTask_resume now fault task pc w with
  | (Normal pc', w') => (pc', w')
  | (Throw e, w') => (Unresolved e, w')
  end.

(** One resumption chosen by the event loop: which task of the batch goes on,
    the clock it reads and whether its request to DynamoDB fails. *)
Record Event := { ev_thread : nat; ev_now : Z; ev_fault : option JsError }.

Definition batch_step (tasks : list Task) (st : list Pc * World RS) (ev : Event)
  : list Pc * World RS :=
  match tasks !! ev_thread ev, st.1 !! ev_thread ev with
  | Some task, Some pc =>
      let '(pc', w') := thread_step (ev_now ev) (ev_fault ev) task pc st.2 in
      (<[ev_thread ev := pc']> st.1, w')
  | _, _ => st
  end.

(** Process a batch of tasks: every task gets its own promise and timer;
    [schedule] is the order in which the event loop resumes them. *)
Definition processTaskBatch (tasks : list Task) (schedule : list Event)
    (w : World RS) : list Pc * World RS :=
  match console_log (PROCESS_TASK_BATCH (length tasks)) w with
  | (_, w0) => foldl (batch_step tasks) (replicate (length tasks) Delayed, w0) schedule
  end.

(** [Promise.allSettled] resolves when every promise of the batch has. *)
Definition allSettled (pcs : list Pc) : bool := forallb is_settled pcs.

(** *** The worker loop *)

(** What the environment supplies to one round of [processTasks]. *)
Record Round := {
  rd_now : Z;
  rd_queryFault : option JsError;
  rd_schedule : list Event;
  rd_publishFault : option JsError
}.

Inductive Activation :=
| Exited (hasTasks reachedTimeLimit : bool)  (* [resolve()] was reached *)
| Waiting.                                    (* still waiting for the environment *)

(** The topic of the hand-off, [process.env.TRIGGER_TOPIC_ARN]. *)
Context (TRIGGER_TOPIC_ARN : string).

(** Process batches of PENDING tasks until [maxActiveTime] is exceeded, or
    there are no tasks to process.  [start] is the time of the handler's
    [DateTime.now()] in milliseconds; the recursion through [setTimeout]
    is the recursion on [rounds].  [resolve] is the one of the round that
    exits: the promises of the rounds before it stay pending.  The table a
    round starts from is whatever the producer, the expiry sweep and other
    activations have left. *)
Fixpoint processTasks (start : Z) (rounds : list Round) (w : World RS)
  : Activation * World RS :=
  match rounds with
  | [] => (Waiting, w)
  | rd :: rest =>
      let activeTime := Z.abs (start - rd_now rd) in
      let reachedTimeLimit := bool_decide (activeTime >= maxActiveTime CONFIG)%Z in
      match getPendingTaskBatch (rd_queryFault rd) w with
      | (Throw _, w1) => (Waiting, w1)
      | (Normal tasks, w1) =>
          let hasTasks := bool_decide (0 < length tasks) in
          if hasTasks && negb reachedTimeLimit then
            match processTaskBatch tasks (rd_schedule rd) w1 with
            | (pcs, w2) =>
                if allSettled pcs then processTasks start rest w2 else (Waiting, w2)
            end
          else
            let handOff : M RS unit :=
              if hasTasks then
                console_log (TAIL_CALL_TRIGGER start activeTime hasTasks reachedTimeLimit);;
                CallFunction.callFunction (rd_publishFault rd) TRIGGER_TOPIC_ARN
              else mret tt in
            (Exited hasTasks reachedTimeLimit, (handOff w1).2)
      end
  end.

(** The Lambda function handler.  [now] is its [DateTime.now()].  The promise
    it awaits is the one of the first call of [processTasks], which is
    resolved only by the [resolve()] of that call: a later round resolves
    the promise of its own call. *)
Definition handler (now : Z) (rounds : list Round) (t : Table) (rs : RS)
  : Invocation RS :=
  let start := now in
  let w0 := mkWorld t [] rs in
  let r := processTasks start rounds w0 in
  let returned :=
    match (processTasks start (take 1 rounds) w0).1 with
    | Exited _ _ => true
    | Waiting => false
    end in
  mkInvocation
    ((if returned then [Handler LOG PROCESS_TASKS_END] else [])
       ++ (Inner <$> trace r.2) ++ [Handler LOG (PROCESS_TASKS_START start)])
    (table r.2) (runner r.2) returned.

End Engine.
End ProcessTasks.

(** * Properties *)

Import ProcessTasks.

(** The status DynamoDB holds for a task id, if the item exists. *)
Definition persisted_status (t : Table) (id : string) : option AttributeValue :=
  t !! id ≫= (.!! "taskStatus").

(** The item after a transition at [now] to [toTaskStatus]. *)
Definition transitioned (now : Z) (toTaskStatus : string) (it : Item) : Item :=
  <["taskUpdated" := AttrN now]> (<["taskStatus" := AttrS toTaskStatus]> it).

(** The conditional update [transitionTask] sends. *)
Definition transition_request (now : Z) (id fromTaskStatus toTaskStatus : string) : Command :=
  UpdateItemCommand {|
    upd_Key := id;
    upd_Set := [("taskStatus", AttrS toTaskStatus); ("taskUpdated", AttrN now)];
    upd_Condition := ("taskStatus", AttrS fromTaskStatus) |}.

(** What [console.error] wrote, most recent first. *)
Definition errors_in (l : list Effect) : list LogEvent :=
  omap (fun e => match e with Console ERROR ev => Some ev | _ => None end) l.

(** The exception [ddbClient.send] raises for an update, if any: the fault of
    the infrastructure, or the rejection of the condition. *)
Definition send_failure (rejected : JsError) (fault : option JsError)
    (t : Table) (id fromTaskStatus : string) : option JsError :=
  match fault with
  | Some e => Some e
  | None =>
      if bool_decide (persisted_status t id = Some (AttrS fromTaskStatus))
      then None else Some rejected
  end.

(** The items of the PENDING partition of the index. *)
Definition pending_items (t : Table) : list Item :=
  filter (fun it => in_partition "PENDING" it = true) (map_to_list t).*2.

(** The items of a table as [createTask] and [transitionTask] leave them:
    stored under their [taskId], with status, creation and update time. *)
Definition wf_item (k : string) (it : Item) : bool :=
  match toTask it with
  | Some t => bool_decide (taskId t = k)
  | None => false
  end.

Definition well_formed (t : Table) : Prop :=
  map_Forall (fun k it => wf_item k it = true) t.

(** The scan of the PENDING partition, newest first, before [Limit]. *)
Definition pending_newest_first (t : Table) : list Item :=
  merge_sort (scan_order false) (pending_items t).

Definition is_console (e : Effect) : Prop :=
  match e with Console _ _ => True | _ => False end.

(** How many entries of a record satisfy a test. *)
Fixpoint tally_effects (p : Effect -> bool) (l : list Effect) : nat :=
  match l with
  | [] => 0
  | e :: l' => (if p e then 1 else 0) + tally_effects p l'
  end.

(** Calls of the task runner for the task id [id]. *)
Definition is_runner_call (id : string) (e : Effect) : bool :=
  match e with
  | RunnerCall task => bool_decide (taskId task = id)
  | _ => false
  end.

(** Conditional updates of the item [id] from [fromTaskStatus] that
    DynamoDB accepted. *)
Definition is_transition_won (id fromTaskStatus : string) (e : Effect) : bool :=
  match e with
  | Request (UpdateItemCommand p) true =>
      bool_decide (upd_Key p = id
                   ∧ upd_Condition p = ("taskStatus", AttrS fromTaskStatus))
  | _ => false
  end.

(** Conditional updates that set the status [toTaskStatus], accepted or not. *)
Definition is_transition_to (toTaskStatus : string) (e : Effect) : bool :=
  match e with
  | Request (UpdateItemCommand p) _ =>
      bool_decide (("taskStatus", AttrS toTaskStatus) ∈ upd_Set p)
  | _ => false
  end.

(** Messages handed to SNS. *)
Definition is_publish (e : Effect) : bool :=
  match e with
  | Request (PublishCommand _ _) _ => true
  | _ => false
  end.

(** How many tasks of a batch satisfy a test on the task and its state. *)
Fixpoint tally_threads (p : Task -> ProcessTasks.Pc -> bool)
    (tasks : list Task) (pcs : list ProcessTasks.Pc) : nat :=
  match tasks, pcs with
  | task :: tasks', pc :: pcs' => (if p task pc then 1 else 0) + tally_threads p tasks' pcs'
  | _, _ => 0
  end.

Definition is_leased (id : string) (task : Task) (pc : ProcessTasks.Pc) : bool :=
  match pc with
  | ProcessTasks.Leased => bool_decide (taskId task = id)
  | _ => false
  end.

(** The resumptions a task of a batch still needs before it is settled. *)
Definition steps_left (pc : ProcessTasks.Pc) : nat :=
  match pc with
  | ProcessTasks.Delayed => 4
  | ProcessTasks.Leased => 3
  | ProcessTasks.Running => 2
  | ProcessTasks.Concluding _ => 1
  | ProcessTasks.Settled => 0
  | ProcessTasks.Unresolved _ => 0
  end.

(** The shapes of one resumption of [processTask]: the state before, the
    state after and what it adds to the record (most recent first). *)
Inductive step_kind (task : Task) : ProcessTasks.Pc -> ProcessTasks.Pc -> list Effect -> Prop :=
| lease_won now logs :
    Forall is_console logs ->
    step_kind task ProcessTasks.Delayed ProcessTasks.Leased
      (logs ++ [Request (transition_request now (taskId task) "PENDING" "TAKEN") true])
| lease_lost now logs :
    Forall is_console logs ->
    step_kind task ProcessTasks.Delayed ProcessTasks.Settled
      (logs ++ [Request (transition_request now (taskId task) "PENDING" "TAKEN") false])
| runner_pending logs :
    Forall is_console logs ->
    step_kind task ProcessTasks.Leased ProcessTasks.Running (logs ++ [RunnerCall task])
| runner_settled toState logs :
    Forall is_console logs ->
    step_kind task ProcessTasks.Leased (ProcessTasks.Concluding toState)
      (logs ++ [RunnerCall task])
| runner_resumed toState logs :
    Forall is_console logs ->
    step_kind task ProcessTasks.Running (ProcessTasks.Concluding toState) logs
| concluded now toState ok logs :
    Forall is_console logs ->
    step_kind task (ProcessTasks.Concluding toState) ProcessTasks.Settled
      (logs ++ [Request (transition_request now (taskId task) "TAKEN" toState) ok])
| stay_settled :
    step_kind task ProcessTasks.Settled ProcessTasks.Settled []
| stay_unresolved e :
    step_kind task (ProcessTasks.Unresolved e) (ProcessTasks.Unresolved e) [].

(** The state and the record after the outcome of the runner is known. *)
Definition runner_outcome_step (task : Task) (o : Outcome) (tr : list Effect)
  : ProcessTasks.Pc * list Effect :=
  match o with
  | Returns s => (Concluding s, tr)
  | Raises e =>
      (Concluding "PENDING", Console ERROR (PROCESS_TASK_ERROR e (taskId task)) :: tr)
  end.

(** With the fake runner a task is only ever concluded as PENDING or as
    SUCCESS. *)
Definition fake_toState (pc : ProcessTasks.Pc) : Prop :=
  match pc with
  | Concluding s => s = "PENDING" ∨ s = "SUCCESS"
  | _ => True
  end.

Definition fake_invariant (failures : nat) (pcs : list ProcessTasks.Pc) (w : World Z) : Prop :=
  (runner w <= FakeTaskRunner.fakeMaxActiveTasks FakeTaskRunner.CONFIG)%Z
  ∧ Forall fake_toState pcs
  ∧ tally_effects (is_transition_to "FAILURE") (trace w) = failures.

(** ** Vocabulary of the further properties *)

(** Several callers try the same transition of the same task one after the
    other, each with its own clock and its own fate of the request. *)
Fixpoint attempts_run {RS} (rejected : JsError) (task : Task)
    (fromTaskStatus toTaskStatus : string) (attempts : list (Z * option JsError))
    (w : World RS) : list (Completion bool) * World RS :=
  match attempts with
  | [] => ([], w)
  | attempt :: rest =>
      let r := ProcessTasks.transitionTask rejected attempt.1 attempt.2 task
                 fromTaskStatus toTaskStatus w in
      let rs := attempts_run rejected task fromTaskStatus toTaskStatus rest r.2 in
      (r.1 :: rs.1, rs.2)
  end.

(** How many of the callers were told [true]. *)
Fixpoint owners (results : list (Completion bool)) : nat :=
  match results with
  | [] => 0
  | Normal true :: rest => S (owners rest)
  | _ :: rest => owners rest
  end.

Definition served (attempt : Z * option JsError) : bool :=
  match attempt.2 with None => true | Some _ => false end.

(** The task id an item carries. *)
Definition item_id (it : Item) : string :=
  match it !! "taskId" with
  | Some (AttrS k) => k
  | _ => ""
  end.

(** The page of the index a batch selection reads. *)
Definition pending_page (t : Table) : list Item :=
  take (ProcessTasks.pageLimit ProcessTasks.CONFIG) (pending_newest_first t).

(** The tasks of a batch that may still call the task runner for [id]. *)
Definition awaits_runner (id : string) (task : Task) (pc : ProcessTasks.Pc) : bool :=
  match pc with
  | ProcessTasks.Delayed | ProcessTasks.Leased => bool_decide (taskId task = id)
  | _ => false
  end.

(** The tasks of a batch that are waiting for the promise of the runner. *)
Definition is_running (task : Task) (pc : ProcessTasks.Pc) : bool :=
  match pc with
  | ProcessTasks.Running => true
  | _ => false
  end.

(** Two tables with the same items up to their status and update time. *)
Definition same_but_status (t t' : Table) : Prop :=
  ∀ k,
    match t !! k, t' !! k with
    | Some it, Some it' =>
        ∀ a, a ≠ "taskStatus" -> a ≠ "taskUpdated" -> it' !! a = it !! a
    | None, None => True
    | _, _ => False
    end.

(** How often the event loop resumes task [i] of a batch. *)
Definition resumptions (i : nat) (schedule : list ProcessTasks.Event) : nat :=
  length (filter (fun ev => ProcessTasks.ev_thread ev = i) schedule).

(** A schedule that resumes each task of a page four times. *)
Definition settles_a_page (schedule : list ProcessTasks.Event) : Prop :=
  Forall (fun i => 4 ≤ resumptions i schedule)
    (seq 0 (ProcessTasks.pageLimit ProcessTasks.CONFIG)).

(** A record that makes the trigger call the process tasks function. *)
Definition is_relevant (r : Trigger.EventRecord) : bool :=
  bool_decide (Trigger.EventSource r = Some "aws:sns")
  || bool_decide (Trigger.eventName r = Some "INSERT").

(** The records of an event when none of them is [null]. *)
Definition records_of (event : Trigger.TriggerEvent) : option (list Trigger.EventRecord) :=
  match event with
  | Some records => mapM (fun r : option Trigger.EventRecord => r) records
  | None => None
  end.

Definition calls_worker (event : Trigger.TriggerEvent) : bool :=
  match records_of event with
  | Some rs => existsb is_relevant rs
  | None => false
  end.

Definition has_null_record (event : Trigger.TriggerEvent) : bool :=
  match event with
  | Some records =>
      existsb (fun r => match r with None => true | Some _ => false end) records
  | None => false
  end.

(** The requests in the record of an invocation, and the lines of the
    handler itself. *)
Definition requests_of (l : list Entry) : list (Command * bool) :=
  omap (fun e => match e with Inner (Request c ok) => Some (c, ok) | _ => None end) l.

Definition handler_lines (l : list Entry) : list (Level * HandlerEvent) :=
  omap (fun e => match e with Handler lvl ev => Some (lvl, ev) | _ => None end) l.

(** The rounds of [createTasks] that run: every round up to the first one
    whose clock shows the time limit, that one included. *)
Fixpoint consumed (start : Z) (rounds : list CreateTasks.Creation)
  : list CreateTasks.Creation :=
  match rounds with
  | [] => []
  | rd :: rest =>
      rd :: (if bool_decide (Z.abs (start - CreateTasks.cr_check rd)
                             < CreateTasks.maxActiveTime CreateTasks.CONFIG)%Z
             then consumed start rest else [])
  end.

(** The ids of the rounds whose put DynamoDB serves. *)
Definition inserted (rounds : list CreateTasks.Creation) : list string :=
  CreateTasks.cr_id <$> filter (fun rd => CreateTasks.cr_fault rd = None) rounds.

(** The puts of a trace, most recent first: the task id of the item and
    whether the request was served. *)
Definition put_requests (l : list Effect) : list (string * bool) :=
  omap (fun e =>
          match e with
          | Request (PutItemCommand p) ok =>
              match put_Item p !! "taskId" with
              | Some (AttrS id) => Some (id, ok)
              | _ => None
              end
          | _ => None
          end) l.

(** ** Sample data *)

(** The exception the client of [@aws-sdk/client-dynamodb] raises for a
    failed condition: it carries its name and has no [code] property. *)
Definition conditionalCheckFailed : JsError :=
  {| err_name := "ConditionalCheckFailedException"; err_code := None |}.

(** The exception [transitionTask] tests for: the same with a [code]. *)
Definition conditionalCheckFailedWithCode : JsError :=
  {| err_name := "ConditionalCheckFailedException";
     err_code := Some "ConditionalCheckFailedException" |}.

Definition requestTimeout : JsError :=
  {| err_name := "TimeoutError"; err_code := Some "TimeoutError" |}.

Definition runnerBug : JsError := {| err_name := "Error"; err_code := None |}.

Definition item_of (id status : string) (created updated : Z) : Item :=
  {[ "taskId" := AttrS id;
     "taskStatus" := AttrS status;
     "taskCreated" := AttrN created;
     "taskUpdated" := AttrN updated;
     "ttl" := AttrN (created + 3600000) ]}.

(** An item of a task that was completed. *)
Definition completed_item : Item := item_of "t1" "SUCCESS" 5 9.


(** A table with a completed task, a task that is leased and a PENDING one
    created after it. *)
Definition sample_table : Table :=
  {[ "t1" := completed_item;
     "t2" := item_of "t2" "TAKEN" 7 20;
     "t3" := item_of "t3" "PENDING" 8 8 ]}.

(** The same table before the lease of [t2]. *)
Definition pending_table : Table :=
  {[ "t1" := completed_item;
     "t2" := item_of "t2" "PENDING" 7 7;
     "t3" := item_of "t3" "PENDING" 8 8 ]}.

Definition task_of (id status : string) (created updated : Z) : Task :=
  {| taskId := id; taskStatus := status; taskCreated := created;
     taskUpdated := Some updated |}.

Definition sample_world : World Z := mkWorld sample_table [] 0%Z.
Definition pending_world : World Z := mkWorld pending_table [] 0%Z.

(** A task runner whose promise is always rejected. *)
Definition raising_runner (err : JsError) : TaskRunner unit := {|
  runner_call := fun _ rs => (rs, [], Some (Raises err));
  runner_resume := fun _ rs => (rs, [], Raises err)
|}.

(** The table after the producer has created the given tasks, in order, each
    at its time. *)
Definition produced (tasks : list (string * Z)) : World Z :=
  foldl (fun w task => (CreateTasks.createTask task.2 None task.1 w).2)
    (mkWorld ∅ [] 0%Z) tasks.

Definition twelve_tasks : list (string * Z) :=
  [("a", 1); ("b", 2); ("c", 3); ("d", 4); ("e", 5); ("f", 6);
   ("g", 7); ("h", 8); ("i", 9); ("j", 10); ("k", 11); ("l", 12)]%Z.

(** Every task of a batch of two resumed until it is settled, the second
    task first. *)
Definition settle_two : list ProcessTasks.Event :=
  (fun i => {| ProcessTasks.ev_thread := i;
               ProcessTasks.ev_now := 100;
               ProcessTasks.ev_fault := None |})
    <$> [1; 0; 0; 1; 1; 0; 0; 1].

Definition round_at (now : Z) (schedule : list ProcessTasks.Event) : ProcessTasks.Round := {|
  ProcessTasks.rd_now := now;
  ProcessTasks.rd_queryFault := None;
  ProcessTasks.rd_schedule := schedule;
  ProcessTasks.rd_publishFault := None
|}.

(** A round at the very instant the active time equals [maxActiveTime]. *)
Definition round_at_limit : ProcessTasks.Round := {|
  ProcessTasks.rd_now := 59000;
  ProcessTasks.rd_queryFault := None;
  ProcessTasks.rd_schedule := [];
  ProcessTasks.rd_publishFault := None
|}.

(** Four resumptions of the first task of a batch. *)
Definition four_resumptions : list ProcessTasks.Event :=
  replicate 4 {| ProcessTasks.ev_thread := 0;
                 ProcessTasks.ev_now := 100;
                 ProcessTasks.ev_fault := None |}.

(** A table in which the newest PENDING item has lost its update time. *)
Definition damaged_table : Table :=
  {[ "t2" := item_of "t2" "PENDING" 7 7;
     "t4" := delete "taskUpdated" (item_of "t4" "PENDING" 9 9) ]}.

Definition damaged_world : World Z := mkWorld damaged_table [] 0%Z.

(** Events of the trigger: a page of the stream with two updates and an
    insert, a page with updates only, and a hand-off through SNS. *)
Definition stream_record (name : string) : option Trigger.EventRecord :=
  Some {| Trigger.EventSource := None; Trigger.eventName := Some name |}.

Definition stream_with_insert : Trigger.TriggerEvent :=
  Some [stream_record "MODIFY"; stream_record "INSERT"; stream_record "INSERT"].

Definition stream_of_updates : Trigger.TriggerEvent :=
  Some [stream_record "MODIFY"; stream_record "REMOVE"].

(** Every task of a page resumed four times, task after task. *)
Definition settle_page : list ProcessTasks.Event :=
  (fun i => {| ProcessTasks.ev_thread := i;
               ProcessTasks.ev_now := 100;
               ProcessTasks.ev_fault := None |})
    <$> (seq 0 10 ≫= replicate 4).

(** A round whose query fails. *)
Definition failing_round : ProcessTasks.Round := {|
  ProcessTasks.rd_now := 10;
  ProcessTasks.rd_queryFault := Some requestTimeout;
  ProcessTasks.rd_schedule := settle_two;
  ProcessTasks.rd_publishFault := None
|}.

(** Rounds of the producer: an insert, a failed insert a second later, and
    an insert that finds the time limit reached; a fourth round never runs. *)
Definition creation_rounds : list CreateTasks.Creation :=
  [ {| CreateTasks.cr_now := 0; CreateTasks.cr_id := "n1";
       CreateTasks.cr_fault := None; CreateTasks.cr_check := 1 |};
    {| CreateTasks.cr_now := 1001; CreateTasks.cr_id := "n2";
       CreateTasks.cr_fault := Some requestTimeout; CreateTasks.cr_check := 1002 |};
    {| CreateTasks.cr_now := 15001; CreateTasks.cr_id := "n3";
       CreateTasks.cr_fault := None; CreateTasks.cr_check := 15002 |};
    {| CreateTasks.cr_now := 16003; CreateTasks.cr_id := "n4";
       CreateTasks.cr_fault := None; CreateTasks.cr_check := 16004 |} ]%Z.

(** A round of the producer whose insert takes 15 seconds. *)
Definition creation_at_limit : CreateTasks.Creation :=
  {| CreateTasks.cr_now := 0; CreateTasks.cr_id := "n1";
     CreateTasks.cr_fault := None; CreateTasks.cr_check := 15000 |}.

Ltac unfold_monad :=
  unfold try_catch, ddb_send, console_log, console_error, emit, throw,
    mbind, M_bind, mret, M_ret in *.

Lemma insert_as_alter {A} (m : gmap string A) (k : string) (x : A) (f : A -> A) :
  m !! k = Some x -> <[k := f x]> m = alter f k m.
Proof.
  intros Hk. apply map_eq. intros j. rewrite lookup_alter, lookup_insert.
  destruct (decide (k = j)) as [<-|]; [by rewrite Hk | done].
Qed.

Section LeaseProtocol.

Context {RS : Type} (rejected : JsError).
Implicit Types (w : World RS) (task : Task).

Lemma transitionTask_served w now task from to :
  persisted_status (table w) (taskId task) = Some (AttrS from) ->
  transitionTask rejected now None task from to w =
    (Normal true,
     mkWorld (alter (transitioned now to) (taskId task) (table w))
       (Console LOG (TRANSITION_TASK from to (taskId task) task (now - taskCreated task))
          :: Request (transition_request now (taskId task) from to) true :: trace w)
       (runner w)).
Proof.
  unfold persisted_status, transitionTask. intros Hst. unfold_monad.
  unfold updateItem. cbn [table trace runner upd_Key upd_Condition upd_Set].
  destruct (table w !! taskId task) as [it|] eqn:Hit; cbn in Hst; [|discriminate].
  unfold condition_holds. cbn [fst snd]. rewrite bool_decide_eq_true_2 by done.
  cbn [table trace runner apply_set foldl fst snd].
  change (<["taskUpdated":=AttrN now]> (<["taskStatus":=AttrS to]> it))
    with (transitioned now to it).
  rewrite (insert_as_alter _ _ _ (transitioned now to) Hit). reflexivity.
Qed.

Lemma transitionTask_rejected w now task from to :
  persisted_status (table w) (taskId task) ≠ Some (AttrS from) ->
  transitionTask rejected now None task from to w =
    (Normal false,
     mkWorld (table w)
       (Console LOG (TRANSITION_TASK_FAILED from to (taskId task) task (now - taskCreated task))
          :: (if bool_decide (err_code rejected ≠ Some "ConditionalCheckFailedException")
              then [Console ERROR (TRANSITION_TASK_ERROR rejected (taskId task))]
              else [])
          ++ Request (transition_request now (taskId task) from to) false :: trace w)
       (runner w)).
Proof.
  unfold persisted_status, transitionTask. intros Hst. unfold_monad.
  unfold updateItem. cbn [table trace runner upd_Key upd_Condition upd_Set].
  assert (Hthrow :
    match table w !! taskId task with
    | Some it =>
        if condition_holds it ("taskStatus", AttrS from)
        then (inr tt, <[taskId task := apply_set it
                 [("taskStatus", AttrS to); ("taskUpdated", AttrN now)]]> (table w))
        else (inl rejected, table w)
    | None => (inl rejected, table w)
    end = (inl rejected, table w)).
  { destruct (table w !! taskId task) as [it|] eqn:Hit; [|done].
    unfold condition_holds. cbn [fst snd]. cbn in Hst.
    rewrite bool_decide_eq_false_2 by done. done. }
  rewrite Hthrow. cbn [table trace runner].
  destruct (bool_decide _); reflexivity.
Qed.

Lemma transitionTask_fault w now err task from to :
  transitionTask rejected now (Some err) task from to w =
    (Normal false,
     mkWorld (table w)
       (Console LOG (TRANSITION_TASK_FAILED from to (taskId task) task (now - taskCreated task))
          :: (if bool_decide (err_code err ≠ Some "ConditionalCheckFailedException")
              then [Console ERROR (TRANSITION_TASK_ERROR err (taskId task))]
              else [])
          ++ Request (transition_request now (taskId task) from to) false :: trace w)
       (runner w)).
Proof.
  unfold transitionTask. unfold_monad. cbn [table trace runner].
  destruct (bool_decide _); reflexivity.
Qed.

Lemma transitioned_lookup now to (it : Item) :
  transitioned now to it !! "taskStatus" = Some (AttrS to)
  ∧ transitioned now to it !! "taskUpdated" = Some (AttrN now)
  ∧ ∀ a, a ≠ "taskStatus" -> a ≠ "taskUpdated" -> transitioned now to it !! a = it !! a.
Proof.
  unfold transitioned. split_and!.
  - rewrite lookup_insert_ne by done. apply lookup_insert_eq.
  - apply lookup_insert_eq.
  - intros a H1 H2. by rewrite !lookup_insert_ne.
Qed.

Lemma transitionTask_cases w now fault task from to :
  let r := transitionTask rejected now fault task from to w in
  let applies :=
    bool_decide (fault = None
                 ∧ persisted_status (table w) (taskId task) = Some (AttrS from)) in
  r.1 = Normal applies
  ∧ table r.2 = (if applies
                 then alter (transitioned now to) (taskId task) (table w)
                 else table w).
Proof.
  cbv zeta. destruct fault as [err|].
  - rewrite (bool_decide_eq_false_2 (Some err = None ∧ _))
      by (intros [? _]; discriminate).
    rewrite transitionTask_fault. done.
  - destruct (decide (persisted_status (table w) (taskId task) = Some (AttrS from)))
      as [Hst|Hst].
    + rewrite (bool_decide_eq_true_2 (None = None ∧ _)) by done.
      rewrite (transitionTask_served _ _ _ _ _ Hst). done.
    + rewrite (bool_decide_eq_false_2 (None = None ∧ _)) by (intros [_ ?]; done).
      rewrite (transitionTask_rejected _ _ _ _ _ Hst). done.
Qed.

(** C1. The conditional transition returns [true] exactly when the request is
    served and the persisted status of the task equals [from]; in that case
    the stored item gets status [to] and update time [now], and otherwise the
    table is left as it was.  In particular a task whose status is SUCCESS or
    FAILURE cannot be moved by a transition with origin PENDING or TAKEN. *)
Theorem transitionTask_conditional w now fault task from to :
  let r := transitionTask rejected now fault task from to w in
  let applies :=
    bool_decide (fault = None
                 ∧ persisted_status (table w) (taskId task) = Some (AttrS from)) in
  r.1 = Normal applies
  ∧ table r.2 = (if applies
                 then alter (transitioned now to) (taskId task) (table w)
                 else table w)
  ∧ (applies = true ->
       persisted_status (table r.2) (taskId task) = Some (AttrS to)
       ∧ table r.2 !! taskId task ≫= (.!! "taskUpdated") = Some (AttrN now))
  ∧ ∀ terminal origin,
      terminal ∈ ["SUCCESS"; "FAILURE"] -> origin ∈ ["PENDING"; "TAKEN"] ->
      persisted_status (table w) (taskId task) = Some (AttrS terminal) ->
      let r' := transitionTask rejected now fault task origin to w in
      r'.1 = Normal false ∧ table r'.2 = table w.
Proof.
  cbv zeta. destruct (transitionTask_cases w now fault task from to) as [Hres Htab].
  cbv zeta in Hres, Htab. split_and!; [done..| |].
  - intros Happ. rewrite Htab, Happ.
    apply bool_decide_eq_true in Happ. destruct Happ as [_ Hst].
    unfold persisted_status in *. rewrite lookup_alter_eq.
    destruct (table w !! taskId task) as [it|]; [|discriminate]. cbn.
    destruct (transitioned_lookup now to it) as (-> & -> & _). done.
  - intros terminal origin Hterm Horig Hst.
    destruct (transitionTask_cases w now fault task origin to) as [Hres' Htab'].
    cbv zeta in Hres', Htab'.
    rewrite (bool_decide_eq_false_2 (fault = None ∧ _)) in Hres', Htab'; [done| |].
    all: intros [_ Hst']; rewrite Hst in Hst'; injection Hst' as ->.
    all: apply list_elem_of_In in Hterm, Horig; cbn in Hterm, Horig.
    all: intuition congruence.
Qed.

(** A transition never raises.  When [ddbClient.send] raised [err] it
    returns [false] and logs the event TRANSITION_TASK_FAILED with
    [console.log]; it writes to [console.error] exactly when the [code] of
    [err] is not ['ConditionalCheckFailedException'], and then only the event
    TRANSITION_TASK_ERROR.  When nothing was raised it returns [true] and
    writes nothing to [console.error]. *)
Lemma transitionTask_reports w now fault task from to :
  let r := transitionTask rejected now fault task from to w in
  let id := taskId task in
  ∃ new, trace r.2 = new ++ trace w
    ∧ (∀ e, r.1 ≠ Throw e)
    ∧ match send_failure rejected fault (table w) id from with
      | None => r.1 = Normal true ∧ errors_in new = []
      | Some err =>
          r.1 = Normal false
          ∧ errors_in new =
              (if bool_decide (err_code err = Some "ConditionalCheckFailedException")
               then [] else [TRANSITION_TASK_ERROR err id])
          ∧ Console LOG (TRANSITION_TASK_FAILED from to id task (now - taskCreated task))
              ∈ new
      end.
Proof.
  cbv zeta. unfold send_failure.
  destruct fault as [err|].
  - rewrite transitionTask_fault. cbn [fst snd trace].
    eexists (_ :: _ ++ [_]). split; [simpl; rewrite <- app_assoc; reflexivity|].
    split; [done|]. split; [done|]. split; [|by left].
    repeat case_bool_decide; done.
  - destruct (decide (persisted_status (table w) (taskId task) = Some (AttrS from)))
      as [Hst|Hst].
    + rewrite (bool_decide_eq_true_2 _ Hst), (transitionTask_served _ _ _ _ _ Hst).
      cbn [fst snd trace]. eexists [_; _]. split; [done|]. split; done.
    + rewrite (bool_decide_eq_false_2 _ Hst), (transitionTask_rejected _ _ _ _ _ Hst).
      cbn [fst snd trace].
      eexists (_ :: _ ++ [_]). split; [simpl; rewrite <- app_assoc; reflexivity|].
      split; [done|]. split; [done|]. split; [|by left].
      repeat case_bool_decide; done.
Qed.

End LeaseProtocol.

Lemma Forall2_elem_of_r {A B} (P : A -> B -> Prop) (l : list A) (k : list B) (y : B) :
  Forall2 P l k -> y ∈ k -> ∃ x, x ∈ l ∧ P x y.
Proof.
  induction 1 as [|x y' l k Hxy _ IH]; intros Hy.
  - by apply elem_of_nil in Hy.
  - apply elem_of_cons in Hy as [->|Hy].
    + exists x. split; [by left|done].
    + destruct (IH Hy) as (x' & Hx' & HP). exists x'. split; [by right|done].
Qed.

Lemma Forall2_elem_of_l {A B} (P : A -> B -> Prop) (l : list A) (k : list B) (x : A) :
  Forall2 P l k -> x ∈ l -> ∃ y, y ∈ k ∧ P x y.
Proof.
  induction 1 as [|x' y l k Hxy _ IH]; intros Hx.
  - by apply elem_of_nil in Hx.
  - apply elem_of_cons in Hx as [->|Hx].
    + exists y. split; [by left|done].
    + destruct (IH Hx) as (y' & Hy' & HP). exists y'. split; [by right|done].
Qed.

Lemma StronglySorted_Forall2 {A B} (R : relation A) (S : relation B)
    (P : A -> B -> Prop) (l : list A) (k : list B) :
  (∀ a b a' b', P a b -> P a' b' -> R a a' -> S b b') ->
  Forall2 P l k -> StronglySorted R l -> StronglySorted S k.
Proof.
  intros HRS. induction 1 as [|x y l k Hxy HF IH]; intros Hs; [constructor|].
  apply StronglySorted_inv in Hs as [Hs Hall]. constructor; [by apply IH|].
  apply Forall_forall. intros y' Hy'.
  destruct (Forall2_elem_of_r _ _ _ _ HF Hy') as (x' & Hx' & HP).
  apply (HRS x y x' y'); [done..|].
  by apply (proj1 (Forall_forall _ _) Hall).
Qed.

Lemma StronglySorted_strict {A} (f : A -> Z) (l : list A) :
  StronglySorted (fun a b => (f b <= f a)%Z) l -> NoDup (f <$> l) ->
  StronglySorted (fun a b => (f b < f a)%Z) l.
Proof.
  induction 1 as [|x l Hs IH Hall]; intros Hnd; [constructor|].
  rewrite fmap_cons in Hnd. apply NoDup_cons in Hnd as [Hx Hnd].
  constructor; [by apply IH|].
  apply Forall_forall. intros y Hy.
  assert (f y <= f x)%Z by by apply (proj1 (Forall_forall _ _) Hall).
  assert (f y ≠ f x).
  { intros Heq. apply Hx. rewrite <- Heq. by apply list_elem_of_fmap_2. }
  lia.
Qed.

Section BatchSelector.

Context {RS : Type}.
Implicit Types (w : World RS) (t : Table) (it : Item).

#[local] Instance scan_order_trans forward : Transitive (scan_order forward).
Proof. intros a b c. unfold scan_order. destruct forward; lia. Qed.

#[local] Instance scan_order_total forward : Total (scan_order forward).
Proof. intros a b. unfold scan_order. destruct forward; lia. Qed.

Lemma pending_newest_first_sorted t :
  StronglySorted (scan_order false) (pending_newest_first t).
Proof. apply StronglySorted_merge_sort; apply _. Qed.

Lemma pending_newest_first_perm t : pending_newest_first t ≡ₚ pending_items t.
Proof. apply merge_sort_Permutation. Qed.

Lemma elem_of_pending_items t it :
  it ∈ pending_items t <-> in_partition "PENDING" it = true ∧ ∃ k, t !! k = Some it.
Proof.
  unfold pending_items. rewrite list_elem_of_filter, list_elem_of_fmap.
  split; intros [Hp Hin]; (split; [done|]).
  - destruct Hin as ([k it'] & -> & Hin). exists k. by apply elem_of_map_to_list.
  - destruct Hin as [k Hk]. exists (k, it). split; [done|]. by apply elem_of_map_to_list.
Qed.

Lemma toTask_Some it task :
  toTask it = Some task ->
  it !! "taskId" = Some (AttrS (taskId task))
  ∧ index_key it = Some (taskStatus task, taskCreated task)
  ∧ range_key it = taskCreated task.
Proof.
  unfold toTask, range_key, index_key. intros Htask.
  destruct (it !! "taskId") as [[id|]|]; try done.
  destruct (it !! "taskStatus") as [[st|]|]; try done.
  destruct (it !! "taskCreated") as [[|c]|]; try done.
  destruct (it !! "taskUpdated") as [u|]; try done.
  injection Htask as <-. done.
Qed.

Lemma toTask_pending it task :
  toTask it = Some task -> in_partition "PENDING" it = true -> taskStatus task = "PENDING".
Proof.
  intros Htask. destruct (toTask_Some _ _ Htask) as (_ & Hkey & _).
  unfold in_partition. rewrite Hkey. apply bool_decide_eq_true.
Qed.

Lemma well_formed_toTask t k it :
  well_formed t -> t !! k = Some it -> ∃ task, toTask it = Some task ∧ taskId task = k.
Proof.
  intros Hwf Hk. apply (map_Forall_lookup_1 _ _ _ _ Hwf) in Hk.
  unfold wf_item in Hk. destruct (toTask it) as [task|]; [|done].
  exists task. split; [done|]. by apply bool_decide_eq_true in Hk.
Qed.

(** The request a batch selection sends and the line it logs. *)
Lemma getPendingTaskBatch_served w :
  getPendingTaskBatch None w =
    let items := take (pageLimit CONFIG) (pending_newest_first (table w)) in
    let sent := Console LOG (GET_PENDING_TASK_BATCH (length items))
                  :: Request (QueryCommand pendingQuery) true :: trace w in
    match mapM toTask items with
    | Some ts => (Normal ts, mkWorld (table w) sent (runner w))
    | None =>
        (Normal [],
         mkWorld (table w)
           (Console ERROR (GET_PENDING_TASK_BATCH_ERROR TypeError) :: sent) (runner w))
    end.
Proof.
  unfold getPendingTaskBatch. unfold_monad. cbn [table trace runner].
  change (query pendingQuery (table w))
    with (take (pageLimit CONFIG) (pending_newest_first (table w))).
  cbv zeta. destruct (mapM toTask _); reflexivity.
Qed.

Lemma getPendingTaskBatch_well_formed w :
  well_formed (table w) ->
  ∃ ts,
    Forall2 (fun it task => toTask it = Some task)
      (take (pageLimit CONFIG) (pending_newest_first (table w))) ts
    ∧ (getPendingTaskBatch None w).1 = Normal ts
    ∧ table (getPendingTaskBatch None w).2 = table w.
Proof.
  intros Hwf. rewrite getPendingTaskBatch_served. cbv zeta.
  destruct (mapM toTask _) as [ts|] eqn:Hmap.
  - exists ts. split; [by apply mapM_Some|done].
  - exfalso. apply eq_None_not_Some in Hmap. apply Hmap.
    apply mapM_is_Some. apply Forall_forall. intros it Hit.
    apply elem_of_take in Hit as (i & Hit & _).
    apply list_elem_of_lookup_2 in Hit.
    rewrite pending_newest_first_perm in Hit.
    apply elem_of_pending_items in Hit as (_ & k & Hk).
    unfold compose. destruct (well_formed_toTask _ _ _ Hwf Hk) as (task & -> & _). done.
Qed.

(** C4. On a table of well-formed items whose PENDING tasks have pairwise
    distinct creation times, the batch selection returns the
    [min pageLimit n] most recently created of the [n] PENDING tasks, each
    with status PENDING, in strictly descending order of creation time:
    every PENDING task left out was created before every task returned. *)
Theorem getPendingTaskBatch_newest_first w :
  well_formed (table w) ->
  NoDup (range_key <$> pending_items (table w)) ->
  ∃ ts,
    (getPendingTaskBatch None w).1 = Normal ts
    ∧ length ts = pageLimit CONFIG `min` length (pending_items (table w))
    ∧ length ts ≤ 10
    ∧ Forall (fun task =>
                taskStatus task = "PENDING"
                ∧ ∃ it, table w !! taskId task = Some it ∧ toTask it = Some task) ts
    ∧ StronglySorted (fun a b => (taskCreated b < taskCreated a)%Z) ts
    ∧ ∀ it, it ∈ pending_items (table w) ->
        (∃ task, toTask it = Some task ∧ task ∈ ts)
        ∨ (∀ task, task ∈ ts -> (range_key it < taskCreated task)%Z).
Proof.
  intros Hwf Hnd.
  destruct (getPendingTaskBatch_well_formed w Hwf) as (ts & HF & Hres & _).
  exists ts. split; [done|].
  set (L := pending_newest_first (table w)) in *.
  assert (Hperm : L ≡ₚ pending_items (table w)) by apply pending_newest_first_perm.
  assert (Hstrict : StronglySorted (fun a b => (range_key b < range_key a)%Z) L).
  { apply StronglySorted_strict.
    - apply (pending_newest_first_sorted (table w)).
    - by rewrite Hperm. }
  rewrite <- (take_drop (pageLimit CONFIG) L) in Hstrict.
  apply StronglySorted_app in Hstrict as (Hcross & Htake & _).
  assert (Hlen : length ts = pageLimit CONFIG `min` length (pending_items (table w))).
  { rewrite <- (Forall2_length _ _ _ HF), length_take. by rewrite Hperm. }
  split; [done|]. split; [rewrite Hlen; change (pageLimit CONFIG) with 10; lia|]. split_and!.
  - apply Forall_forall. intros task Htask.
    destruct (Forall2_elem_of_r _ _ _ _ HF Htask) as (it & Hit & Hto).
    apply elem_of_take in Hit as (i & Hit & _).
    apply list_elem_of_lookup_2 in Hit. rewrite Hperm in Hit.
    apply elem_of_pending_items in Hit as (Hpart & k & Hk).
    split; [by apply (toTask_pending it)|].
    exists it. split; [|done].
    destruct (well_formed_toTask _ _ _ Hwf Hk) as (task' & Hto' & <-). congruence.
  - refine (StronglySorted_Forall2 _ _ _ _ _ _ HF Htake).
    intros a b a' b' Hab Hab' HR. cbn in Hab, Hab', HR.
    destruct (toTask_Some _ _ Hab) as (_ & _ & <-).
    destruct (toTask_Some _ _ Hab') as (_ & _ & <-). exact HR.
  - intros it Hit. rewrite <- Hperm, <- (take_drop (pageLimit CONFIG) L) in Hit.
    apply elem_of_app in Hit as [Hit|Hit].
    + left. destruct (Forall2_elem_of_l _ _ _ _ HF Hit) as (task & ? & ?). by exists task.
    + right. intros task Htask.
      destruct (Forall2_elem_of_r _ _ _ _ HF Htask) as (it' & Hit' & Hto).
      destruct (toTask_Some _ _ Hto) as (_ & _ & <-). by apply Hcross.
Qed.

(** Whatever the ties, a task of the batch comes after every PENDING task
    with a later creation time, and none of those is left out. *)
Lemma getPendingTaskBatch_rank w (before : list Task) (t : Task) (after : list Task) :
  well_formed (table w) ->
  (getPendingTaskBatch None w).1 = Normal (before ++ t :: after) ->
  (∃ it, table w !! taskId t = Some it ∧ toTask it = Some t)
  ∧ ∀ it, it ∈ pending_items (table w) -> (taskCreated t < range_key it)%Z ->
      ∃ u, toTask it = Some u ∧ u ∈ before.
Proof.
  intros Hwf Hres.
  destruct (getPendingTaskBatch_well_formed w Hwf) as (ts & HF & Hres' & _).
  rewrite Hres in Hres'. injection Hres' as <-.
  set (L := pending_newest_first (table w)) in *.
  assert (Hperm : L ≡ₚ pending_items (table w)) by apply pending_newest_first_perm.
  assert (Hsorted : StronglySorted (scan_order false) L)
    by apply (pending_newest_first_sorted (table w)).
  apply Forall2_app_inv_r in HF as (ib & rest & HFb & HFr & Htake).
  apply Forall2_cons_inv_r in HFr as (it_t & ia & Ht & HFa & ->).
  destruct (toTask_Some _ _ Ht) as (_ & _ & Hkey).
  rewrite <- (take_drop (pageLimit CONFIG) L), Htake, <- app_assoc in Hsorted.
  apply StronglySorted_app in Hsorted as (_ & _ & Hsorted).
  apply StronglySorted_inv in Hsorted as [_ Hafter].
  assert (Hin : it_t ∈ L).
  { rewrite <- (take_drop (pageLimit CONFIG) L), Htake.
    apply elem_of_app. left. apply elem_of_app. right. by left. }
  split.
  - rewrite Hperm in Hin. apply elem_of_pending_items in Hin as (_ & k & Hk).
    destruct (well_formed_toTask _ _ _ Hwf Hk) as (t' & Ht' & <-).
    exists it_t. replace t with t' by congruence. done.
  - intros it Hit Hlt.
    rewrite <- Hperm, <- (take_drop (pageLimit CONFIG) L), Htake, <- app_assoc in Hit.
    apply elem_of_app in Hit as [Hit|Hit].
    + destruct (Forall2_elem_of_l _ _ _ _ HFb Hit) as (u & ? & ?). by exists u.
    + exfalso. apply elem_of_cons in Hit as [->|Hit]; [lia|].
      apply (proj1 (Forall_forall _ _) Hafter) in Hit.
      unfold scan_order in Hit. lia.
Qed.

End BatchSelector.

Section Requeue.

Context {RS : Type} (rejected : JsError).
Implicit Types (w : World RS) (task : Task) (it : Item).

Lemma toTask_transitioned now to it task :
  toTask it = Some task ->
  toTask (transitioned now to it) =
    Some {| taskId := taskId task;
            taskStatus := to;
            taskCreated := taskCreated task;
            taskUpdated := Some now |}.
Proof.
  unfold toTask. intros Htask.
  destruct (transitioned_lookup now to it) as (-> & -> & Hother).
  rewrite !Hother by done.
  destruct (it !! "taskId") as [[id|]|]; try done.
  destruct (it !! "taskStatus") as [[st|]|]; try done.
  destruct (it !! "taskCreated") as [[|c]|]; try done.
  destruct (it !! "taskUpdated") as [u|]; try done.
  injection Htask as <-. done.
Qed.

Lemma transitionTask_table w now fault task from to :
  table (transitionTask rejected now fault task from to w).2 = table w
  ∨ table (transitionTask rejected now fault task from to w).2
      = alter (transitioned now to) (taskId task) (table w).
Proof.
  destruct (transitionTask_cases rejected w now fault task from to) as [_ Htab].
  cbv zeta in Htab. rewrite Htab.
  destruct (bool_decide _); auto.
Qed.

Lemma well_formed_alter_transitioned (t : Table) now to id :
  well_formed t -> well_formed (alter (transitioned now to) id t).
Proof.
  intros Hwf. apply map_Forall_lookup. intros k it' Hk.
  rewrite lookup_alter in Hk. destruct (decide (id = k)) as [->|Hne].
  - destruct (t !! k) as [it|] eqn:Hit; [|done]. injection Hk as <-.
    destruct (well_formed_toTask _ _ _ Hwf Hit) as (task & Hto & Hid).
    unfold wf_item. rewrite (toTask_transitioned _ _ _ _ Hto). cbn.
    by apply bool_decide_eq_true.
  - by apply (map_Forall_lookup_1 _ _ _ _ Hwf) in Hk.
Qed.

Lemma well_formed_transitionTask w now fault task from to :
  well_formed (table w) ->
  well_formed (table (transitionTask rejected now fault task from to w).2).
Proof.
  intros Hwf. destruct (transitionTask_table w now fault task from to) as [->| ->];
    [done|by apply well_formed_alter_transitioned].
Qed.

(** What a transition leaves alone: every other item, and in the item of the
    task every attribute but [taskStatus] and [taskUpdated]; it creates and
    deletes nothing. *)
Lemma transitionTask_frame w now fault task from to :
  let w' := (transitionTask rejected now fault task from to w).2 in
  (∀ id, id ≠ taskId task -> table w' !! id = table w !! id)
  ∧ (table w' !! taskId task = None <-> table w !! taskId task = None)
  ∧ (∀ it', table w' !! taskId task = Some it' ->
       ∃ it, table w !! taskId task = Some it
         ∧ ∀ a, a ≠ "taskStatus" -> a ≠ "taskUpdated" -> it' !! a = it !! a)
  ∧ runner w' = runner w.
Proof.
  cbv zeta. split_and!.
  - intros id Hne.
    destruct (transitionTask_table w now fault task from to) as [->| ->]; [done|].
    by rewrite lookup_alter_ne.
  - destruct (transitionTask_table w now fault task from to) as [->| ->]; [done|].
    rewrite lookup_alter_eq. by destruct (table w !! taskId task).
  - intros it' Hit'.
    destruct (transitionTask_table w now fault task from to) as [Heq|Heq];
      rewrite Heq in Hit'.
    + by exists it'.
    + rewrite lookup_alter_eq in Hit'.
      destruct (table w !! taskId task) as [it|]; [|done]. injection Hit' as <-.
      exists it. split; [done|]. apply transitioned_lookup.
  - destruct fault as [err|]; [by rewrite transitionTask_fault|].
    destruct (decide (persisted_status (table w) (taskId task) = Some (AttrS from)))
      as [Hst|Hst].
    + by rewrite (transitionTask_served _ _ _ _ _ _ Hst).
    + by rewrite (transitionTask_rejected _ _ _ _ _ _ Hst).
Qed.

(** C5. A transition changes nothing but the attributes [taskStatus] and
    [taskUpdated] of the item of its task: the other items, the task id, the
    creation time, the expiry time and every other attribute of the item are
    as before, and no item appears or disappears.  So after a requeue (TAKEN
    to PENDING) the task is selected at its original creation time, after
    every PENDING task created later. *)
Theorem transitionTask_keeps_priority w now fault task from to :
  let w' := (transitionTask rejected now fault task from to w).2 in
  (∀ id, id ≠ taskId task -> table w' !! id = table w !! id)
  ∧ (table w' !! taskId task = None <-> table w !! taskId task = None)
  ∧ (∀ it', table w' !! taskId task = Some it' ->
       ∃ it, table w !! taskId task = Some it
         ∧ ∀ a, a ≠ "taskStatus" -> a ≠ "taskUpdated" -> it' !! a = it !! a)
  ∧ (well_formed (table w) ->
     let wq := (transitionTask rejected now fault task "TAKEN" "PENDING" w).2 in
     ∀ before t after,
       (getPendingTaskBatch None wq).1 = Normal (before ++ t :: after) ->
       taskId t = taskId task ->
       (∃ it, table w !! taskId task = Some it
              ∧ it !! "taskCreated" = Some (AttrN (taskCreated t)))
       ∧ ∀ it, it ∈ pending_items (table wq) -> (taskCreated t < range_key it)%Z ->
           ∃ u, toTask it = Some u ∧ u ∈ before).
Proof.
  cbv zeta.
  destruct (transitionTask_frame w now fault task from to) as (H1 & H2 & H3 & _).
  split_and!; [done..|].
  intros Hwf before t after Hres Hid.
  pose proof (well_formed_transitionTask w now fault task "TAKEN" "PENDING" Hwf) as Hwf'.
  destruct (getPendingTaskBatch_rank _ _ _ _ Hwf' Hres) as ((it' & Hit' & Ht) & Hrank).
  split; [|done].
  destruct (transitionTask_frame w now fault task "TAKEN" "PENDING") as (_ & _ & Hsame & _).
  rewrite Hid in Hit'. destruct (Hsame it' Hit') as (it & Hit & Hattr).
  exists it. split; [done|]. rewrite <- Hattr by done.
  unfold toTask in Ht.
  destruct (it' !! "taskId") as [[id|]|]; try done.
  destruct (it' !! "taskStatus") as [[st|]|]; try done.
  destruct (it' !! "taskCreated") as [[|c]|]; try done.
  destruct (it' !! "taskUpdated") as [u|]; try done.
  injection Ht as <-. done.
Qed.

End Requeue.

Section Producer.

Context {RS : Type}.
Implicit Types (w : World RS).

Lemma createTask_served w now id :
  CreateTasks.createTask now None id w =
    (Normal true,
     mkWorld
       (<[id := {[ "taskId" := AttrS id;
                   "taskStatus" := AttrS "PENDING";
                   "taskCreated" := AttrN now;
                   "taskUpdated" := AttrN now;
                   "ttl" := AttrN (now + 3600000) ]}]> (table w))
       (Console LOG (CREATE_TASK id)
          :: Request (PutItemCommand {| put_Item :=
               {[ "taskId" := AttrS id;
                  "taskStatus" := AttrS "PENDING";
                  "taskCreated" := AttrN now;
                  "taskUpdated" := AttrN now;
                  "ttl" := AttrN (now + 3600000) ]} |}) true
          :: trace w)
       (runner w)).
Proof.
  unfold CreateTasks.createTask. unfold_monad. unfold putItem.
  cbn [put_Item table trace runner].
  change (CreateTasks.plus_hours now _) with (now + 1 * 3600000)%Z.
  replace (now + 1 * 3600000)%Z with (now + 3600000)%Z by lia.
  rewrite lookup_insert_eq. reflexivity.
Qed.

(** C2, as the code has it.  An insert is an unconditional put.  When the
    request is served it returns [true] and stores under the task id an item
    with status PENDING, creation time and update time [now] and expiry
    [now] plus one hour, whether or not the id was in the table: an item
    already stored under the id is replaced.  Every other item is kept.
    When the request fails it returns [false] and the table is as before. *)
Theorem createTask_puts w now fault id :
  let r := CreateTasks.createTask now fault id w in
  match fault with
  | None =>
      r.1 = Normal true
      ∧ (∃ it, table r.2 !! id = Some it
          ∧ it !! "taskId" = Some (AttrS id)
          ∧ it !! "taskStatus" = Some (AttrS "PENDING")
          ∧ it !! "taskCreated" = Some (AttrN now)
          ∧ it !! "taskUpdated" = Some (AttrN now)
          ∧ it !! "ttl" = Some (AttrN (now + 60 * 60 * 1000))
          ∧ dom it = {[ "taskId"; "taskStatus"; "taskCreated"; "taskUpdated"; "ttl" ]})
      ∧ ∀ k, k ≠ id -> table r.2 !! k = table w !! k
  | Some _ => r.1 = Normal false ∧ table r.2 = table w
  end.
Proof.
  cbv zeta. destruct fault as [err|].
  - unfold CreateTasks.createTask. unfold_monad. done.
  - rewrite createTask_served. cbn [fst snd table]. split; [done|]. split.
    + eexists. rewrite lookup_insert_eq. split; [done|].
      split_and!; done.
    + intros k Hk. by rewrite lookup_insert_ne.
Qed.

(** The producer keeps the table well formed, and so does the engine
    ([well_formed_transitionTask]): every table they reach from the empty
    one is well formed. *)
Lemma well_formed_createTask w now fault id :
  well_formed (table w) -> well_formed (table (CreateTasks.createTask now fault id w).2).
Proof.
  intros Hwf. destruct fault as [err|].
  - unfold CreateTasks.createTask. unfold_monad. done.
  - rewrite createTask_served. cbn [snd table].
    apply map_Forall_insert_2; [|done].
    unfold wf_item, toTask. cbn. by apply bool_decide_eq_true.
Qed.

End Producer.

(** C2 fails as stated: inserting under an id that is in the table succeeds
    and replaces the item stored there. *)
Lemma createTask_replaces_existing :
  let w := mkWorld ({[ "t1" := completed_item ]} : Table) [] tt in
  let r := CreateTasks.createTask 100 None "t1" w in
  table w !! "t1" = Some completed_item
  ∧ r.1 = Normal true
  ∧ persisted_status (table r.2) "t1" = Some (AttrS "PENDING")
  ∧ table r.2 !! "t1" ≠ table w !! "t1".
Proof.
  cbv zeta. rewrite createTask_served. cbn [fst snd table].
  unfold persisted_status. rewrite !lookup_insert_eq.
  split_and!; done.
Qed.

Section TaskOfABatch.

Context {RS : Type} (rejected : JsError) `{!TaskRunner RS}.
Implicit Types (w : World RS) (task : Task) (pc : Pc).

(** A transition in one equation: its result, the table, and what it adds to
    the record. *)
Lemma transitionTask_run w now fault task from to :
  let applies :=
    bool_decide (fault = None
                 ∧ persisted_status (table w) (taskId task) = Some (AttrS from)) in
  ∃ logs, Forall is_console logs
    ∧ transitionTask rejected now fault task from to w =
        (Normal applies,
         mkWorld (if applies
                  then alter (transitioned now to) (taskId task) (table w)
                  else table w)
           (logs ++ Request (transition_request now (taskId task) from to) applies
              :: trace w)
           (runner w)).
Proof.
  cbv zeta. destruct fault as [err|].
  - rewrite (bool_decide_eq_false_2 (Some err = None ∧ _))
      by (intros [? _]; discriminate).
    rewrite transitionTask_fault. eexists (_ :: _). split; [|reflexivity].
    constructor; [done|]. destruct (bool_decide _); repeat constructor.
  - destruct (decide (persisted_status (table w) (taskId task) = Some (AttrS from)))
      as [Hst|Hst].
    + rewrite (bool_decide_eq_true_2 (None = None ∧ _)) by done.
      rewrite (transitionTask_served _ _ _ _ _ _ Hst). eexists [_].
      split; [|reflexivity]. by repeat constructor.
    + rewrite (bool_decide_eq_false_2 (None = None ∧ _)) by (intros [_ ?]; done).
      rewrite (transitionTask_rejected _ _ _ _ _ _ Hst). eexists (_ :: _).
      split; [|reflexivity].
      constructor; [done|]. destruct (bool_decide _); repeat constructor.
Qed.

Lemma thread_step_Delayed w now fault task :
  thread_step rejected now fault task Delayed w =
    (if bool_decide (fault = None
                     ∧ persisted_status (table w) (taskId task) = Some (AttrS "PENDING"))
     then Leased else Settled,
     (transitionTask rejected now fault task "PENDING" "TAKEN" w).2).
Proof.
  unfold thread_step, processTask_resume.
  destruct (transitionTask_run w now fault task "PENDING" "TAKEN") as (logs & _ & Heq).
  cbv zeta in Heq. unfold mbind, M_bind, mret, M_ret. rewrite Heq.
  by destruct (bool_decide _).
Qed.

Lemma thread_step_Concluding w now fault task toState :
  thread_step rejected now fault task (Concluding toState) w =
    (Settled, (transitionTask rejected now fault task "TAKEN" toState w).2).
Proof.
  unfold thread_step, processTask_resume.
  destruct (transitionTask_run w now fault task "TAKEN" toState) as (logs & _ & Heq).
  cbv zeta in Heq. unfold mbind, M_bind, mret, M_ret. by rewrite Heq.
Qed.

Lemma thread_step_Leased w now fault task :
  thread_step rejected now fault task Leased w =
    let '(rs, logs, settled) := runner_call task (runner w) in
    let tr := rev (Console LOG <$> logs) ++ RunnerCall task :: trace w in
    match settled with
    | None => (Running, mkWorld (table w) tr rs)
    | Some o =>
        ((runner_outcome_step task o tr).1,
         mkWorld (table w) (runner_outcome_step task o tr).2 rs)
    end.
Proof.
  unfold thread_step, processTask_resume, in_runner, after_runner.
  unfold_monad. cbn [table trace runner].
  destruct (runner_call task (runner w)) as [[rs logs] [[s|e]|]]; reflexivity.
Qed.

Lemma thread_step_Running w now fault task :
  thread_step rejected now fault task Running w =
    let '(rs, logs, o) := runner_resume task (runner w) in
    let tr := rev (Console LOG <$> logs) ++ trace w in
    ((runner_outcome_step task o tr).1,
     mkWorld (table w) (runner_outcome_step task o tr).2 rs).
Proof.
  unfold thread_step, processTask_resume, in_runner, after_runner.
  unfold_monad. cbn [table trace runner].
  destruct (runner_resume task (runner w)) as [[rs logs] [s|e]]; reflexivity.
Qed.

Lemma Forall_is_console_logs (logs : list LogEvent) :
  Forall is_console (rev (Console LOG <$> logs)).
Proof.
  apply Forall_forall. intros e He. apply list_elem_of_In, in_rev, list_elem_of_In in He.
  apply list_elem_of_fmap in He as (ev & -> & _). done.
Qed.

(** Every resumption has one of the shapes of [step_kind]. *)
Lemma thread_step_kind w now fault task pc :
  ∃ delta,
    trace (thread_step rejected now fault task pc w).2 = delta ++ trace w
    ∧ step_kind task pc (thread_step rejected now fault task pc w).1 delta.
Proof.
  destruct pc as [| | |toState| |e].
  - rewrite thread_step_Delayed.
    destruct (transitionTask_run w now fault task "PENDING" "TAKEN") as (logs & Hlogs & Heq).
    cbv zeta in Heq. rewrite Heq. cbn [fst snd trace].
    eexists (logs ++ [_]). split; [by rewrite <- app_assoc|].
    destruct (bool_decide _); by constructor.
  - rewrite thread_step_Leased.
    destruct (runner_call task (runner w)) as [[rs logs] [[s|e]|]]; cbn [fst snd trace runner_outcome_step].
    + eexists (_ ++ [_]). split; [by rewrite <- app_assoc|].
      constructor. apply Forall_is_console_logs.
    + eexists ((_ :: _) ++ [_]). split; [by rewrite <- app_assoc|].
      constructor. constructor; [done|apply Forall_is_console_logs].
    + eexists (_ ++ [_]). split; [by rewrite <- app_assoc|].
      constructor. apply Forall_is_console_logs.
  - rewrite thread_step_Running.
    destruct (runner_resume task (runner w)) as [[rs logs] [s|e]]; cbn [fst snd trace runner_outcome_step].
    + eexists. split; [reflexivity|]. constructor. apply Forall_is_console_logs.
    + eexists (_ :: _). split; [reflexivity|].
      constructor. constructor; [done|apply Forall_is_console_logs].
  - rewrite thread_step_Concluding.
    destruct (transitionTask_run w now fault task "TAKEN" toState) as (logs & Hlogs & Heq).
    cbv zeta in Heq. rewrite Heq. cbn [fst snd trace].
    eexists (logs ++ [_]). split; [by rewrite <- app_assoc|]. by constructor.
  - exists []. split; [done|constructor].
  - exists []. split; [done|constructor].
Qed.

(** The resumptions agree with the function: a task resumed four times with
    nothing in between has run [processTask]. *)
Lemma processTask_as_resumptions w now1 fault1 now2 fault2 task :
  let st1 := thread_step rejected now1 fault1 task Delayed w in
  let st2 := thread_step rejected now2 fault2 task st1.1 st1.2 in
  let st3 := thread_step rejected now2 fault2 task st2.1 st2.2 in
  let st4 := thread_step rejected now2 fault2 task st3.1 st3.2 in
  processTask rejected now1 fault1 now2 fault2 task w = (Normal tt, st4.2)
  ∧ st4.1 = Settled.
Proof.
  cbv zeta. rewrite thread_step_Delayed. unfold processTask, mbind, M_bind.
  destruct (transitionTask_run w now1 fault1 task "PENDING" "TAKEN")
    as (logs & _ & Heq). cbv zeta in Heq. rewrite Heq. clear Heq. cbn [fst snd].
  destruct (bool_decide _); [|done].
  set (w1 := mkWorld _ _ _). clearbody w1.
  rewrite thread_step_Leased. unfold try_catch, taskRunner_await.
  destruct (runner_call task (runner w1)) as [[rs logs1] [[s|e]|]];
    cbn [fst snd runner_outcome_step table trace runner].
  - rewrite thread_step_Concluding. cbn [fst snd].
    destruct (transitionTask_run
                (mkWorld (table w1)
                   (rev (Console LOG <$> logs1) ++ RunnerCall task :: trace w1) rs)
                now2 fault2 task "TAKEN" s) as (logs2 & _ & Heq).
    cbv zeta in Heq. cbn [app rev fmap list_fmap]. rewrite Heq. done.
  - rewrite thread_step_Concluding. cbn [fst snd]. unfold_monad.
    cbn [table trace runner app rev fmap list_fmap].
    destruct (transitionTask_run
                (mkWorld (table w1)
                   (Console ERROR (PROCESS_TASK_ERROR e (taskId task))
                      :: rev (Console LOG <$> logs1) ++ RunnerCall task :: trace w1) rs)
                now2 fault2 task "TAKEN" "PENDING") as (logs2 & _ & Heq).
    cbv zeta in Heq. rewrite Heq. done.
  - rewrite thread_step_Running. cbn [runner].
    destruct (runner_resume task rs) as [[rs' logs'] [s|e]];
      cbn [fst snd runner_outcome_step table trace runner].
    + rewrite thread_step_Concluding. cbn [fst snd].
      destruct (transitionTask_run
                  (mkWorld (table w1)
                     (rev (Console LOG <$> logs')
                        ++ rev (Console LOG <$> logs1) ++ RunnerCall task :: trace w1) rs')
                  now2 fault2 task "TAKEN" s) as (logs2 & _ & Heq).
      cbv zeta in Heq. rewrite Heq. done.
    + rewrite thread_step_Concluding. cbn [fst snd]. unfold_monad.
      cbn [table trace runner].
      destruct (transitionTask_run
                  (mkWorld (table w1)
                     (Console ERROR (PROCESS_TASK_ERROR e (taskId task))
                        :: rev (Console LOG <$> logs')
                        ++ rev (Console LOG <$> logs1) ++ RunnerCall task :: trace w1) rs')
                  now2 fault2 task "TAKEN" "PENDING") as (logs2 & _ & Heq).
      cbv zeta in Heq. rewrite Heq. done.
Qed.

End TaskOfABatch.

Section Batch.

Context {RS : Type} (rejected : JsError) `{!TaskRunner RS}.
Implicit Types (w : World RS) (task : Task) (pc : Pc) (pcs : list Pc).

Lemma tally_effects_app p (l1 l2 : list Effect) :
  tally_effects p (l1 ++ l2) = tally_effects p l1 + tally_effects p l2.
Proof. induction l1 as [|e l1 IH]; cbn; [done|]. rewrite IH. lia. Qed.

Lemma tally_effects_console p (logs : list Effect) :
  (∀ lvl e, p (Console lvl e) = false) ->
  Forall is_console logs -> tally_effects p logs = 0.
Proof.
  intros Hp. induction 1 as [|e logs He _ IH]; cbn; [done|].
  destruct e; try done. by rewrite Hp, IH.
Qed.

Lemma tally_threads_insert p tasks pcs i task pc pc' :
  tasks !! i = Some task -> pcs !! i = Some pc ->
  tally_threads p tasks (<[i := pc']> pcs) + (if p task pc then 1 else 0)
  = tally_threads p tasks pcs + (if p task pc' then 1 else 0).
Proof.
  revert tasks pcs. induction i as [|i IH]; intros [|t tasks] [|q pcs] Ht Hp;
    try discriminate; cbn in Ht, Hp.
  - injection Ht as ->. injection Hp as ->.
    change (<[0 := pc']> (pc :: pcs)) with (pc' :: pcs). cbn [tally_threads].
    destruct (p task pc), (p task pc'); lia.
  - specialize (IH tasks pcs Ht Hp). revert IH.
    change (<[S i := pc']> (q :: pcs)) with (q :: <[i := pc']> pcs).
    cbn [tally_threads].
    destruct (p t q), (p task pc), (p task pc'); lia.
Qed.

Lemma tally_threads_replicate p tasks n pc :
  (∀ task, p task pc = false) -> tally_threads p tasks (replicate n pc) = 0.
Proof.
  intros Hp. revert n. induction tasks as [|t tasks IH]; intros [|n]; cbn; try done.
  by rewrite Hp, IH.
Qed.

Lemma batch_step_eq tasks pcs w ev :
  batch_step rejected tasks (pcs, w) ev =
    match tasks !! ev_thread ev, pcs !! ev_thread ev with
    | Some task, Some pc =>
        (<[ev_thread ev := (thread_step rejected (ev_now ev) (ev_fault ev) task pc w).1]> pcs,
         (thread_step rejected (ev_now ev) (ev_fault ev) task pc w).2)
    | _, _ => (pcs, w)
    end.
Proof.
  unfold batch_step. cbn [fst snd].
  destruct (tasks !! ev_thread ev) as [task|]; [|done].
  destruct (pcs !! ev_thread ev) as [pc|]; [|done].
  by destruct (thread_step _ _ _ _ _ _).
Qed.

(** A property of the states of the tasks and of what the batch has added to
    the record, kept by every shape of step, holds however the event loop
    schedules the batch. *)
Lemma batch_invariant (Φ : list Pc -> list Effect -> Prop) tasks (tr0 : list Effect) :
  (∀ pcs new i task pc pc' delta,
     tasks !! i = Some task -> pcs !! i = Some pc -> step_kind task pc pc' delta ->
     Φ pcs new -> Φ (<[i := pc']> pcs) (delta ++ new)) ->
  ∀ schedule pcs w,
    (∃ new, trace w = new ++ tr0 ∧ Φ pcs new) ->
    ∃ new, trace (foldl (batch_step rejected tasks) (pcs, w) schedule).2 = new ++ tr0
           ∧ Φ (foldl (batch_step rejected tasks) (pcs, w) schedule).1 new.
Proof.
  intros Hstep. induction schedule as [|ev schedule IH]; intros pcs w Hinv; [done|].
  cbn [foldl]. rewrite batch_step_eq.
  destruct (tasks !! ev_thread ev) as [task|] eqn:Htask; [|by apply IH].
  destruct (pcs !! ev_thread ev) as [pc|] eqn:Hpc; [|by apply IH].
  apply IH. destruct Hinv as (new & Htr & HΦ).
  destruct (thread_step_kind rejected w (ev_now ev) (ev_fault ev) task pc)
    as (delta & Hdelta & Hkind).
  exists (delta ++ new). split; [by rewrite Hdelta, Htr, app_assoc|].
  by apply (Hstep pcs new _ task pc).
Qed.

Lemma processTaskBatch_invariant (Φ : list Pc -> list Effect -> Prop) tasks schedule w :
  (∀ pcs new i task pc pc' delta,
     tasks !! i = Some task -> pcs !! i = Some pc -> step_kind task pc pc' delta ->
     Φ pcs new -> Φ (<[i := pc']> pcs) (delta ++ new)) ->
  Φ (replicate (length tasks) Delayed) [Console LOG (PROCESS_TASK_BATCH (length tasks))] ->
  ∃ new, trace (processTaskBatch rejected tasks schedule w).2 = new ++ trace w
         ∧ Φ (processTaskBatch rejected tasks schedule w).1 new.
Proof.
  intros Hstep Hinit. unfold processTaskBatch, console_log, emit.
  apply (batch_invariant Φ tasks (trace w) Hstep). by eexists [_].
Qed.

(** C3. However a batch is scheduled, the task runner has been called for a
    task id exactly as often as a PENDING to TAKEN transition of that id was
    accepted, less the tasks that hold the lease and have not yet called it:
    no call without a lease won.  A task whose lease attempt returns [false]
    is settled by that very step, which is nothing but the failed
    transition: the runner is not called, its state is untouched and the
    other tasks of the batch stay where they are. *)
Theorem processTask_runs_only_leased tasks schedule w id :
  (∃ new,
     trace (processTaskBatch rejected tasks schedule w).2 = new ++ trace w
     ∧ tally_effects (is_runner_call id) new
       + tally_threads (is_leased id) tasks (processTaskBatch rejected tasks schedule w).1
       = tally_effects (is_transition_won id "PENDING") new)
  ∧ ∀ pcs w1 i task now fault,
      tasks !! i = Some task -> pcs !! i = Some Delayed ->
      (transitionTask rejected now fault task "PENDING" "TAKEN" w1).1 = Normal false ->
      let st := batch_step rejected tasks (pcs, w1)
                  {| ev_thread := i; ev_now := now; ev_fault := fault |} in
      st = (<[i := Settled]> pcs,
            (transitionTask rejected now fault task "PENDING" "TAKEN" w1).2)
      ∧ runner st.2 = runner w1
      ∧ ∃ delta, trace st.2 = delta ++ trace w1
                 ∧ tally_effects (is_runner_call id) delta = 0.
Proof.
  split.
  - apply (processTaskBatch_invariant
             (fun pcs new =>
                tally_effects (is_runner_call id) new
                + tally_threads (is_leased id) tasks pcs
                = tally_effects (is_transition_won id "PENDING") new)).
    + intros pcs new i task pc pc' delta Htask Hpc Hkind HΦ.
      pose proof (tally_threads_insert (is_leased id) tasks pcs i task pc pc' Htask Hpc)
        as Hins.
      rewrite !tally_effects_app.
      destruct Hkind as [now logs Hl|now logs Hl|logs Hl|s logs Hl|s logs Hl
                         |now s ok logs Hl| |e];
        rewrite ?tally_effects_app,
          ?(tally_effects_console (is_runner_call id) logs) by done;
        rewrite ?(tally_effects_console (is_transition_won id "PENDING") logs) by done;
        cbn in Hins |- *; repeat case_bool_decide;
        try match goal with ok : bool |- _ => destruct ok end;
        first [lia | exfalso; intuition congruence].
    + cbn [tally_effects is_runner_call is_transition_won].
      rewrite tally_threads_replicate by done. reflexivity.
  - intros pcs w1 i task now fault Htask Hpc Hfalse. cbv zeta.
    rewrite batch_step_eq. cbn [ev_thread ev_now ev_fault]. rewrite Htask, Hpc.
    rewrite thread_step_Delayed. cbn [fst snd].
    destruct (transitionTask_run rejected w1 now fault task "PENDING" "TAKEN")
      as (logs & Hlogs & Heq). cbv zeta in Heq. rewrite Heq in Hfalse |- *.
    cbn [fst snd] in Hfalse. injection Hfalse as ->. cbn [fst snd trace runner].
    split; [done|]. split; [done|].
    exists (logs ++ [Request (transition_request now (taskId task) "PENDING" "TAKEN") false]).
    split; [by rewrite <- app_assoc|].
    rewrite tally_effects_app, tally_effects_console by done. done.
Qed.

(** [processTask] once the lease is won. *)
Lemma processTask_leased w now1 now2 fault2 task :
  persisted_status (table w) (taskId task) = Some (AttrS "PENDING") ->
  processTask rejected now1 None now2 fault2 task w =
    let w1 := (transitionTask rejected now1 None task "PENDING" "TAKEN" w).2 in
    match taskRunner_await task w1 with
    | (Normal toState, w2) =>
        (Normal tt, (transitionTask rejected now2 fault2 task "TAKEN" toState w2).2)
    | (Throw err, w2) =>
        (Normal tt,
         (transitionTask rejected now2 fault2 task "TAKEN" "PENDING"
            (mkWorld (table w2)
               (Console ERROR (PROCESS_TASK_ERROR err (taskId task)) :: trace w2)
               (runner w2))).2)
    end.
Proof.
  intros Hst. unfold processTask, mbind, M_bind, try_catch.
  rewrite (transitionTask_served _ _ _ _ _ _ Hst). cbn [snd]. cbv zeta.
  destruct (taskRunner_await task _) as [[s|e] w2].
  - destruct (transitionTask_run rejected w2 now2 fault2 task "TAKEN" s)
      as (logs & _ & Heq). cbv zeta in Heq. by rewrite Heq.
  - unfold console_error, emit, mret, M_ret.
    destruct (transitionTask_run rejected
                (mkWorld (table w2)
                   (Console ERROR (PROCESS_TASK_ERROR e (taskId task)) :: trace w2)
                   (runner w2))
                now2 fault2 task "TAKEN" "PENDING")
      as (logs & _ & Heq). cbv zeta in Heq. by rewrite Heq.
Qed.

(** C7. When the task runner raises for a task that holds the lease, the
    exception stops at [processTask]: the event PROCESS_TASK_ERROR goes to
    [console.error], the state to write becomes PENDING, the request that
    concludes the task is the transition TAKEN to PENDING, and [processTask]
    itself returns normally.  This holds for [processTask] run in one piece
    and for each of its resumptions when the batch is interleaved, whether
    the promise of the runner was rejected at the call or later. *)
Theorem processTask_requeues_when_runner_raises task err :
  (∀ w now1 now2 fault2,
     persisted_status (table w) (taskId task) = Some (AttrS "PENDING") ->
     let w1 := (transitionTask rejected now1 None task "PENDING" "TAKEN" w).2 in
     (taskRunner_await task w1).1 = Throw err ->
     let r := processTask rejected now1 None now2 fault2 task w in
     r.1 = Normal tt
     ∧ ∃ logs ok,
         Forall is_console logs
         ∧ trace r.2 =
             logs ++ Request (transition_request now2 (taskId task) "TAKEN" "PENDING") ok
               :: Console ERROR (PROCESS_TASK_ERROR err (taskId task))
               :: trace (taskRunner_await task w1).2)
  ∧ (∀ w now fault rs logs,
       runner_call task (runner w) = (rs, logs, Some (Raises err)) ->
       thread_step rejected now fault task Leased w =
         (Concluding "PENDING",
          mkWorld (table w)
            (Console ERROR (PROCESS_TASK_ERROR err (taskId task))
               :: rev (Console LOG <$> logs) ++ RunnerCall task :: trace w) rs))
  ∧ (∀ w now fault rs logs,
       runner_resume task (runner w) = (rs, logs, Raises err) ->
       thread_step rejected now fault task Running w =
         (Concluding "PENDING",
          mkWorld (table w)
            (Console ERROR (PROCESS_TASK_ERROR err (taskId task))
               :: rev (Console LOG <$> logs) ++ trace w) rs))
  ∧ (∀ w now fault,
       ∃ logs ok,
         Forall is_console logs
         ∧ thread_step rejected now fault task (Concluding "PENDING") w =
             (Settled, (transitionTask rejected now fault task "TAKEN" "PENDING" w).2)
         ∧ trace (transitionTask rejected now fault task "TAKEN" "PENDING" w).2 =
             logs ++ Request (transition_request now (taskId task) "TAKEN" "PENDING") ok
               :: trace w).
Proof.
  split_and!.
  - intros w now1 now2 fault2 Hst. cbv zeta. intros Hraise.
    rewrite (processTask_leased _ _ _ _ _ Hst). cbv zeta.
    destruct (taskRunner_await task _) as [[s|e] w2];
      cbn [fst] in Hraise; [discriminate|]. injection Hraise as ->.
    destruct (transitionTask_run rejected
                (mkWorld (table w2)
                   (Console ERROR (PROCESS_TASK_ERROR err (taskId task)) :: trace w2)
                   (runner w2))
                now2 fault2 task "TAKEN" "PENDING")
      as (logs & Hlogs & Heq).
    cbv zeta in Heq. rewrite Heq. cbn [fst snd trace]. split; [done|].
    eexists logs, _. split; [done|reflexivity].
  - intros w now fault rs logs Hcall. rewrite thread_step_Leased, Hcall. done.
  - intros w now fault rs logs Hres. rewrite thread_step_Running, Hres. done.
  - intros w now fault.
    destruct (transitionTask_run rejected w now fault task "TAKEN" "PENDING")
      as (logs & Hlogs & Heq). cbv zeta in Heq.
    eexists logs, _. split; [done|]. rewrite thread_step_Concluding. split; [done|].
    rewrite Heq. reflexivity.
Qed.

Lemma step_kind_steps_left task pc pc' delta :
  step_kind task pc pc' delta -> steps_left pc' ≤ steps_left pc - 1.
Proof. destruct 1; cbn; lia. Qed.

Lemma batch_step_length tasks pcs w ev :
  length (batch_step rejected tasks (pcs, w) ev).1 = length pcs.
Proof.
  rewrite batch_step_eq.
  destruct (tasks !! ev_thread ev); [|done].
  destruct (pcs !! ev_thread ev); [|done].
  cbn [fst]. apply length_insert.
Qed.

(** Every resumption of a task brings it one step nearer to being settled,
    whatever happens to the other tasks of the batch. *)
Lemma batch_steps_left tasks schedule : ∀ pcs w i pc,
  length pcs = length tasks -> pcs !! i = Some pc ->
  ∃ pc', (foldl (batch_step rejected tasks) (pcs, w) schedule).1 !! i = Some pc'
         ∧ steps_left pc' ≤ steps_left pc
                            - length (filter (fun ev => ev_thread ev = i) schedule).
Proof.
  induction schedule as [|ev schedule IH]; intros pcs w i pc Hlen Hpc.
  - exists pc. cbn. split; [done|lia].
  - cbn [foldl].
    pose proof (batch_step_length tasks pcs w ev) as Hlen'.
    rewrite batch_step_eq in Hlen' |- *.
    rewrite filter_cons.
    destruct (tasks !! ev_thread ev) as [task|] eqn:Htask.
    2:{ destruct (decide (ev_thread ev = i)) as [Heq|Hne].
        - exfalso. apply lookup_lt_Some in Hpc. rewrite Hlen, <- Heq in Hpc.
          apply lookup_lt_is_Some in Hpc. rewrite Htask in Hpc. by destruct Hpc.
        - by apply IH. }
    destruct (pcs !! ev_thread ev) as [pcj|] eqn:Hpcj.
    2:{ destruct (decide (ev_thread ev = i)) as [Heq|Hne].
        - congruence.
        - by apply IH. }
    destruct (thread_step_kind rejected w (ev_now ev) (ev_fault ev) task pcj)
      as (delta & _ & Hkind).
    apply step_kind_steps_left in Hkind.
    set (pc1 := (thread_step rejected (ev_now ev) (ev_fault ev) task pcj w).1) in *.
    set (w1 := (thread_step rejected (ev_now ev) (ev_fault ev) task pcj w).2) in *.
    cbn [fst] in Hlen'.
    destruct (decide (ev_thread ev = i)) as [Heq|Hne].
    + rewrite Heq in *. assert (pcj = pc) as -> by congruence.
      destruct (IH (<[i := pc1]> pcs) w1 i pc1) as (pc' & Hpc' & Hle).
      * congruence.
      * apply list_lookup_insert_eq. by apply lookup_lt_Some in Hpc.
      * exists pc'. split; [done|]. cbn [length]. lia.
    + destruct (IH (<[ev_thread ev := pc1]> pcs) w1 i pc) as (pc' & Hpc' & Hle).
      * congruence.
      * by rewrite list_lookup_insert_ne.
      * by exists pc'.
Qed.

(** The part of a batch that does not depend on the schedule: no task is
    left unresolved, and a task that is no longer waiting for its timer has
    sent its lease request. *)
Lemma processTaskBatch_attempts tasks schedule w :
  ∃ new,
    trace (processTaskBatch rejected tasks schedule w).2 = new ++ trace w
    ∧ length (processTaskBatch rejected tasks schedule w).1 = length tasks
    ∧ (∀ i e, (processTaskBatch rejected tasks schedule w).1 !! i ≠ Some (Unresolved e))
    ∧ ∀ i task,
        tasks !! i = Some task ->
        (processTaskBatch rejected tasks schedule w).1 !! i ≠ Some Delayed ->
        ∃ now ok,
          Request (transition_request now (taskId task) "PENDING" "TAKEN") ok ∈ new.
Proof.
  apply (processTaskBatch_invariant
    (fun pcs new =>
       length pcs = length tasks
       ∧ (∀ i e, pcs !! i ≠ Some (Unresolved e))
       ∧ ∀ i task, tasks !! i = Some task -> pcs !! i ≠ Some Delayed ->
           ∃ now ok,
             Request (transition_request now (taskId task) "PENDING" "TAKEN") ok ∈ new)).
  - intros pcs new i task pc pc' delta Htask Hpc Hkind (Hlen & Hun & Hatt).
    assert (Hi : i < length pcs) by by apply lookup_lt_Some in Hpc.
    split_and!.
    + by rewrite length_insert.
    + intros j e Hj. destruct (decide (i = j)) as [<-|Hne].
      * rewrite list_lookup_insert_eq in Hj by done. injection Hj as ->.
        inversion Hkind; subst. by apply (Hun i e).
      * rewrite list_lookup_insert_ne in Hj by done. by apply (Hun j e).
    + intros j task' Htask' Hj. destruct (decide (i = j)) as [<-|Hne].
      * assert (task' = task) as -> by congruence.
        destruct (decide (pc = Delayed)) as [->|Hnd].
        -- inversion Hkind; subst; eexists _, _; apply elem_of_app; left;
             apply elem_of_app; right; by left.
        -- destruct (Hatt i task Htask) as (now & ok & Hin); [congruence|].
           exists now, ok. apply elem_of_app. by right.
      * rewrite list_lookup_insert_ne in Hj by done.
        destruct (Hatt j task' Htask' Hj) as (now & ok & Hin).
        exists now, ok. apply elem_of_app. by right.
  - split_and!.
    + apply length_replicate.
    + intros i e Hi. apply lookup_replicate in Hi as [? _]. done.
    + intros i task Htask Hi. exfalso. apply Hi. apply lookup_replicate.
      split; [done|]. by apply lookup_lt_Some in Htask.
Qed.

(** A property of the states of the tasks and of the world kept by every
    resumption holds however the event loop schedules the batch. *)
Lemma batch_world_invariant (Inv : list Pc -> World RS -> Prop) tasks :
  (∀ pcs w i task pc now fault,
     tasks !! i = Some task -> pcs !! i = Some pc -> Inv pcs w ->
     Inv (<[i := (thread_step rejected now fault task pc w).1]> pcs)
         (thread_step rejected now fault task pc w).2) ->
  ∀ schedule pcs w,
    Inv pcs w ->
    Inv (foldl (batch_step rejected tasks) (pcs, w) schedule).1
        (foldl (batch_step rejected tasks) (pcs, w) schedule).2.
Proof.
  intros Hstep. induction schedule as [|ev schedule IH]; intros pcs w Hinv; [done|].
  cbn [foldl]. rewrite batch_step_eq.
  destruct (tasks !! ev_thread ev) as [task|] eqn:Htask; [|by apply IH].
  destruct (pcs !! ev_thread ev) as [pc|] eqn:Hpc; [|by apply IH].
  apply IH. by apply Hstep.
Qed.

Lemma is_transition_to_request to' now id from to ok :
  is_transition_to to' (Request (transition_request now id from to) ok)
  = bool_decide (to = to').
Proof.
  unfold is_transition_to, transition_request. cbn [upd_Set].
  destruct (decide (to = to')) as [->|Hne].
  - rewrite !bool_decide_eq_true_2; [done..|by left].
  - rewrite !bool_decide_eq_false_2; [done..|].
    intros Hin. apply list_elem_of_In in Hin. cbn in Hin.
    destruct Hin as [Heq|[Heq|[]]]; congruence.
Qed.

End Batch.

Section WorkerLoop.

Context {RS : Type} (rejected : JsError) `{!TaskRunner RS} (TRIGGER_TOPIC_ARN : string).
Implicit Types (w : World RS) (task : Task) (pc : Pc) (pcs : list Pc).

(** A batch selection never raises and leaves the table alone. *)
Lemma getPendingTaskBatch_total w fault :
  ∃ ts logs ok,
    Forall is_console logs
    ∧ getPendingTaskBatch fault w =
        (Normal ts,
         mkWorld (table w)
           (logs ++ Request (QueryCommand pendingQuery) ok :: trace w) (runner w)).
Proof.
  destruct fault as [err|].
  - exists [], [Console ERROR (GET_PENDING_TASK_BATCH_ERROR err)], false.
    split; [by repeat constructor|]. reflexivity.
  - rewrite getPendingTaskBatch_served. cbv zeta.
    destruct (mapM toTask _) as [ts|].
    + eexists ts, [_], true. split; [|reflexivity]. by repeat constructor.
    + eexists [], [_; _], true. split; [|reflexivity]. by repeat constructor.
Qed.

Lemma callFunction_run w fault topicArn :
  ∃ log,
    CallFunction.callFunction fault topicArn w =
      (Normal tt,
       mkWorld (table w)
         (Console log.1 log.2
            :: Request (PublishCommand topicArn "Start") (bool_decide (fault = None))
            :: trace w)
         (runner w)).
Proof.
  unfold CallFunction.callFunction. unfold_monad. destruct fault as [err|].
  - by exists (ERROR, CALL_FUNCTION_ERROR err).
  - by exists (LOG, CALL_FUNCTION topicArn).
Qed.

Lemma processTaskBatch_no_publish tasks schedule w :
  ∃ new, trace (processTaskBatch rejected tasks schedule w).2 = new ++ trace w
         ∧ tally_effects is_publish new = 0.
Proof.
  destruct (processTaskBatch_invariant rejected
              (fun _ new => tally_effects is_publish new = 0) tasks schedule w)
    as (new & Htr & Hnew); [| done |by exists new].
  intros pcs new i task pc pc' delta _ _ Hkind Hnew.
  rewrite tally_effects_app, Hnew.
  destruct Hkind; rewrite ?tally_effects_app, ?tally_effects_console by done; done.
Qed.

(** One round of the worker loop that goes on to process a batch. *)
Lemma processTasks_continue start rd rest w ts w1 :
  getPendingTaskBatch (rd_queryFault rd) w = (Normal ts, w1) ->
  ts ≠ [] ->
  (Z.abs (start - rd_now rd) < maxActiveTime CONFIG)%Z ->
  processTasks rejected TRIGGER_TOPIC_ARN start (rd :: rest) w =
    if allSettled (processTaskBatch rejected ts (rd_schedule rd) w1).1
    then processTasks rejected TRIGGER_TOPIC_ARN start rest
           (processTaskBatch rejected ts (rd_schedule rd) w1).2
    else (Waiting, (processTaskBatch rejected ts (rd_schedule rd) w1).2).
Proof.
  intros Hget Hne Hlt. cbn [processTasks]. rewrite Hget.
  rewrite (bool_decide_eq_true_2 (0 < length ts))
    by (destruct ts; [done|cbn; lia]).
  rewrite (bool_decide_eq_false_2 (Z.abs (start - rd_now rd) >= _)%Z) by lia.
  cbn [andb negb].
  by destruct (processTaskBatch rejected ts (rd_schedule rd) w1).
Qed.

(** [Promise.allSettled] is resolved exactly when every task of the batch
    is settled. *)
Lemma allSettled_Forall pcs :
  allSettled pcs = true <-> Forall (fun pc => pc = Settled) pcs.
Proof.
  unfold allSettled. induction pcs as [|pc pcs IH]; cbn [forallb].
  - split; [constructor|done].
  - rewrite andb_true_iff, Forall_cons, IH.
    destruct pc; cbn; intuition congruence.
Qed.

Lemma allSettled_unsettled pcs i pc :
  pcs !! i = Some pc -> pc ≠ Settled -> allSettled pcs = false.
Proof.
  intros Hi Hpc. apply not_true_is_false. intros HF%allSettled_Forall.
  rewrite Forall_lookup in HF. by specialize (HF i pc Hi).
Qed.

(** C8. In a batch every task has its own promise: a task whose timer has
    fired has sent its lease request, whatever became of the other tasks
    (lease lost, request failed, runner raised); no task is left with an
    unhandled rejection; a task that was resumed four times is settled, so
    a schedule that resumes every task four times settles the batch.  The
    loop goes to its next round from a batch in which every task is
    settled, and only from such a batch: while one task of the batch is not
    settled the activation waits where the batch left it, without another
    query, hand-off or [resolve()]. *)
Theorem processTaskBatch_attempts_every_task tasks schedule w :
  let r := processTaskBatch rejected tasks schedule w in
  let resumed i := length (filter (fun ev => ev_thread ev = i) schedule) in
  length r.1 = length tasks
  ∧ (∀ i e, r.1 !! i ≠ Some (Unresolved e))
  ∧ (∃ new, trace r.2 = new ++ trace w
       ∧ ∀ i task, tasks !! i = Some task -> 1 ≤ resumed i ->
           ∃ now ok,
             Request (transition_request now (taskId task) "PENDING" "TAKEN") ok ∈ new)
  ∧ (∀ i, i < length tasks -> 4 ≤ resumed i -> r.1 !! i = Some Settled)
  ∧ ((∀ i, i < length tasks -> 4 ≤ resumed i) -> Forall (fun pc => pc = Settled) r.1)
  ∧ ∀ start rd rest w0,
      getPendingTaskBatch (rd_queryFault rd) w0 = (Normal tasks, w) ->
      tasks ≠ [] ->
      (Z.abs (start - rd_now rd) < maxActiveTime CONFIG)%Z ->
      schedule = rd_schedule rd ->
      (Forall (fun pc => pc = Settled) r.1 ->
       processTasks rejected TRIGGER_TOPIC_ARN start (rd :: rest) w0
       = processTasks rejected TRIGGER_TOPIC_ARN start rest r.2)
      ∧ ((∃ i pc, r.1 !! i = Some pc ∧ pc ≠ Settled) ->
         processTasks rejected TRIGGER_TOPIC_ARN start (rd :: rest) w0 = (Waiting, r.2)).
Proof.
  cbv zeta.
  destruct (processTaskBatch_attempts rejected tasks schedule w)
    as (new & Htr & Hlen & Hun & Hatt).
  assert (Hleft : ∀ i, i < length tasks ->
    ∃ pc', (processTaskBatch rejected tasks schedule w).1 !! i = Some pc'
           ∧ steps_left pc' ≤ 4 - length (filter (fun ev => ev_thread ev = i) schedule)).
  { intros i Hi. unfold processTaskBatch, console_log, emit.
    apply (batch_steps_left rejected tasks schedule _ _ i Delayed).
    - apply length_replicate.
    - by apply lookup_replicate. }
  assert (Hsettled : ∀ i, i < length tasks ->
    4 ≤ length (filter (fun ev => ev_thread ev = i) schedule) ->
    (processTaskBatch rejected tasks schedule w).1 !! i = Some Settled).
  { intros i Hi H4. destruct (Hleft i Hi) as (pc' & Hpc' & Hle). rewrite Hpc'.
    destruct pc' as [| | |s| |e]; cbn in Hle; try lia; [done|].
    by destruct (Hun i e). }
  split_and!; [done|done| |done| |].
  - exists new. split; [done|]. intros i task Htask Hres.
    apply (Hatt i task Htask). intros Hdel.
    destruct (Hleft i) as (pc' & Hpc' & Hle); [by apply lookup_lt_Some in Htask|].
    assert (pc' = Delayed) as -> by congruence. cbn in Hle. lia.
  - intros Hall. apply Forall_forall. intros pc Hpc.
    apply list_elem_of_lookup in Hpc as [i Hi].
    assert (i < length tasks) as Hlt by (rewrite <- Hlen; by apply lookup_lt_Some in Hi).
    rewrite (Hsettled i Hlt (Hall i Hlt)) in Hi. by injection Hi as <-.
  - intros start rd rest w0 Hget Hne Hlt ->.
    rewrite (processTasks_continue start rd rest w0 tasks w Hget Hne Hlt). split.
    + intros HF. by rewrite (proj2 (allSettled_Forall _) HF).
    + intros (i & pc & Hi & Hpc).
      rewrite (allSettled_unsettled _ i pc Hi Hpc). done.
Qed.

(** The round in which the worker loop reaches [resolve()]. *)
Lemma processTasks_exit_round start rd rest w :
  let activeTime := Z.abs (start - rd_now rd) in
  let reachedTimeLimit := bool_decide (activeTime >= maxActiveTime CONFIG)%Z in
  ∀ ts w1,
    getPendingTaskBatch (rd_queryFault rd) w = (Normal ts, w1) ->
    bool_decide (0 < length ts) && negb reachedTimeLimit = false ->
    ∃ new,
      processTasks rejected TRIGGER_TOPIC_ARN start (rd :: rest) w =
        (Exited (bool_decide (0 < length ts)) reachedTimeLimit,
         mkWorld (table w1) (new ++ trace w1) (runner w1))
      ∧ tally_effects is_publish new = (if bool_decide (0 < length ts) then 1 else 0)
      ∧ (bool_decide (0 < length ts) = true ->
           ∃ ok, Request (PublishCommand TRIGGER_TOPIC_ARN "Start") ok ∈ new).
Proof.
  cbv zeta. intros ts w1 Hget Hexit. cbn [processTasks]. rewrite Hget, Hexit.
  destruct (bool_decide (0 < length ts)).
  - unfold mbind, M_bind, console_log, emit.
    destruct (callFunction_run
                (mkWorld (table w1)
                   (Console LOG
                      (TAIL_CALL_TRIGGER start (Z.abs (start - rd_now rd)) true
                         (bool_decide (Z.abs (start - rd_now rd) >= maxActiveTime CONFIG)%Z))
                      :: trace w1) (runner w1))
                (rd_publishFault rd) TRIGGER_TOPIC_ARN) as (log & Hcall).
    rewrite Hcall. cbn [snd table trace runner].
    eexists [_; _; _]. split; [reflexivity|]. split; [done|].
    intros _. eexists. apply elem_of_cons. right. by left.
  - exists []. destruct w1. done.
Qed.

Lemma processTasks_publishes start rounds : ∀ w,
  ∃ new,
    trace (processTasks rejected TRIGGER_TOPIC_ARN start rounds w).2 = new ++ trace w
    ∧ match (processTasks rejected TRIGGER_TOPIC_ARN start rounds w).1 with
      | Exited hasTasks reachedTimeLimit =>
          tally_effects is_publish new = (if hasTasks && reachedTimeLimit then 1 else 0)
          ∧ implb hasTasks reachedTimeLimit = true
          ∧ (if hasTasks
             then ∃ ok, Request (PublishCommand TRIGGER_TOPIC_ARN "Start") ok ∈ new
             else True)
          ∧ ∃ before rd after w0 ts,
              rounds = before ++ rd :: after
              ∧ processTasks rejected TRIGGER_TOPIC_ARN start before w = (Waiting, w0)
              ∧ (getPendingTaskBatch (rd_queryFault rd) w0).1 = Normal ts
              ∧ hasTasks = bool_decide (0 < length ts)
              ∧ reachedTimeLimit
                = bool_decide (Z.abs (start - rd_now rd) >= maxActiveTime CONFIG)%Z
      | Waiting => tally_effects is_publish new = 0
      end.
Proof.
  induction rounds as [|rd rest IH]; intros w.
  - by exists [].
  - destruct (getPendingTaskBatch_total w (rd_queryFault rd))
      as (ts & logs & ok & Hlogs & Hget).
    set (w1 := mkWorld _ _ _) in Hget.
    assert (Hq : tally_effects is_publish logs = 0)
      by by apply tally_effects_console.
    destruct (bool_decide (0 < length ts)
              && negb (bool_decide (Z.abs (start - rd_now rd) >= maxActiveTime CONFIG)%Z))
      eqn:Hgo.
    + apply andb_prop in Hgo as [Hts Hnot].
      apply bool_decide_eq_true in Hts. apply negb_true_iff, bool_decide_eq_false in Hnot.
      rewrite (processTasks_continue start rd rest w ts w1 Hget);
        [|by destruct ts; [cbn in Hts; lia|]|lia].
      destruct (processTaskBatch_no_publish ts (rd_schedule rd) w1)
        as (newb & Htrb & Hnob).
      destruct (allSettled _) eqn:Hall.
      2:{ exists (newb ++ logs ++ [Request (QueryCommand pendingQuery) ok]).
          cbn [fst snd]. rewrite Htrb. subst w1. cbn [trace].
          split; [by rewrite <- !app_assoc|].
          rewrite !tally_effects_app, Hnob, Hq. done. }
      destruct (IH (processTaskBatch rejected ts (rd_schedule rd) w1).2)
        as (new & Htr & Hcase).
      exists (new ++ newb ++ logs ++ [Request (QueryCommand pendingQuery) ok]).
      split.
      { rewrite Htr, Htrb. subst w1. cbn [trace]. by rewrite <- !app_assoc. }
      destruct (processTasks rejected TRIGGER_TOPIC_ARN start rest _).1
        as [hasTasks reached|] eqn:Hres.
      * destruct Hcase as (Hcount & Himpl & Hsent & before & rd' & after & w0 & ts'
                           & Hrounds & Hbefore & Hget' & HhasTasks & Hreached).
        split_and!.
        -- rewrite !tally_effects_app, Hnob, Hq, Hcount. cbn. lia.
        -- done.
        -- destruct hasTasks; [|done]. destruct Hsent as [ok' Hin].
           exists ok'. apply elem_of_app. by left.
        -- exists (rd :: before), rd', after, w0, ts'.
           split; [by rewrite Hrounds|]. split; [|done].
           rewrite (processTasks_continue start rd before w ts w1 Hget);
             [|by destruct ts; [cbn in Hts; lia|]|lia].
           rewrite Hall. exact Hbefore.
      * rewrite !tally_effects_app, Hnob, Hq, Hcase. done.
    + destruct (processTasks_exit_round start rd rest w ts w1 Hget Hgo)
        as (new & Heq & Hcount & Hsent).
      rewrite Heq. cbn [fst snd trace].
      exists (new ++ logs ++ [Request (QueryCommand pendingQuery) ok]).
      split; [subst w1; cbn [trace]; by rewrite <- !app_assoc|].
      split_and!.
      * rewrite !tally_effects_app, Hq, Hcount.
        destruct (bool_decide (0 < length ts)), (bool_decide (_ >= _)%Z);
          cbn in Hgo |- *; done.
      * destruct (bool_decide (0 < length ts)), (bool_decide (_ >= _)%Z);
          cbn in Hgo |- *; done.
      * destruct (bool_decide (0 < length ts)); [|done].
        destruct (Hsent eq_refl) as [ok' Hin]. exists ok'. apply elem_of_app. by left.
      * exists [], rd, rest, w, ts. rewrite Hget. done.
Qed.

(** C6, as the code has it.  An activation hands off exactly when it exits
    on a round that found a non-empty batch with the active time at or past
    [maxActiveTime] (the guard is [>=]), and
    then it sends exactly one message to the trigger topic.  An activation
    that exits on an empty batch, and one that is still waiting, has sent
    none.  A round whose clock has reached the limit exits, and so does a
    round that finds an empty batch. *)
Theorem processTasks_hands_off_once start rounds w :
  let r := processTasks rejected TRIGGER_TOPIC_ARN start rounds w in
  (∃ new,
     trace r.2 = new ++ trace w
     ∧ match r.1 with
       | Exited hasTasks reachedTimeLimit =>
           tally_effects is_publish new = (if hasTasks && reachedTimeLimit then 1 else 0)
           ∧ implb hasTasks reachedTimeLimit = true
           ∧ (if hasTasks
              then ∃ ok, Request (PublishCommand TRIGGER_TOPIC_ARN "Start") ok ∈ new
              else True)
           ∧ ∃ before rd after w0 ts,
               rounds = before ++ rd :: after
               ∧ processTasks rejected TRIGGER_TOPIC_ARN start before w = (Waiting, w0)
               ∧ (getPendingTaskBatch (rd_queryFault rd) w0).1 = Normal ts
               ∧ hasTasks = bool_decide (0 < length ts)
               ∧ reachedTimeLimit
                 = bool_decide (Z.abs (start - rd_now rd) >= maxActiveTime CONFIG)%Z
       | Waiting => tally_effects is_publish new = 0
       end)
  ∧ (∀ rd rest, rounds = rd :: rest ->
       (Z.abs (start - rd_now rd) >= maxActiveTime CONFIG)%Z ->
       ∃ hasTasks, r.1 = Exited hasTasks true)
  ∧ (∀ rd rest, rounds = rd :: rest ->
       (getPendingTaskBatch (rd_queryFault rd) w).1 = Normal [] ->
       ∃ reachedTimeLimit, r.1 = Exited false reachedTimeLimit).
Proof.
  cbv zeta. split; [apply processTasks_publishes|]. split.
  - intros rd rest -> Hreached.
    destruct (getPendingTaskBatch_total w (rd_queryFault rd))
      as (ts & logs & ok & _ & Hget).
    destruct (processTasks_exit_round start rd rest w ts _ Hget) as (new & Heq & _).
    { rewrite (bool_decide_eq_true_2 (_ >= _)%Z) by done. apply andb_false_r. }
    rewrite Heq. cbn [fst]. rewrite (bool_decide_eq_true_2 (_ >= _)%Z) by done.
    by eexists.
  - intros rd rest -> Hempty.
    destruct (getPendingTaskBatch_total w (rd_queryFault rd))
      as (ts & logs & ok & _ & Hget).
    rewrite Hget in Hempty. cbn [fst] in Hempty. injection Hempty as ->.
    destruct (processTasks_exit_round start rd rest w [] _ Hget) as (new & Heq & _);
      [done|].
    rewrite Heq. by eexists.
Qed.

End WorkerLoop.

Section DemonstrationRunner.

Import FakeTaskRunner.

Context (rejected : JsError) (TRIGGER_TOPIC_ARN : string).
Implicit Types (w : World Z) (task : Task) (pc : Pc) (pcs : list Pc).

Lemma transitionTask_to_not_failure w now fault task from to :
  to ≠ "FAILURE" ->
  runner (transitionTask rejected now fault task from to w).2 = runner w
  ∧ tally_effects (is_transition_to "FAILURE")
      (trace (transitionTask rejected now fault task from to w).2)
    = tally_effects (is_transition_to "FAILURE") (trace w).
Proof.
  intros Hto.
  destruct (transitionTask_run rejected w now fault task from to) as (logs & Hlogs & Heq).
  cbv zeta in Heq. rewrite Heq. cbn [snd runner trace]. split; [done|].
  rewrite tally_effects_app, tally_effects_console by done.
  cbn [tally_effects]. rewrite is_transition_to_request.
  by rewrite bool_decide_eq_false_2.
Qed.

Lemma tally_effects_logs p (logs : list LogEvent) :
  (∀ lvl e, p (Console lvl e) = false) ->
  tally_effects p (rev (Console LOG <$> logs)) = 0.
Proof. intros Hp. apply tally_effects_console; [done|apply Forall_is_console_logs]. Qed.

Lemma fake_invariant_step failures (tasks : list Task) pcs w i task pc now fault :
  tasks !! i = Some task -> pcs !! i = Some pc -> fake_invariant failures pcs w ->
  fake_invariant failures
    (<[i := (thread_step rejected now fault task pc w).1]> pcs)
    (thread_step rejected now fault task pc w).2.
Proof.
  intros _ Hpc (Hcount & Hpcs & Hfail).
  assert (Hok : fake_toState pc).
  { apply (proj1 (Forall_forall _ _) Hpcs). by apply list_elem_of_lookup_2 in Hpc. }
  unfold fake_invariant.
  destruct pc as [| | |toState| |e].
  - rewrite thread_step_Delayed. cbn [fst snd].
    destruct (transitionTask_to_not_failure w now fault task "PENDING" "TAKEN")
      as [-> ->]; [done|].
    split_and!; [done| |done]. apply Forall_insert; [done|]. by destruct (bool_decide _).
  - rewrite thread_step_Leased.
    change (runner_call task (runner w)) with (fakeTaskRunner task (runner w)).
    unfold fakeTaskRunner. case_bool_decide as Hfull; cbn [fst snd runner trace runner_outcome_step].
    + split_and!; [done|apply Forall_insert; [done|by left]|].
      rewrite tally_effects_app, tally_effects_logs by done. done.
    + split_and!; [lia|by apply Forall_insert|].
      rewrite tally_effects_app, tally_effects_logs by done. done.
  - rewrite thread_step_Running.
    change (runner_resume task (runner w)) with (fakeTaskRunner_timeout task (runner w)).
    unfold fakeTaskRunner_timeout. cbn [fst snd runner trace runner_outcome_step].
    split_and!; [lia|apply Forall_insert; [done|by right]|].
    rewrite tally_effects_app, tally_effects_logs by done. done.
  - rewrite thread_step_Concluding. cbn [fst snd].
    destruct (transitionTask_to_not_failure w now fault task "TAKEN" toState)
      as [-> ->].
    { cbn in Hok. by destruct Hok as [-> | ->]. }
    split_and!; [done| |done]. by apply Forall_insert.
  - cbn. split_and!; [done| |done]. by apply Forall_insert.
  - cbn. split_and!; [done| |done]. by apply Forall_insert.
Qed.

Lemma fake_processTaskBatch tasks schedule w :
  (runner w <= fakeMaxActiveTasks CONFIG)%Z ->
  (runner (processTaskBatch rejected tasks schedule w).2 <= fakeMaxActiveTasks CONFIG)%Z
  ∧ tally_effects (is_transition_to "FAILURE")
      (trace (processTaskBatch rejected tasks schedule w).2)
    = tally_effects (is_transition_to "FAILURE") (trace w).
Proof.
  intros Hcount. unfold processTaskBatch, console_log, emit.
  destruct (batch_world_invariant rejected
              (fake_invariant (tally_effects (is_transition_to "FAILURE") (trace w)))
              tasks (fake_invariant_step _ tasks) schedule
              (replicate (length tasks) Delayed)
              (mkWorld (table w)
                 (Console LOG (PROCESS_TASK_BATCH (length tasks)) :: trace w) (runner w)))
    as (H1 & _ & H3); [|done].
  split_and!; [done| |done]. by apply Forall_replicate.
Qed.

Lemma fake_processTasks start rounds : ∀ w,
  (runner w <= fakeMaxActiveTasks CONFIG)%Z ->
  (runner (processTasks rejected TRIGGER_TOPIC_ARN start rounds w).2
   <= fakeMaxActiveTasks CONFIG)%Z
  ∧ tally_effects (is_transition_to "FAILURE")
      (trace (processTasks rejected TRIGGER_TOPIC_ARN start rounds w).2)
    = tally_effects (is_transition_to "FAILURE") (trace w).
Proof.
  induction rounds as [|rd rest IH]; intros w Hcount; [done|].
  destruct (getPendingTaskBatch_total w (rd_queryFault rd))
    as (ts & logs & ok & Hlogs & Hget).
  set (w1 := mkWorld _ _ _) in Hget.
  assert (Hw1 : (runner w1 <= fakeMaxActiveTasks CONFIG)%Z
                ∧ tally_effects (is_transition_to "FAILURE") (trace w1)
                  = tally_effects (is_transition_to "FAILURE") (trace w)).
  { subst w1. cbn [runner trace]. split; [done|].
    rewrite tally_effects_app, tally_effects_console by done. done. }
  destruct Hw1 as [Hcount1 Hfail1].
  cbn [processTasks]. rewrite Hget.
  destruct (bool_decide (0 < length ts)) eqn:Hts; cbn [andb].
  - destruct (negb _).
    + destruct (fake_processTaskBatch ts (rd_schedule rd) w1 Hcount1) as [Hc2 Hf2].
      destruct (processTaskBatch rejected ts (rd_schedule rd) w1) as [pcs w2].
      cbn [snd] in Hc2, Hf2. destruct (allSettled pcs).
      * destruct (IH w2 Hc2) as [Hc3 Hf3]. split; [done|]. congruence.
      * cbn [snd]. split; [done|]. congruence.
    + cbn [snd]. unfold mbind, M_bind, console_log, emit.
      destruct (callFunction_run
                  (mkWorld (table w1)
                     (Console LOG
                        (TAIL_CALL_TRIGGER start (Z.abs (start - rd_now rd)) true
                           (bool_decide
                              (Z.abs (start - rd_now rd) >= maxActiveTime ProcessTasks.CONFIG)%Z))
                        :: trace w1) (runner w1))
                  (rd_publishFault rd) TRIGGER_TOPIC_ARN) as (log & Hcall).
      rewrite Hcall. cbn [snd runner trace tally_effects is_transition_to]. done.
  - cbn [snd]. done.
Qed.

(** C10. The fake task runner answers PENDING at once when the count of
    active tasks is at least [fakeMaxActiveTasks] as it is entered, and
    otherwise takes a slot and later answers SUCCESS; it never answers
    FAILURE and never raises.  With it, however batches are scheduled, the
    count of active tasks stays at most [fakeMaxActiveTasks] and no request
    for a transition to FAILURE is ever sent, in a batch or in a whole
    activation of the worker loop. *)
Theorem fakeTaskRunner_pending_or_success :
  (∀ task c,
     fakeTaskRunner task c =
       (if bool_decide (c >= 3)%Z
        then (c, [TASK_RUN_SKIP task c 3], Some (Returns "PENDING"))
        else ((c + 1)%Z, [TASK_RUN_START task c 3], None))
     ∧ fakeTaskRunner_timeout task c =
         ((c - 1)%Z, [TASK_RUN_COMPLETE task c 3], Returns "SUCCESS"))
  ∧ (∀ task w,
       (taskRunner_await task w).1
       = Normal (if bool_decide (runner w >= 3)%Z then "PENDING" else "SUCCESS")
       ∧ (taskRunner_await task w).1 ≠ Normal "FAILURE"
       ∧ runner (taskRunner_await task w).2 = runner w)
  ∧ (∀ tasks schedule w,
       (runner w <= 3)%Z ->
       let r := processTaskBatch rejected tasks schedule w in
       (runner r.2 <= 3)%Z
       ∧ ∃ new, trace r.2 = new ++ trace w
                ∧ tally_effects (is_transition_to "FAILURE") new = 0)
  ∧ (∀ start rounds w,
       (runner w <= 3)%Z ->
       let r := processTasks rejected TRIGGER_TOPIC_ARN start rounds w in
       (runner r.2 <= 3)%Z
       ∧ ∃ new, trace r.2 = new ++ trace w
                ∧ tally_effects (is_transition_to "FAILURE") new = 0).
Proof.
  split_and!.
  - intros task c. split; reflexivity.
  - intros task w. unfold taskRunner_await.
    change (runner_call task (runner w)) with (fakeTaskRunner task (runner w)).
    unfold fakeTaskRunner. change (fakeMaxActiveTasks CONFIG) with 3%Z.
    case_bool_decide; cbn [fst snd runner].
    + done.
    + change (runner_resume task (runner w + 1)%Z)
        with (fakeTaskRunner_timeout task (runner w + 1)%Z).
      unfold fakeTaskRunner_timeout. cbn [fst snd runner]. split_and!; [done..|lia].
  - intros tasks schedule w Hcount. cbv zeta.
    destruct (fake_processTaskBatch tasks schedule w Hcount) as [Hc Hf].
    split; [done|].
    destruct (processTaskBatch_no_publish rejected tasks schedule w) as (new & Htr & _).
    exists new. split; [done|]. rewrite Htr, tally_effects_app in Hf. lia.
  - intros start rounds w Hcount. cbv zeta.
    destruct (fake_processTasks start rounds w Hcount) as [Hc Hf].
    split; [done|].
    destruct (processTasks_publishes rejected TRIGGER_TOPIC_ARN start rounds w)
      as (new & Htr & _).
    exists new. split; [done|]. rewrite Htr, tally_effects_app in Hf. lia.
Qed.

End DemonstrationRunner.

(** * Scenarios *)

Lemma well_formed_sample_table : well_formed sample_table.
Proof. unfold well_formed. refine (bool_decide_unpack _ _). vm_compute. exact I. Defined.

Lemma well_formed_pending_table : well_formed pending_table.
Proof. unfold well_formed. refine (bool_decide_unpack _ _). vm_compute. exact I. Defined.

(** A completed task is not leased again. *)
Lemma transitionTask_conditional_witness :
  "SUCCESS" ∈ ["SUCCESS"; "FAILURE"]
  ∧ "PENDING" ∈ ["PENDING"; "TAKEN"]
  ∧ persisted_status (table sample_world) "t1" = Some (AttrS "SUCCESS")
  ∧ (transitionTask conditionalCheckFailed 100 None (task_of "t1" "PENDING" 5 9)
       "PENDING" "TAKEN" sample_world).1 = Normal false
  ∧ table (transitionTask conditionalCheckFailed 100 None (task_of "t1" "PENDING" 5 9)
             "PENDING" "TAKEN" sample_world).2 = table sample_world.
Proof.
  assert (H1 : "SUCCESS" ∈ ["SUCCESS"; "FAILURE"]) by (by left).
  assert (H2 : "PENDING" ∈ ["PENDING"; "TAKEN"]) by (by left).
  assert (H3 : persisted_status (table sample_world) "t1" = Some (AttrS "SUCCESS"))
    by (vm_compute; reflexivity).
  split_and!; [done..| |];
    apply (proj2 (proj2 (proj2
             (transitionTask_conditional conditionalCheckFailed sample_world 100 None
                (task_of "t1" "PENDING" 5 9) "PENDING" "TAKEN")))
             "SUCCESS" "PENDING" H1 H2 H3).
Defined.

(** C9, where the code misses it.  The lease of the completed task [t1] is
    a transition that fails on its condition, and the client raises
    [ConditionalCheckFailedException], an exception without a [code].  The
    transition returns [false] and raises nothing, as it should; but the
    test of [err.code] does not recognise the exception, and the expected
    failure is written to [console.error] as TRANSITION_TASK_ERROR.  Had the
    exception the [code] the test looks for, nothing would be written
    there. *)
Theorem transitionTask_writes_contention_as_error :
  let lease rejected :=
    transitionTask rejected 100 None (task_of "t1" "PENDING" 5 9) "PENDING" "TAKEN"
      sample_world in
  persisted_status (table sample_world) "t1" = Some (AttrS "SUCCESS")
  ∧ err_code conditionalCheckFailed = None
  ∧ (lease conditionalCheckFailed).1 = Normal false
  ∧ table (lease conditionalCheckFailed).2 = table sample_world
  ∧ errors_in (trace (lease conditionalCheckFailed).2)
    = [TRANSITION_TASK_ERROR conditionalCheckFailed "t1"]
  ∧ errors_in (trace (lease conditionalCheckFailedWithCode).2) = [].
Proof. cbv zeta. split_and!; vm_compute; reflexivity. Qed.

(** Inserting a fresh id next to the sample tasks leaves them alone. *)
Lemma createTask_puts_witness :
  "t3" ≠ "t9"
  ∧ table (CreateTasks.createTask 100 None "t9" sample_world).2 !! "t3"
    = table sample_world !! "t3".
Proof.
  assert (H1 : "t3" ≠ "t9") by discriminate.
  split; [done|].
  exact (proj2 (proj2 (createTask_puts sample_world 100 None "t9")) "t3" H1).
Defined.

(** The batch of the table with two PENDING tasks. *)
Lemma getPendingTaskBatch_newest_first_witness :
  well_formed (table pending_world)
  ∧ NoDup (range_key <$> pending_items (table pending_world))
  ∧ ∃ ts, (getPendingTaskBatch None pending_world).1 = Normal ts
          ∧ StronglySorted (fun a b => (taskCreated b < taskCreated a)%Z) ts.
Proof.
  assert (H2 : NoDup (range_key <$> pending_items (table pending_world)))
    by (refine (bool_decide_unpack _ _); vm_compute; exact I).
  split_and!; [exact well_formed_pending_table|exact H2|].
  destruct (getPendingTaskBatch_newest_first pending_world well_formed_pending_table H2)
    as (ts & Hres & _ & _ & _ & Hsorted & _).
  by exists ts.
Defined.

(** Requeued at time 100, [t2] keeps its creation time 7 and comes after
    [t3], created at 8. *)
Lemma transitionTask_keeps_priority_witness :
  well_formed (table sample_world)
  ∧ (getPendingTaskBatch None
       (transitionTask conditionalCheckFailed 100 None (task_of "t2" "PENDING" 7 7)
          "TAKEN" "PENDING" sample_world).2).1
    = Normal ([task_of "t3" "PENDING" 8 8] ++ task_of "t2" "PENDING" 7 100 :: [])
  ∧ ∃ it, table sample_world !! "t2" = Some it
          ∧ it !! "taskCreated" = Some (AttrN 7).
Proof.
  assert (H2 : (getPendingTaskBatch None
       (transitionTask conditionalCheckFailed 100 None (task_of "t2" "PENDING" 7 7)
          "TAKEN" "PENDING" sample_world).2).1
    = Normal ([task_of "t3" "PENDING" 8 8] ++ task_of "t2" "PENDING" 7 100 :: []))
    by (vm_compute; reflexivity).
  split_and!; [exact well_formed_sample_table|exact H2|].
  exact (proj1 (proj2 (proj2 (proj2
           (transitionTask_keeps_priority conditionalCheckFailed sample_world 100 None
              (task_of "t2" "PENDING" 7 7) "TAKEN" "PENDING")))
           well_formed_sample_table _ _ _ H2 eq_refl)).
Defined.

(** The completed task [t1] in a batch: its lease attempt fails and the step
    settles it. *)
Lemma processTask_runs_only_leased_witness :
  [task_of "t1" "PENDING" 5 9] !! 0 = Some (task_of "t1" "PENDING" 5 9)
  ∧ [Delayed] !! 0 = Some Delayed
  ∧ (transitionTask conditionalCheckFailed 100 None (task_of "t1" "PENDING" 5 9)
       "PENDING" "TAKEN" sample_world).1 = Normal false
  ∧ batch_step conditionalCheckFailed [task_of "t1" "PENDING" 5 9]
      ([Delayed], sample_world)
      {| ev_thread := 0; ev_now := 100; ev_fault := None |}
    = (<[0 := Settled]> [Delayed],
       (transitionTask conditionalCheckFailed 100 None (task_of "t1" "PENDING" 5 9)
          "PENDING" "TAKEN" sample_world).2).
Proof.
  assert (H3 : (transitionTask conditionalCheckFailed 100 None
                  (task_of "t1" "PENDING" 5 9) "PENDING" "TAKEN" sample_world).1
               = Normal false) by (vm_compute; reflexivity).
  split_and!; [reflexivity|reflexivity|exact H3|].
  exact (proj1 (proj2 (processTask_runs_only_leased conditionalCheckFailed
                         [task_of "t1" "PENDING" 5 9] [] sample_world "t1")
                  [Delayed] sample_world 0 (task_of "t1" "PENDING" 5 9) 100%Z None
                  eq_refl eq_refl H3)).
Defined.

(** C6 fails as stated at the boundary: with the active time equal to
    [maxActiveTime], not above it, a non-empty batch makes the activation
    hand off. *)
Lemma processTasks_hands_off_at_the_limit :
  (processTasks conditionalCheckFailed "trigger" 0 [round_at_limit] pending_world).1
  = Exited true true
  ∧ tally_effects is_publish
      (trace (processTasks conditionalCheckFailed "trigger" 0 [round_at_limit]
                pending_world).2) = 1
  ∧ ¬ (Z.abs (0 - rd_now round_at_limit) > maxActiveTime CONFIG)%Z.
Proof.
  split_and!; [vm_compute; reflexivity|vm_compute; reflexivity|].
  vm_compute. intros H. discriminate H.
Qed.

(** A round at the limit exits. *)
Lemma processTasks_hands_off_once_witness :
  (Z.abs (0 - rd_now round_at_limit) >= maxActiveTime CONFIG)%Z
  ∧ ∃ hasTasks,
      (processTasks conditionalCheckFailed "trigger" 0 [round_at_limit] pending_world).1
      = Exited hasTasks true.
Proof.
  assert (H1 : (Z.abs (0 - rd_now round_at_limit) >= maxActiveTime CONFIG)%Z)
    by (vm_compute; discriminate).
  split; [exact H1|].
  exact (proj1 (proj2 (processTasks_hands_off_once conditionalCheckFailed "trigger" 0
                         [round_at_limit] pending_world))
           round_at_limit [] eq_refl H1).
Defined.

(** A runner that always raises: the PENDING task [t2] is leased, the runner
    raises and the task is requeued. *)
Lemma processTask_requeues_when_runner_raises_witness :
  persisted_status pending_table "t2" = Some (AttrS "PENDING")
  ∧ (@taskRunner_await unit (raising_runner runnerBug) (task_of "t2" "PENDING" 7 7)
       (@transitionTask unit conditionalCheckFailed 50 None (task_of "t2" "PENDING" 7 7)
          "PENDING" "TAKEN" (mkWorld pending_table [] tt)).2).1 = Throw runnerBug
  ∧ (@processTask unit conditionalCheckFailed (raising_runner runnerBug) 50 None 60 None
       (task_of "t2" "PENDING" 7 7) (mkWorld pending_table [] tt)).1 = Normal tt.
Proof.
  assert (H1 : persisted_status pending_table "t2" = Some (AttrS "PENDING"))
    by (vm_compute; reflexivity).
  assert (H2 : (@taskRunner_await unit (raising_runner runnerBug)
                  (task_of "t2" "PENDING" 7 7)
                  (@transitionTask unit conditionalCheckFailed 50 None
                     (task_of "t2" "PENDING" 7 7) "PENDING" "TAKEN"
                     (mkWorld pending_table [] tt)).2).1 = Throw runnerBug)
    by reflexivity.
  split_and!; [exact H1|exact H2|].
  exact (proj1 (proj1 (@processTask_requeues_when_runner_raises unit
                         conditionalCheckFailed (raising_runner runnerBug)
                         (task_of "t2" "PENDING" 7 7) runnerBug)
                  (mkWorld pending_table [] tt) 50%Z 60%Z None H1 H2)).
Defined.

(** A batch of two in which only the first task is resumed: it is settled
    after four resumptions, the second has not started, and the activation
    waits though a further round is at hand. *)
Lemma processTaskBatch_attempts_every_task_witness :
  0 < length [task_of "t3" "PENDING" 8 8; task_of "t2" "PENDING" 7 7]
  ∧ 4 ≤ length (filter (fun ev => ev_thread ev = 0) four_resumptions)
  ∧ (∃ i pc,
       (processTaskBatch conditionalCheckFailed
          [task_of "t3" "PENDING" 8 8; task_of "t2" "PENDING" 7 7]
          four_resumptions (getPendingTaskBatch None pending_world).2).1 !! i = Some pc
       ∧ pc ≠ Settled)
  ∧ (processTaskBatch conditionalCheckFailed
       [task_of "t3" "PENDING" 8 8; task_of "t2" "PENDING" 7 7]
       four_resumptions (getPendingTaskBatch None pending_world).2).1 !! 0 = Some Settled
  ∧ processTasks conditionalCheckFailed "trigger" 0
      (round_at 0 four_resumptions :: [round_at 1 settle_two]) pending_world
    = (Waiting,
       (processTaskBatch conditionalCheckFailed
          [task_of "t3" "PENDING" 8 8; task_of "t2" "PENDING" 7 7]
          four_resumptions (getPendingTaskBatch None pending_world).2).2).
Proof.
  assert (H1 : 0 < length [task_of "t3" "PENDING" 8 8; task_of "t2" "PENDING" 7 7])
    by (cbn; lia).
  assert (H2 : 4 ≤ length (filter (fun ev => ev_thread ev = 0) four_resumptions))
    by (vm_compute; lia).
  assert (H3 : ∃ i pc,
             (processTaskBatch conditionalCheckFailed
                [task_of "t3" "PENDING" 8 8; task_of "t2" "PENDING" 7 7]
                four_resumptions (getPendingTaskBatch None pending_world).2).1 !! i
             = Some pc ∧ pc ≠ Settled).
  { exists 1, Delayed. split; [vm_compute; reflexivity|discriminate]. }
  assert (H4 : getPendingTaskBatch (rd_queryFault (round_at 0 four_resumptions))
                 pending_world
               = (Normal [task_of "t3" "PENDING" 8 8; task_of "t2" "PENDING" 7 7],
                  (getPendingTaskBatch None pending_world).2))
    by (vm_compute; reflexivity).
  assert (H5 : [task_of "t3" "PENDING" 8 8; task_of "t2" "PENDING" 7 7] ≠ [])
    by discriminate.
  assert (H6 : (Z.abs (0 - rd_now (round_at 0 four_resumptions)) < maxActiveTime CONFIG)%Z)
    by (vm_compute; reflexivity).
  split_and!; [exact H1|exact H2|exact H3| |].
  - exact (proj1 (proj2 (proj2 (proj2
             (processTaskBatch_attempts_every_task conditionalCheckFailed "trigger"
                [task_of "t3" "PENDING" 8 8; task_of "t2" "PENDING" 7 7]
                four_resumptions (getPendingTaskBatch None pending_world).2)))) 0 H1 H2).
  - exact (proj2 (proj2 (proj2 (proj2 (proj2 (proj2
             (processTaskBatch_attempts_every_task conditionalCheckFailed "trigger"
                [task_of "t3" "PENDING" 8 8; task_of "t2" "PENDING" 7 7]
                four_resumptions (getPendingTaskBatch None pending_world).2)))))
             0%Z (round_at 0 four_resumptions) [round_at 1 settle_two] pending_world
             H4 H5 H6 eq_refl) H3).
Defined.

(** A batch of the fake runner from an idle start. *)
Lemma fakeTaskRunner_pending_or_success_witness :
  (runner pending_world <= 3)%Z
  ∧ (runner (processTaskBatch conditionalCheckFailed
               [task_of "t3" "PENDING" 8 8; task_of "t2" "PENDING" 7 7]
               four_resumptions pending_world).2 <= 3)%Z.
Proof.
  assert (H1 : (runner pending_world <= 3)%Z) by (cbn; lia).
  split; [exact H1|].
  exact (proj1 (proj1 (proj2 (proj2
           (fakeTaskRunner_pending_or_success conditionalCheckFailed "trigger")))
           [task_of "t3" "PENDING" 8 8; task_of "t2" "PENDING" 7 7]
           four_resumptions pending_world H1)).
Defined.

(** Twelve tasks created one after the other: the batch is the ten newest,
    newest first. *)
Example getPendingTaskBatch_lifo_page :
  (getPendingTaskBatch None (produced twelve_tasks)).1
  = Normal ((fun task => task_of task.1 "PENDING" task.2 task.2)
              <$> [("l", 12); ("k", 11); ("j", 10); ("i", 9); ("h", 8);
                   ("g", 7); ("f", 6); ("e", 5); ("d", 4); ("c", 3)]%Z).
Proof. vm_compute. reflexivity. Qed.

(** An activation with the fake runner on two PENDING tasks: the first round
    leases and completes both, the second finds nothing and exits without a
    hand-off. *)
Example processTasks_drains_the_queue :
  let r := processTasks conditionalCheckFailed "trigger" 0
             [round_at 10 settle_two; round_at 700 []] pending_world in
  r.1 = Exited false false
  ∧ persisted_status (table r.2) "t2" = Some (AttrS "SUCCESS")
  ∧ persisted_status (table r.2) "t3" = Some (AttrS "SUCCESS")
  ∧ runner r.2 = 0%Z
  ∧ tally_effects is_publish (trace r.2) = 0
  ∧ errors_in (trace r.2) = [].
Proof. vm_compute. repeat split; reflexivity. Qed.

(** The same activation when the batch is not resumed to the end: it waits,
    with both tasks leased. *)
Example processTasks_waits_for_the_batch :
  let r := processTasks conditionalCheckFailed "trigger" 0
             [round_at 10 (take 2 settle_two); round_at 700 []] pending_world in
  r.1 = Waiting
  ∧ persisted_status (table r.2) "t2" = Some (AttrS "TAKEN")
  ∧ persisted_status (table r.2) "t3" = Some (AttrS "TAKEN").
Proof. vm_compute. repeat split; reflexivity. Qed.

(** * Further properties *)

Section LeaseExclusivity.

Context {RS : Type} (rejected : JsError).
Implicit Types (w : World RS) (task : Task).

Lemma attempts_run_lost w task from to attempts :
  persisted_status (table w) (taskId task) ≠ Some (AttrS from) ->
  owners (attempts_run rejected task from to attempts w).1 = 0
  ∧ table (attempts_run rejected task from to attempts w).2 = table w.
Proof.
  revert w. induction attempts as [|[now fault] rest IH]; intros w Hst; [done|].
  cbn [attempts_run fst snd].
  destruct (transitionTask_cases rejected w now fault task from to) as [Hres Htab].
  cbv zeta in Hres, Htab.
  rewrite (bool_decide_eq_false_2 (fault = None ∧ _)) in Hres, Htab
    by (intros [_ ?]; done).
  rewrite Hres. cbn [owners].
  destruct (IH (transitionTask rejected now fault task from to w).2) as [Hown Htab'].
  { by rewrite Htab. }
  split; [done|]. by rewrite Htab', Htab.
Qed.

(** X1. At most one owner.  When several callers try the same transition
    of a task one after the other and the transition changes the status,
    exactly one of them is told [true] if the task has the origin status and
    at least one request is served, and none otherwise; none of the calls
    raises. *)
Theorem transitionTask_at_most_one_owner w task from to attempts :
  from ≠ to ->
  owners (attempts_run rejected task from to attempts w).1
  = (if bool_decide (persisted_status (table w) (taskId task) = Some (AttrS from))
        && existsb served attempts
     then 1 else 0)
  ∧ Forall (fun c => ∃ b, c = Normal b) (attempts_run rejected task from to attempts w).1.
Proof.
  intros Hne. revert w. induction attempts as [|[now fault] rest IH]; intros w.
  - cbn. rewrite andb_false_r. by split.
  - cbn [attempts_run fst snd existsb].
    destruct (transitionTask_cases rejected w now fault task from to) as [Hres Htab].
    cbv zeta in Hres, Htab. rewrite Hres.
    destruct (IH (transitionTask rejected now fault task from to w).2) as [Hown Hall].
    split; [|constructor; [by eexists|done]].
    unfold served at 1. cbn [snd].
    destruct (decide (persisted_status (table w) (taskId task) = Some (AttrS from)))
      as [Hst|Hst].
    + rewrite (bool_decide_eq_true_2 _ Hst). cbn [andb].
      destruct fault as [err|].
      * rewrite (bool_decide_eq_false_2 (Some err = None ∧ _)) in Htab |- *
          by (intros [? _]; discriminate).
        cbn [owners orb]. rewrite Hown, Htab.
        by rewrite (bool_decide_eq_true_2 _ Hst).
      * rewrite (bool_decide_eq_true_2 (None = None ∧ _)) in Htab |- * by done.
        cbn [owners orb]. f_equal.
        apply attempts_run_lost. rewrite Htab. unfold persisted_status in *.
        rewrite lookup_alter_eq.
        destruct (table w !! taskId task) as [it|]; [|discriminate]. cbn.
        destruct (transitioned_lookup now to it) as (-> & _). congruence.
    + rewrite (bool_decide_eq_false_2 _ Hst). cbn [andb].
      rewrite (bool_decide_eq_false_2 (fault = None ∧ _)) in Htab |- *
        by (intros [_ ?]; done).
      cbn [owners]. apply attempts_run_lost. by rewrite Htab.
Qed.

End LeaseExclusivity.

Lemma Forall2_fmap_eq {A B C} (f : A -> C) (g : B -> C) (l : list A) (k : list B) :
  Forall2 (fun x y => f x = g y) l k -> f <$> l = g <$> k.
Proof. induction 1 as [|x y l k Hxy _ IH]; cbn; [done|]. by rewrite Hxy, IH. Qed.

Section BatchSelectorEdges.

Context {RS : Type}.
Implicit Types (w : World RS) (it : Item).

Lemma pending_page_items (t : Table) it :
  it ∈ pending_page t -> in_partition "PENDING" it = true ∧ ∃ k, t !! k = Some it.
Proof.
  unfold pending_page. intros Hit. apply elem_of_take in Hit as (i & Hit & _).
  apply list_elem_of_lookup_2 in Hit. rewrite pending_newest_first_perm in Hit.
  by apply elem_of_pending_items.
Qed.

Lemma well_formed_item_id (t : Table) k it :
  well_formed t -> t !! k = Some it -> item_id it = k.
Proof.
  intros Hwf Hk. destruct (well_formed_toTask _ _ _ Hwf Hk) as (task & Hto & <-).
  destruct (toTask_Some _ _ Hto) as (Hid & _). unfold item_id. by rewrite Hid.
Qed.

Lemma pending_page_NoDup (t : Table) :
  well_formed t -> NoDup (item_id <$> pending_page t).
Proof.
  intros Hwf.
  assert (Hall : NoDup (item_id <$> (map_to_list t).*2)).
  { rewrite <- list_fmap_compose.
    rewrite (Forall_fmap_ext_1 (item_id ∘ snd) fst).
    - apply NoDup_fst_map_to_list.
    - apply Forall_forall. intros [k it] Hin. cbn.
      apply elem_of_map_to_list in Hin. by apply (well_formed_item_id t). }
  assert (Hpending : NoDup (item_id <$> pending_items t)).
  { apply (sublist_NoDup _ _ Hall). apply fmap_sublist. apply sublist_filter. }
  assert (Hsorted : NoDup (item_id <$> pending_newest_first t)).
  { by rewrite pending_newest_first_perm. }
  apply (sublist_NoDup _ _ Hsorted). apply fmap_sublist. apply sublist_take.
Qed.

(** Every task of a batch is stored with status PENDING. *)
Lemma getPendingTaskBatch_members_pending w fault ts :
  well_formed (table w) ->
  (getPendingTaskBatch fault w).1 = Normal ts ->
  Forall (fun task =>
            taskStatus task = "PENDING"
            ∧ persisted_status (table w) (taskId task) = Some (AttrS "PENDING")) ts.
Proof.
  intros Hwf Hres. destruct fault as [err|].
  - injection Hres as <-. constructor.
  - destruct (getPendingTaskBatch_well_formed w Hwf) as (ts' & HF & Hres' & _).
    assert (ts' = ts) as -> by congruence.
    apply Forall_forall. intros task Htask.
    destruct (Forall2_elem_of_r _ _ _ _ HF Htask) as (it & Hit & Hto).
    destruct (pending_page_items (table w) it Hit) as (Hpart & k & Hk).
    pose proof (toTask_pending it task Hto Hpart) as Hstatus.
    split; [done|].
    destruct (well_formed_toTask _ _ _ Hwf Hk) as (task' & Hto' & <-).
    assert (task' = task) as -> by congruence.
    unfold persisted_status. rewrite Hk. cbn.
    destruct (toTask_Some _ _ Hto) as (_ & Hkey & _). unfold index_key in Hkey.
    destruct (it !! "taskStatus") as [[st|]|]; try done.
    destruct (it !! "taskCreated") as [[|c]|]; try done. congruence.
Qed.

(** X2. Whatever the ties between creation times, the batch of a table of
    well-formed items has [min pageLimit n] of the [n] PENDING tasks, each
    stored with status PENDING, in descending order of creation time, and no
    PENDING task left out is newer than a task returned. *)
Theorem getPendingTaskBatch_with_ties w :
  well_formed (table w) ->
  ∃ ts,
    (getPendingTaskBatch None w).1 = Normal ts
    ∧ length ts = pageLimit CONFIG `min` length (pending_items (table w))
    ∧ Forall (fun task =>
                taskStatus task = "PENDING"
                ∧ persisted_status (table w) (taskId task) = Some (AttrS "PENDING")) ts
    ∧ StronglySorted (fun a b => (taskCreated b <= taskCreated a)%Z) ts
    ∧ ∀ it, it ∈ pending_items (table w) ->
        (∃ task, toTask it = Some task ∧ task ∈ ts)
        ∨ (∀ task, task ∈ ts -> (range_key it <= taskCreated task)%Z).
Proof.
  intros Hwf.
  destruct (getPendingTaskBatch_well_formed w Hwf) as (ts & HF & Hres & _).
  exists ts. split; [done|].
  set (L := pending_newest_first (table w)) in *.
  assert (Hperm : L ≡ₚ pending_items (table w)) by apply pending_newest_first_perm.
  pose proof (pending_newest_first_sorted (table w)) as Hsorted. fold L in Hsorted.
  rewrite <- (take_drop (pageLimit CONFIG) L) in Hsorted.
  apply StronglySorted_app in Hsorted as (Hcross & Htake & _).
  split_and!.
  - rewrite <- (Forall2_length _ _ _ HF), length_take. by rewrite Hperm.
  - by apply (getPendingTaskBatch_members_pending w None).
  - refine (StronglySorted_Forall2 _ _ _ _ _ _ HF Htake).
    intros a b a' b' Hab Hab' HR. cbn in Hab, Hab', HR.
    destruct (toTask_Some _ _ Hab) as (_ & _ & <-).
    destruct (toTask_Some _ _ Hab') as (_ & _ & <-). exact HR.
  - intros it Hit. rewrite <- Hperm, <- (take_drop (pageLimit CONFIG) L) in Hit.
    apply elem_of_app in Hit as [Hit|Hit].
    + left. destruct (Forall2_elem_of_l _ _ _ _ HF Hit) as (task & ? & ?). by exists task.
    + right. intros task Htask.
      destruct (Forall2_elem_of_r _ _ _ _ HF Htask) as (it' & Hit' & Hto).
      destruct (toTask_Some _ _ Hto) as (_ & _ & <-). by apply Hcross.
Qed.

(** X3. A batch never holds the same task twice: the task ids of the batch
    of a table of well-formed items are pairwise distinct. *)
Theorem getPendingTaskBatch_distinct_tasks w fault :
  well_formed (table w) ->
  ∃ ts, (getPendingTaskBatch fault w).1 = Normal ts ∧ NoDup (taskId <$> ts).
Proof.
  intros Hwf. destruct fault as [err|].
  - exists []. split; [done|constructor].
  - destruct (getPendingTaskBatch_well_formed w Hwf) as (ts & HF & Hres & _).
    exists ts. split; [done|].
    rewrite <- (Forall2_fmap_eq item_id taskId (pending_page (table w)) ts).
    + by apply pending_page_NoDup.
    + apply (Forall2_impl _ _ _ _ HF). intros it task Hto.
      destruct (toTask_Some _ _ Hto) as (Hid & _). unfold item_id. by rewrite Hid.
Qed.

(** X4. A batch selection never raises.  When the query fails, or when an
    item of the page it reads has no [taskUpdated] attribute, it returns the
    empty batch, writes GET_PENDING_TASK_BATCH_ERROR to [console.error] and
    leaves the table and the state of the runner as they were, whatever
    PENDING tasks the table holds. *)
Theorem getPendingTaskBatch_failure_gives_empty w fault :
  is_Some fault
  ∨ (∃ it, it ∈ pending_page (table w) ∧ it !! "taskUpdated" = None) ->
  getPendingTaskBatch fault w =
    (Normal [],
     mkWorld (table w) (trace (getPendingTaskBatch fault w).2) (runner w))
  ∧ ∃ err,
      errors_in (trace (getPendingTaskBatch fault w).2)
      = GET_PENDING_TASK_BATCH_ERROR err :: errors_in (trace w).
Proof.
  intros [[err ->]|(it & Hit & Hup)].
  - split; [done|]. by exists err.
  - destruct fault as [err|]; [split; [done|by exists err]|].
    rewrite getPendingTaskBatch_served. cbv zeta. fold (pending_page (table w)).
    rewrite (mapM_None_2 toTask (pending_page (table w))).
    + split; [done|]. by exists TypeError.
    + apply Exists_exists. exists it. split; [done|].
      unfold toTask. rewrite Hup. by repeat case_match.
Qed.

End BatchSelectorEdges.

Section OneTask.

Context {RS : Type} (rejected : JsError) `{!TaskRunner RS}.
Implicit Types (w : World RS) (task : Task).

Lemma taskRunner_await_table w task :
  table (taskRunner_await task w).2 = table w.
Proof.
  unfold taskRunner_await.
  destruct (runner_call task (runner w)) as [[rs logs] [o|]].
  - by destruct o.
  - destruct (runner_resume task rs) as [[rs' logs'] o]. by destruct o.
Qed.

Lemma persisted_status_transitioned (t : Table) now to id :
  is_Some (t !! id) ->
  persisted_status (alter (transitioned now to) id t) id = Some (AttrS to)
  ∧ alter (transitioned now to) id t !! id ≫= (.!! "taskUpdated") = Some (AttrN now).
Proof.
  intros [it Hit]. unfold persisted_status. rewrite lookup_alter_eq, Hit. cbn.
  destruct (transitioned_lookup now to it) as (-> & -> & _). done.
Qed.

(** [processTask] when both requests are served, in one equation for the
    table. *)
Lemma processTask_served_table w now1 now2 task :
  persisted_status (table w) (taskId task) = Some (AttrS "PENDING") ->
  let w1 := (transitionTask rejected now1 None task "PENDING" "TAKEN" w).2 in
  let answer := match (taskRunner_await task w1).1 with
                | Normal s => s
                | Throw _ => "PENDING"
                end in
  processTask rejected now1 None now2 None task w
  = (Normal tt, (processTask rejected now1 None now2 None task w).2)
  ∧ table (processTask rejected now1 None now2 None task w).2
    = alter (transitioned now2 answer) (taskId task)
        (alter (transitioned now1 "TAKEN") (taskId task) (table w)).
Proof.
  intros Hst. cbv zeta. rewrite (processTask_leased rejected _ _ _ _ _ Hst). cbv zeta.
  rewrite (transitionTask_served rejected _ _ _ _ _ Hst). cbn [snd].
  set (w1 := mkWorld _ _ _).
  assert (Hsome : is_Some (table w !! taskId task)).
  { unfold persisted_status in Hst. destruct (table w !! taskId task); [by eexists|done]. }
  assert (Htaken : persisted_status (table w1) (taskId task) = Some (AttrS "TAKEN")).
  { subst w1. cbn [table]. by apply persisted_status_transitioned. }
  pose proof (taskRunner_await_table w1 task) as Htab.
  destruct (taskRunner_await task w1) as [[s|e] w2]; cbn [fst snd] in Htab |- *.
  - rewrite <- Htab in Htaken.
    rewrite (transitionTask_served rejected _ _ _ _ _ Htaken). cbn [snd table].
    by rewrite Htab.
  - assert (Htaken' : persisted_status
                        (table (mkWorld (table w2)
                                  (Console ERROR (PROCESS_TASK_ERROR e (taskId task))
                                     :: trace w2) (runner w2)))
                        (taskId task) = Some (AttrS "TAKEN"))
      by (cbn [table]; by rewrite Htab).
    rewrite (transitionTask_served rejected _ _ _ _ _ Htaken'). cbn [snd table].
    by rewrite Htab.
Qed.

(** X5. A PENDING task whose two requests are served ends in the state the
    task runner answered, or in PENDING when the runner raised, with the
    time of the second transition as its update time; [processTask] returns
    normally and touches no other item. *)
Theorem processTask_leaves_the_answer w now1 now2 task :
  persisted_status (table w) (taskId task) = Some (AttrS "PENDING") ->
  let w1 := (transitionTask rejected now1 None task "PENDING" "TAKEN" w).2 in
  let answer := match (taskRunner_await task w1).1 with
                | Normal s => s
                | Throw _ => "PENDING"
                end in
  let r := processTask rejected now1 None now2 None task w in
  r.1 = Normal tt
  ∧ persisted_status (table r.2) (taskId task) = Some (AttrS answer)
  ∧ table r.2 !! taskId task ≫= (.!! "taskUpdated") = Some (AttrN now2)
  ∧ ∀ id, id ≠ taskId task -> table r.2 !! id = table w !! id.
Proof.
  intros Hst. cbv zeta.
  destruct (processTask_served_table w now1 now2 task Hst) as [Heq Htab].
  cbv zeta in Htab. split; [by rewrite Heq|]. rewrite Htab.
  assert (Hsome : is_Some (alter (transitioned now1 "TAKEN") (taskId task) (table w)
                           !! taskId task)).
  { rewrite lookup_alter_eq. unfold persisted_status in Hst.
    destruct (table w !! taskId task); [by eexists|done]. }
  destruct (persisted_status_transitioned _ now2
              (match (taskRunner_await task
                        (transitionTask rejected now1 None task "PENDING" "TAKEN" w).2).1
               with Normal s => s | Throw _ => "PENDING" end)
              (taskId task) Hsome) as [H1 H2].
  split_and!; [done..|].
  intros id Hne. by rewrite !lookup_alter_ne.
Qed.

(** X6. A lease that is not given back.  When the lease of a PENDING task
    is won and the concluding request fails, [processTask] still returns
    normally and the task stays TAKEN: another lease attempt fails, and on a
    table of well-formed items no later batch selects the task. *)
Theorem processTask_strands_taken w now1 now2 err task :
  persisted_status (table w) (taskId task) = Some (AttrS "PENDING") ->
  let r := processTask rejected now1 None now2 (Some err) task w in
  r.1 = Normal tt
  ∧ persisted_status (table r.2) (taskId task) = Some (AttrS "TAKEN")
  ∧ (∀ now fault,
       (transitionTask rejected now fault task "PENDING" "TAKEN" r.2).1 = Normal false)
  ∧ (well_formed (table w) ->
     ∀ fault ts, (getPendingTaskBatch fault r.2).1 = Normal ts ->
                 taskId task ∉ taskId <$> ts).
Proof.
  intros Hst. cbv zeta.
  assert (Hr : (processTask rejected now1 None now2 (Some err) task w).1 = Normal tt
               ∧ table (processTask rejected now1 None now2 (Some err) task w).2
                 = alter (transitioned now1 "TAKEN") (taskId task) (table w)).
  { rewrite (processTask_leased rejected _ _ _ _ _ Hst). cbv zeta.
    rewrite (transitionTask_served rejected _ _ _ _ _ Hst). cbn [snd].
    set (w1 := mkWorld _ _ _).
    pose proof (taskRunner_await_table w1 task) as Htab.
    destruct (taskRunner_await task w1) as [[s|e] w2]; cbn [fst snd] in Htab |- *;
      rewrite transitionTask_fault; cbn [fst snd table]; by rewrite Htab. }
  destruct Hr as [Hres Htab].
  assert (Htaken : persisted_status
                     (table (processTask rejected now1 None now2 (Some err) task w).2)
                     (taskId task) = Some (AttrS "TAKEN")).
  { rewrite Htab. apply persisted_status_transitioned.
    unfold persisted_status in Hst. destruct (table w !! taskId task); [by eexists|done]. }
  split_and!; [done..| |].
  - intros now fault.
    destruct (transitionTask_cases rejected
                (processTask rejected now1 None now2 (Some err) task w).2
                now fault task "PENDING" "TAKEN") as [-> _].
    rewrite Htaken. by rewrite bool_decide_eq_false_2 by (intros [_ ?]; done).
  - intros Hwf fault ts Hts Hin.
    apply list_elem_of_fmap in Hin as (t & Hid & Hin).
    assert (Hwf' : well_formed
                     (table (processTask rejected now1 None now2 (Some err) task w).2)).
    { rewrite Htab. by apply well_formed_alter_transitioned. }
    pose proof (getPendingTaskBatch_members_pending _ fault ts Hwf' Hts) as Hall.
    apply (proj1 (Forall_forall _ _) Hall) in Hin as [_ Hpending].
    rewrite <- Hid, Htaken in Hpending. done.
Qed.

End OneTask.

Section BatchAndLoop.

Context {RS : Type} (rejected : JsError) `{!TaskRunner RS} (TRIGGER_TOPIC_ARN : string).
Implicit Types (w : World RS) (task : Task) (pc : Pc) (pcs : list Pc).

Lemma awaits_runner_initial id (tasks : list Task) :
  tally_threads (awaits_runner id) tasks (replicate (length tasks) Delayed)
  = length (filter (fun task => taskId task = id) tasks).
Proof.
  induction tasks as [|task tasks IH]; [done|].
  cbn [length replicate tally_threads awaits_runner]. rewrite filter_cons, IH.
  case_bool_decide; by case_decide.
Qed.

Lemma filter_id_NoDup id (tasks : list Task) :
  NoDup (taskId <$> tasks) -> length (filter (fun task => taskId task = id) tasks) ≤ 1.
Proof.
  induction tasks as [|task tasks IH]; intros Hnd; [cbn; lia|].
  rewrite fmap_cons in Hnd. apply NoDup_cons in Hnd as [Hnotin Hnd].
  rewrite filter_cons. case_decide as Hid; [|by apply IH].
  cbn [length]. enough (filter (fun task0 => taskId task0 = id) tasks = []) as -> by (cbn; lia).
  destruct (filter _ tasks) as [|t l] eqn:Hf; [done|]. exfalso.
  assert (Ht : t ∈ filter (fun task0 => taskId task0 = id) tasks) by (rewrite Hf; by left).
  apply list_elem_of_filter in Ht as [Heq Ht]. apply Hnotin.
  rewrite Hid, <- Heq. by apply list_elem_of_fmap_2.
Qed.

(** X7. In one batch the task runner is called for a task id at most as
    often as the batch holds a task of that id, however the batch is
    scheduled: at most once when the task ids of the batch are distinct. *)
Theorem processTaskBatch_calls_runner_once tasks schedule w id :
  ∃ new,
    trace (processTaskBatch rejected tasks schedule w).2 = new ++ trace w
    ∧ tally_effects (is_runner_call id) new
      ≤ length (filter (fun task => taskId task = id) tasks)
    ∧ (NoDup (taskId <$> tasks) -> tally_effects (is_runner_call id) new ≤ 1).
Proof.
  destruct (processTaskBatch_invariant rejected
    (fun pcs new =>
       tally_effects (is_runner_call id) new
       + tally_threads (awaits_runner id) tasks pcs
       ≤ length (filter (fun task => taskId task = id) tasks))
    tasks schedule w) as (new & Htr & Hle).
  - intros pcs new i task pc pc' delta Htask Hpc Hkind HΦ.
    pose proof (tally_threads_insert (awaits_runner id) tasks pcs i task pc pc' Htask Hpc)
      as Hins.
    rewrite !tally_effects_app.
    destruct Hkind as [now logs Hl|now logs Hl|logs Hl|s logs Hl|s logs Hl
                       |now s ok logs Hl| |e];
      rewrite ?tally_effects_app,
        ?(tally_effects_console (is_runner_call id) logs) by done;
      cbn in Hins |- *; repeat case_bool_decide; lia.
  - cbn [tally_effects is_runner_call]. rewrite awaits_runner_initial. lia.
  - exists new. split; [done|]. split; [lia|].
    intros Hnd. pose proof (filter_id_NoDup id tasks Hnd). lia.
Qed.

Lemma thread_step_table w now fault task pc :
  table (thread_step rejected now fault task pc w).2 = table w
  ∨ ∃ to, table (thread_step rejected now fault task pc w).2
          = alter (transitioned now to) (taskId task) (table w).
Proof.
  destruct pc as [| | |toState| |e].
  - rewrite thread_step_Delayed. cbn [snd].
    destruct (transitionTask_table rejected w now fault task "PENDING" "TAKEN"); eauto.
  - rewrite thread_step_Leased.
    destruct (runner_call task (runner w)) as [[rs logs] [o|]]; by left.
  - rewrite thread_step_Running.
    destruct (runner_resume task (runner w)) as [[rs logs] o]. by left.
  - rewrite thread_step_Concluding. cbn [snd].
    destruct (transitionTask_table rejected w now fault task "TAKEN" toState); eauto.
  - by left.
  - by left.
Qed.

Lemma same_but_status_refl (t : Table) : same_but_status t t.
Proof. intros k. by destruct (t !! k). Qed.

Lemma same_but_status_transitioned (t0 t : Table) now to id :
  same_but_status t0 t -> same_but_status t0 (alter (transitioned now to) id t).
Proof.
  intros Hsame k. specialize (Hsame k). rewrite lookup_alter.
  destruct (decide (id = k)) as [->|Hne]; [|done].
  destruct (t0 !! k) as [it0|], (t !! k) as [it|]; cbn; try done.
  intros a H1 H2. rewrite <- (Hsame a H1 H2). by apply transitioned_lookup.
Qed.

Lemma processTaskBatch_same_but_status (t0 : Table) tasks schedule w :
  same_but_status t0 (table w) ->
  same_but_status t0 (table (processTaskBatch rejected tasks schedule w).2).
Proof.
  intros Hsame. unfold processTaskBatch, console_log, emit.
  apply (batch_world_invariant rejected (fun _ w' => same_but_status t0 (table w'))
           tasks); [|done].
  intros pcs w' i task pc now fault _ _ Hinv.
  destruct (thread_step_table w' now fault task pc) as [->|[to ->]];
    [done|by apply same_but_status_transitioned].
Qed.

(** X8. An activation of the worker loop creates no item and deletes none,
    and in the items it changes nothing but [taskStatus] and [taskUpdated]:
    task id, creation time, expiry time and every other attribute of every
    item are as before, for every task runner, schedule and fault. *)
Theorem processTasks_only_changes_status start rounds w :
  same_but_status (table w)
    (table (processTasks rejected TRIGGER_TOPIC_ARN start rounds w).2)
  ∧ dom (table (processTasks rejected TRIGGER_TOPIC_ARN start rounds w).2)
    = dom (table w).
Proof.
  assert (Hsame : ∀ t0 w,
    same_but_status t0 (table w) ->
    same_but_status t0 (table (processTasks rejected TRIGGER_TOPIC_ARN start rounds w).2)).
  { clear w. intros t0. induction rounds as [|rd rest IH]; intros w Hw; [done|].
    destruct (getPendingTaskBatch_total w (rd_queryFault rd))
      as (ts & logs & ok & _ & Hget).
    set (w1 := mkWorld _ _ _) in Hget.
    destruct (bool_decide (0 < length ts)
              && negb (bool_decide (Z.abs (start - rd_now rd) >= maxActiveTime CONFIG)%Z))
      eqn:Hgo.
    - apply andb_prop in Hgo as [Hts Hnot].
      apply bool_decide_eq_true in Hts.
      apply negb_true_iff, bool_decide_eq_false in Hnot.
      rewrite (processTasks_continue rejected TRIGGER_TOPIC_ARN start rd rest w ts w1 Hget);
        [|by destruct ts; [cbn in Hts; lia|]|lia].
      pose proof (processTaskBatch_same_but_status t0 ts (rd_schedule rd) w1 Hw) as Hb.
      destruct (allSettled _); [by apply IH|done].
    - destruct (processTasks_exit_round rejected TRIGGER_TOPIC_ARN start rd rest w ts w1
                  Hget Hgo) as (new & -> & _). done. }
  split; [apply Hsame, same_but_status_refl|].
  apply set_eq. intros k. rewrite !elem_of_dom.
  pose proof (Hsame (table w) w (same_but_status_refl _) k) as Hk.
  destruct (table w !! k), (table (processTasks _ _ _ _ _).2 !! k); done.
Qed.

Lemma getPendingTaskBatch_length w fault ts :
  (getPendingTaskBatch fault w).1 = Normal ts -> length ts ≤ pageLimit CONFIG.
Proof.
  destruct fault as [err|].
  - intros Hres. injection Hres as <-. cbn. lia.
  - rewrite getPendingTaskBatch_served. cbv zeta.
    destruct (mapM toTask _) as [ts'|] eqn:Hmap; intros Hres; injection Hres as <-.
    + apply length_mapM in Hmap. rewrite <- Hmap, length_take. lia.
    + cbn. lia.
Qed.

Lemma getPendingTaskBatch_failure w fault :
  is_Some fault
  ∨ (∃ it, it ∈ pending_page (table w) ∧ it !! "taskUpdated" = None) ->
  (getPendingTaskBatch fault w).1 = Normal [].
Proof.
  intros [[err ->]|(it & Hit & Hup)]; [done|].
  destruct fault as [err|]; [done|].
  rewrite getPendingTaskBatch_served. cbv zeta. fold (pending_page (table w)).
  rewrite (mapM_None_2 toTask (pending_page (table w))); [done|].
  apply Exists_exists. exists it. split; [done|].
  unfold toTask. rewrite Hup. by repeat case_match.
Qed.

(** A schedule that resumes every task of a batch four times settles it. *)
Lemma processTaskBatch_settles tasks schedule w :
  length tasks ≤ pageLimit CONFIG -> settles_a_page schedule ->
  allSettled (processTaskBatch rejected tasks schedule w).1 = true.
Proof.
  intros Hlen Hsched.
  destruct (processTaskBatch_attempts rejected tasks schedule w)
    as (new & _ & Hlen' & Hun & _).
  unfold allSettled. apply forallb_forall. intros pc Hpc.
  apply list_elem_of_In, list_elem_of_lookup in Hpc as [i Hi].
  assert (Hlt : i < length tasks) by (rewrite <- Hlen'; by apply lookup_lt_Some in Hi).
  assert (H4 : 4 ≤ resumptions i schedule).
  { apply (proj1 (Forall_forall _ _) Hsched). apply elem_of_seq. lia. }
  destruct (batch_steps_left rejected tasks schedule
              (replicate (length tasks) Delayed)
              (mkWorld (table w)
                 (Console LOG (PROCESS_TASK_BATCH (length tasks)) :: trace w) (runner w))
              i Delayed) as (pc' & Hpc' & Hle).
  { apply length_replicate. }
  { by apply lookup_replicate. }
  unfold processTaskBatch, console_log, emit in Hi.
  assert (pc' = pc) as -> by congruence.
  unfold resumptions in H4.
  destruct pc as [| | |s| |e]; cbn in Hle; try lia; [done|].
  exfalso. apply (Hun i e). by unfold processTaskBatch, console_log, emit.
Qed.

(** X9. The worker loop ends.  When the event loop resumes every task of
    every batch until it is settled, the activation reaches its exit at the
    latest in the first round whose clock has reached [maxActiveTime]. *)
Theorem processTasks_exits start before rd after w :
  Forall (fun r => settles_a_page (rd_schedule r)) before ->
  (Z.abs (start - rd_now rd) >= maxActiveTime CONFIG)%Z ->
  ∃ hasTasks reachedTimeLimit,
    (processTasks rejected TRIGGER_TOPIC_ARN start (before ++ rd :: after) w).1
    = Exited hasTasks reachedTimeLimit.
Proof.
  intros Hbefore Hreached. revert w.
  induction Hbefore as [|r before Hr _ IH]; intros w.
  - cbn [app].
    destruct (getPendingTaskBatch_total w (rd_queryFault rd))
      as (ts & logs & ok & _ & Hget).
    destruct (processTasks_exit_round rejected TRIGGER_TOPIC_ARN start rd after w ts _ Hget)
      as (new & Heq & _).
    { rewrite (bool_decide_eq_true_2 (_ >= _)%Z) by done. apply andb_false_r. }
    rewrite Heq. by eexists _, _.
  - cbn [app].
    destruct (getPendingTaskBatch_total w (rd_queryFault r))
      as (ts & logs & ok & _ & Hget).
    set (w1 := mkWorld _ _ _) in Hget.
    destruct (bool_decide (0 < length ts)
              && negb (bool_decide (Z.abs (start - rd_now r) >= maxActiveTime CONFIG)%Z))
      eqn:Hgo.
    + apply andb_prop in Hgo as [Hts Hnot].
      apply bool_decide_eq_true in Hts.
      apply negb_true_iff, bool_decide_eq_false in Hnot.
      rewrite (processTasks_continue rejected TRIGGER_TOPIC_ARN start r _ w ts w1 Hget);
        [|by destruct ts; [cbn in Hts; lia|]|lia].
      rewrite processTaskBatch_settles; [apply IH| |done].
      apply (getPendingTaskBatch_length w (rd_queryFault r)). by rewrite Hget.
    + destruct (processTasks_exit_round rejected TRIGGER_TOPIC_ARN start r
                  (before ++ rd :: after) w ts w1 Hget Hgo) as (new & Heq & _).
      rewrite Heq. by eexists _, _.
Qed.

(** X10. A failed batch selection ends the activation.  When the query of
    a round fails, or an item of the page it reads has no [taskUpdated]
    attribute, the activation exits in that round as if the queue were
    empty: nothing is leased, the table and the runner are untouched and no
    hand-off is sent, whatever PENDING tasks the table holds. *)
Theorem processTasks_ends_on_failed_selection start rd rest w :
  is_Some (rd_queryFault rd)
  ∨ (∃ it, it ∈ pending_page (table w) ∧ it !! "taskUpdated" = None) ->
  let r := processTasks rejected TRIGGER_TOPIC_ARN start (rd :: rest) w in
  r.1 = Exited false (bool_decide (Z.abs (start - rd_now rd) >= maxActiveTime CONFIG)%Z)
  ∧ table r.2 = table w
  ∧ runner r.2 = runner w
  ∧ ∃ logs ok,
      Forall is_console logs
      ∧ trace r.2 = logs ++ Request (QueryCommand pendingQuery) ok :: trace w.
Proof.
  intros Hfail. cbv zeta.
  pose proof (getPendingTaskBatch_failure w (rd_queryFault rd) Hfail) as Hempty.
  destruct (getPendingTaskBatch_total w (rd_queryFault rd))
    as (ts & logs & ok & Hlogs & Hget).
  rewrite Hget in Hempty. cbn [fst] in Hempty. injection Hempty as ->.
  destruct (processTasks_exit_round rejected TRIGGER_TOPIC_ARN start rd rest w [] _ Hget)
    as (new & Heq & _); [done|].
  cbn [processTasks]. rewrite Hget. cbn [length andb snd fst table runner trace].
  rewrite (bool_decide_eq_false_2 (0 < 0)) by lia. cbn [andb fst snd table runner trace].
  split_and!; [done..|]. by exists logs, ok.
Qed.

End BatchAndLoop.


Section FakeRunnerSlots.

Import FakeTaskRunner.

Context (rejected : JsError).
Implicit Types (w : World Z) (task : Task) (pc : Pc) (pcs : list Pc).

Lemma is_running_settled (tasks : list Task) pcs :
  allSettled pcs = true -> tally_threads is_running tasks pcs = 0.
Proof.
  revert pcs. induction tasks as [|task tasks IH]; intros [|pc pcs] Hall; try done.
  cbn in Hall. apply andb_prop in Hall as [Hpc Hall].
  cbn [tally_threads]. rewrite (IH pcs Hall). by destruct pc.
Qed.

Lemma slots_step (c0 : Z) (tasks : list Task) pcs w i task pc now fault :
  tasks !! i = Some task -> pcs !! i = Some pc ->
  runner w = (c0 + Z.of_nat (tally_threads is_running tasks pcs))%Z ->
  runner (thread_step rejected now fault task pc w).2
  = (c0 + Z.of_nat (tally_threads is_running tasks
                      (<[i := (thread_step rejected now fault task pc w).1]> pcs)))%Z.
Proof.
  intros Htask Hpc Hinv.
  pose proof (fun pc' => tally_threads_insert is_running tasks pcs i task pc pc' Htask Hpc)
    as Hins.
  destruct pc as [| | |toState| |e].
  - rewrite thread_step_Delayed. cbn [fst snd].
    destruct (transitionTask_frame rejected w now fault task "PENDING" "TAKEN")
      as (_ & _ & _ & ->).
    destruct (bool_decide _).
    + specialize (Hins Leased). cbn in Hins. lia.
    + specialize (Hins Settled). cbn in Hins. lia.
  - rewrite thread_step_Leased.
    change (runner_call task (runner w)) with (fakeTaskRunner task (runner w)).
    unfold fakeTaskRunner. case_bool_decide; cbn [fst snd runner runner_outcome_step].
    + specialize (Hins (Concluding "PENDING")). cbn in Hins. lia.
    + specialize (Hins Running). cbn in Hins. lia.
  - rewrite thread_step_Running.
    change (runner_resume task (runner w)) with (fakeTaskRunner_timeout task (runner w)).
    unfold fakeTaskRunner_timeout. cbn [fst snd runner runner_outcome_step].
    specialize (Hins (Concluding "SUCCESS")). cbn in Hins. lia.
  - rewrite thread_step_Concluding. cbn [fst snd].
    destruct (transitionTask_frame rejected w now fault task "TAKEN" toState)
      as (_ & _ & _ & ->).
    specialize (Hins Settled). cbn in Hins. lia.
  - cbn [thread_step processTask_resume]. cbn. specialize (Hins Settled). cbn in Hins. lia.
  - cbn. specialize (Hins (Unresolved e)). cbn in Hins. lia.
Qed.

(** X11. The slots of the fake runner are balanced.  However a batch is
    scheduled, [activeTaskCount] exceeds its value at the start of the batch
    by the number of tasks that are waiting for the runner; it is back at
    that value when the batch is settled, and from an idle start no more
    than [fakeMaxActiveTasks] tasks are inside the runner at once. *)
Theorem fakeTaskRunner_slots_balanced tasks schedule w :
  let r := processTaskBatch rejected tasks schedule w in
  runner r.2 = (runner w + Z.of_nat (tally_threads is_running tasks r.1))%Z
  ∧ (allSettled r.1 = true -> runner r.2 = runner w)
  ∧ (runner w = 0%Z -> tally_threads is_running tasks r.1 ≤ 3).
Proof.
  cbv zeta.
  assert (Hbal : runner (processTaskBatch rejected tasks schedule w).2
                 = (runner w + Z.of_nat (tally_threads is_running tasks
                                           (processTaskBatch rejected tasks schedule w).1))%Z).
  { unfold processTaskBatch, console_log, emit.
    apply (batch_world_invariant rejected
             (fun pcs w' =>
                runner w' = (runner w + Z.of_nat (tally_threads is_running tasks pcs))%Z)
             tasks).
    - intros pcs w' i task pc now fault Htask Hpc Hinv. by apply slots_step.
    - cbn [runner]. rewrite tally_threads_replicate by done. lia. }
  split_and!; [done| |].
  - intros Hall. rewrite Hbal, (is_running_settled tasks _ Hall). lia.
  - intros Hidle.
    destruct (fake_processTaskBatch rejected tasks schedule w) as [Hle _].
    { rewrite Hidle. done. }
    change (fakeMaxActiveTasks CONFIG) with 3%Z in Hle. lia.
Qed.

End FakeRunnerSlots.

Section TriggerRelay.

Lemma existsb_is_relevant (rs : list Trigger.EventRecord) :
  existsb is_relevant rs
  = bool_decide (Some "aws:sns" ∈ Trigger.EventSource <$> rs)
    || bool_decide (Some "INSERT" ∈ Trigger.eventName <$> rs).
Proof.
  induction rs as [|r rs IH].
  - cbn. rewrite !bool_decide_eq_false_2; [done|intros H; inversion H..].
  - cbn [existsb fmap list_fmap]. rewrite IH. unfold is_relevant.
    repeat case_bool_decide; cbn; try done; exfalso;
      repeat match goal with
        | H : _ ∈ _ :: _ |- _ => apply elem_of_cons in H as [H|H]
        | H : ¬ (_ ∈ _ :: _) |- _ => rewrite elem_of_cons in H
        end; intuition congruence.
Qed.

Lemma mapM_id_None (records : list (option Trigger.EventRecord)) :
  mapM (fun r : option Trigger.EventRecord => r) records = None <-> None ∈ records.
Proof.
  rewrite mapM_None, Exists_exists. split.
  - intros (r & Hin & ->). done.
  - intros Hin. by exists None.
Qed.

(** X12. The trigger never raises and calls the process tasks function at
    most once for an event, however many records the event has: it sends
    one message to the topic exactly when no record is [null] and some
    record is an SNS record or an INSERT of the stream.  An event of
    updates and removals only, an event without a record array and an event
    with a [null] record send nothing; only the last writes to
    [console.error].  A failed publish is not an error of the trigger. *)
Theorem trigger_calls_worker_once topic fault event :
  let inv := Trigger.handler topic fault event in
  inv_returned inv = true
  ∧ requests_of (inv_record inv)
    = (if calls_worker event
       then [(PublishCommand topic "Start", bool_decide (fault = None))]
       else [])
  ∧ ∃ lvl line,
      handler_lines (inv_record inv) = [(lvl, line)]
      ∧ lvl = (if has_null_record event then ERROR else LOG)
      ∧ (calls_worker event = true ->
         ∃ sns insert, line = TRIGGER_CALL_PROCESS_TASKS true sns insert).
Proof.
  cbv zeta. unfold Trigger.handler, calls_worker, records_of, has_null_record,
    Trigger.map_property.
  destruct event as [records|]; [|split_and!; [done..|]; do 2 eexists; split_and!; done].
  destruct (mapM (fun r : option Trigger.EventRecord => r) records) as [rs|] eqn:Hmap.
  - assert (Hnull : existsb (fun r : option Trigger.EventRecord =>
                               match r with None => true | Some _ => false end) records
                     = false).
    { apply not_true_is_false. intros (r & Hin & Hr)%existsb_exists.
      destruct r; [done|]. apply list_elem_of_In, mapM_id_None in Hin. congruence. }
    rewrite Hnull, existsb_is_relevant.
    destruct (bool_decide (Some "aws:sns" ∈ _) || bool_decide (Some "INSERT" ∈ _)).
    + unfold CallFunction.callFunction. unfold_monad. cbn [table trace runner].
      destruct fault as [err|]; cbn; (split_and!; [done..|]); do 2 eexists;
        (split_and!; [done..|]); intros _; by do 2 eexists.
    + split_and!; [done..|]. do 2 eexists. split_and!; done.
  - apply mapM_id_None, list_elem_of_In in Hmap.
    assert (Hnull : existsb (fun r : option Trigger.EventRecord =>
                               match r with None => true | Some _ => false end) records
                     = true).
    { apply existsb_exists. by exists None. }
    rewrite Hnull. split_and!; [done..|]. do 2 eexists. split_and!; done.
Qed.

End TriggerRelay.

Section ProducerLoop.
Context {RS : Type}.

Lemma createTask_run (w : World RS) now fault id :
  ∃ log p,
    put_Item p !! "taskId" = Some (AttrS id)
    ∧ put_Item p !! "taskStatus" = Some (AttrS "PENDING")
    ∧ CreateTasks.createTask now fault id w =
        (Normal (bool_decide (fault = None)),
         mkWorld
           (match fault with
            | None => <[id := put_Item p]> (table w)
            | Some _ => table w
            end)
           (Console log.1 log.2
              :: Request (PutItemCommand p) (bool_decide (fault = None)) :: trace w)
           (runner w)).
Proof.
  destruct fault as [err|].
  - exists (ERROR, CREATE_TASK_ERROR err id),
      {| put_Item := item_of id "PENDING" now now |}.
    split_and!; [done..|]. unfold CreateTasks.createTask. unfold_monad. reflexivity.
  - exists (LOG, CREATE_TASK id), {| put_Item := item_of id "PENDING" now now |}.
    split_and!; [done..|]. rewrite createTask_served. reflexivity.
Qed.

Lemma createTasks_cons start rd rest (w : World RS) :
  CreateTasks.createTasks start (rd :: rest) w =
    let w1 := (CreateTasks.createTask (CreateTasks.cr_now rd) (CreateTasks.cr_fault rd)
                 (CreateTasks.cr_id rd) w).2 in
    if bool_decide (Z.abs (start - CreateTasks.cr_check rd)
                    < CreateTasks.maxActiveTime CreateTasks.CONFIG)%Z
    then CreateTasks.createTasks start rest w1
    else (CreateTasks.Finished, w1).
Proof.
  cbn [CreateTasks.createTasks].
  destruct (createTask_run w (CreateTasks.cr_now rd) (CreateTasks.cr_fault rd)
              (CreateTasks.cr_id rd)) as (log & p & _ & _ & ->).
  done.
Qed.

(** X13. The producer loop sends one put for every round it runs, in the
    order of the rounds, the first one before any look at the clock, and a
    put that fails does not stop it.  It ends exactly when a round sees the
    time limit of 15 seconds reached.  Every id whose put was served is a
    PENDING item afterwards, every item that was PENDING still is, and the
    items under other ids are as they were. *)
Theorem createTasks_one_put_per_round start rounds (w : World RS) :
  let r := CreateTasks.createTasks start rounds w in
  let ran := consumed start rounds in
  put_requests (trace r.2)
  = reverse ((fun rd => (CreateTasks.cr_id rd,
                         bool_decide (CreateTasks.cr_fault rd = None))) <$> ran)
    ++ put_requests (trace w)
  ∧ (r.1 = CreateTasks.Finished
     <-> Exists (fun rd => (15000 <= Z.abs (start - CreateTasks.cr_check rd))%Z) rounds)
  ∧ (∀ id, id ∈ inserted ran ∨ persisted_status (table w) id = Some (AttrS "PENDING") ->
           persisted_status (table r.2) id = Some (AttrS "PENDING"))
  ∧ (∀ id, id ∉ inserted ran -> table r.2 !! id = table w !! id).
Proof.
  cbv zeta. revert w. induction rounds as [|rd rest IH]; intros w.
  - cbn. split_and!; [done| |by intros id [Hin%elem_of_nil|]|done].
    split; [done|]. by intros H%Exists_nil.
  - rewrite createTasks_cons. cbv zeta. cbn [consumed].
    destruct (createTask_run w (CreateTasks.cr_now rd) (CreateTasks.cr_fault rd)
                (CreateTasks.cr_id rd)) as (log & p & Hid & Hst & ->).
    cbn [snd]. set (w1 := mkWorld _ _ _).
    assert (Hputs : put_requests (trace w1)
                    = (CreateTasks.cr_id rd, bool_decide (CreateTasks.cr_fault rd = None))
                        :: put_requests (trace w)).
    { subst w1. cbn [trace put_requests omap list_omap]. by rewrite Hid. }
    assert (Hkeep : ∀ id, id ∈ inserted [rd]
                          ∨ persisted_status (table w) id = Some (AttrS "PENDING") ->
                          persisted_status (table w1) id = Some (AttrS "PENDING")).
    { intros id Hor. subst w1. cbn [table]. unfold inserted in Hor.
      destruct (CreateTasks.cr_fault rd) as [err|] eqn:Hf.
      - destruct Hor as [Hin|Hp]; [|done].
        rewrite filter_cons_False in Hin by (by rewrite Hf).
        by apply elem_of_nil in Hin.
      - unfold persisted_status.
        destruct (decide (id = CreateTasks.cr_id rd)) as [->|Hne].
        + by rewrite lookup_insert_eq.
        + rewrite lookup_insert_ne by done. destruct Hor as [Hin|Hp]; [|done].
          rewrite filter_cons_True in Hin by done.
          apply list_elem_of_singleton in Hin. done. }
    assert (Hother : ∀ id, id ∉ inserted [rd] -> table w1 !! id = table w !! id).
    { intros id Hnot. subst w1. cbn [table]. unfold inserted in Hnot.
      destruct (CreateTasks.cr_fault rd) as [err|] eqn:Hf; [done|].
      rewrite filter_cons_True in Hnot by done.
      rewrite lookup_insert_ne; [done|]. intros <-. apply Hnot. by left. }
    assert (Hins : ∀ l, inserted (rd :: l) = inserted [rd] ++ inserted l).
    { intros l. unfold inserted. change (rd :: l) with ([rd] ++ l).
      by rewrite filter_app, fmap_app. }
    destruct (decide (Z.abs (start - CreateTasks.cr_check rd)
                      < CreateTasks.maxActiveTime CreateTasks.CONFIG)%Z) as [Hlt|Hlt];
      [rewrite !(bool_decide_eq_true_2 _ Hlt)|rewrite !(bool_decide_eq_false_2 _ Hlt)].
    + destruct (IH w1) as (IH1 & IH2 & IH3 & IH4).
      split_and!.
      * rewrite IH1, Hputs, fmap_cons, reverse_cons, <- app_assoc. done.
      * rewrite IH2, Exists_cons. unfold CreateTasks.CONFIG in Hlt. cbn in Hlt.
        split; [by right|]. intros [Hge|H]; [lia|done].
      * intros id Hor. apply IH3. rewrite Hins, elem_of_app in Hor.
        destruct Hor as [[Hin|Hin]|Hp]; [right|by left|right]; apply Hkeep; auto.
      * intros id Hnot. rewrite Hins, elem_of_app in Hnot.
        rewrite IH4 by tauto. apply Hother. tauto.
    + cbn [fst snd]. split_and!.
      * by rewrite Hputs.
      * split; [|done]. intros _. apply Exists_cons. left.
        unfold CreateTasks.CONFIG in Hlt. cbn in Hlt. lia.
      * intros id Hor. apply Hkeep. done.
      * intros id Hnot. by apply Hother.
Qed.

End ProducerLoop.

Section LastInFirstOut.
Context {RS : Type}.

(** X14. Last in, first out.  In a well formed table whose PENDING tasks
    were all created before [now], a task inserted at [now] is the first of
    the next batch, ahead of every task that was waiting, whether or not its
    id was in the table before. *)
Theorem createTask_heads_next_batch (w : World RS) now id :
  well_formed (table w) ->
  (∀ it, it ∈ pending_items (table w) -> (range_key it < now)%Z) ->
  ∃ rest,
    (getPendingTaskBatch None (CreateTasks.createTask now None id w).2).1
    = Normal (task_of id "PENDING" now now :: rest).
Proof.
  intros Hwf Hold.
  pose proof (well_formed_createTask w now None id Hwf) as Hwf1.
  revert Hwf1. rewrite createTask_served. cbn [snd].
  match goal with |- context [<[id := ?it]> (table w)] => set (new := it) end.
  set (w1 := mkWorld _ _ _). intros Hwf1.
  destruct (getPendingTaskBatch_well_formed w1 Hwf1) as (ts & HF & -> & _).
  assert (Hkey : range_key new = now) by done.
  assert (Hnew : new ∈ pending_newest_first (table w1)).
  { rewrite pending_newest_first_perm. apply elem_of_pending_items. split; [done|].
    exists id. subst w1. cbn [table]. by rewrite lookup_insert_eq. }
  pose proof (pending_newest_first_sorted (table w1)) as Hsorted.
  destruct (pending_newest_first (table w1)) as [|h L] eqn:HL.
  { by apply elem_of_nil in Hnew. }
  assert (h = new) as ->.
  { assert (Hh : h ∈ pending_items (table w1)).
    { rewrite <- pending_newest_first_perm, HL. by left. }
    apply elem_of_pending_items in Hh as (Hp & k & Hk).
    subst w1. cbn [table] in Hk.
    destruct (decide (id = k)) as [<-|Hne].
    { rewrite lookup_insert_eq in Hk. congruence. }
    rewrite lookup_insert_ne in Hk by done.
    assert (Hlt : (range_key h < now)%Z).
    { apply Hold, elem_of_pending_items. split; [done|]. by exists k. }
    apply elem_of_cons in Hnew as [Heq|Hin]; [done|].
    apply StronglySorted_inv in Hsorted as [_ Hall].
    rewrite Forall_forall in Hall. specialize (Hall _ Hin).
    unfold scan_order in Hall. rewrite Hkey in Hall. lia. }
  change (take (pageLimit CONFIG) (new :: L)) with (new :: take 9 L) in HF.
  apply Forall2_cons_inv_l in HF as (t & rest & Ht & _ & ->).
  exists rest. f_equal. f_equal. change (toTask new) with (Some (task_of id "PENDING" now now)) in Ht.
  congruence.
Qed.

End LastInFirstOut.

Section Handlers.

Context {RS : Type} (rejected : JsError) `{!TaskRunner RS} (TRIGGER_TOPIC_ARN : string).

Lemma handler_lines_app (l1 l2 : list Entry) :
  handler_lines (l1 ++ l2) = handler_lines l1 ++ handler_lines l2.
Proof. unfold handler_lines. by rewrite omap_app. Qed.

Lemma handler_lines_Inner (l : list Effect) : handler_lines (Inner <$> l) = [].
Proof. induction l as [|e l IH]; [done|]. cbn. apply IH. Qed.

Lemma requests_of_app (l1 l2 : list Entry) :
  requests_of (l1 ++ l2) = requests_of l1 ++ requests_of l2.
Proof. unfold requests_of. by rewrite omap_app. Qed.

(** X15. The handler of the process tasks function completes, and writes
    [PROCESS_TASKS_END], only when its first round ends the activation: the
    first batch selection gives no task, or the time limit is reached before
    it.  The promise the handler awaits is the one of the first call of
    [processTasks]; once a batch was processed the later rounds resolve
    promises of their own calls.  So an invocation that completes has not
    changed the table or called the task runner. *)
Theorem handler_ends_only_in_first_round now rounds t rs :
  let inv := handler rejected TRIGGER_TOPIC_ARN now rounds t rs in
  (inv_returned inv = true
   <-> ∃ rd rest,
         rounds = rd :: rest
         ∧ ((getPendingTaskBatch (rd_queryFault rd) (mkWorld t [] rs)).1 = Normal []
            ∨ (59000 <= Z.abs (now - rd_now rd))%Z))
  ∧ handler_lines (inv_record inv)
    = (if inv_returned inv then [(LOG, PROCESS_TASKS_END)] else [])
      ++ [(LOG, PROCESS_TASKS_START now)]
  ∧ (inv_returned inv = true -> inv_table inv = t ∧ inv_runner inv = rs).
Proof.
  cbv zeta. unfold handler.
  cbn [inv_returned inv_record inv_table inv_runner].
  split_and!.
  - destruct rounds as [|rd rest].
    { cbn. split; [done|]. by intros (? & ? & ? & _). }
    cbn [take]. rewrite take_0.
    destruct (getPendingTaskBatch_total (mkWorld t [] rs) (rd_queryFault rd))
      as (ts & logs & ok & _ & Hget).
    destruct (bool_decide (0 < length ts)
              && negb (bool_decide (Z.abs (now - rd_now rd) >= maxActiveTime CONFIG)%Z))
      eqn:Hgo.
    + apply andb_prop in Hgo as [Hts Hlim%negb_true_iff].
      apply bool_decide_eq_true in Hts. apply bool_decide_eq_false in Hlim.
      unfold CONFIG in Hlim. cbn in Hlim.
      rewrite (processTasks_continue rejected TRIGGER_TOPIC_ARN now rd [] _ ts _ Hget);
        [|by destruct ts; [cbn in Hts; lia|]|unfold CONFIG; cbn; lia].
      cbn [processTasks]. destruct (allSettled _); cbn [fst].
      all: split; [done|]; intros (rd' & rest' & [= <- <-] & [Hempty|Hge]); [|lia].
      all: rewrite Hget in Hempty; injection Hempty as ->; cbn in Hts; lia.
    + destruct (processTasks_exit_round rejected TRIGGER_TOPIC_ARN now rd [] _ ts _ Hget Hgo)
        as (new & -> & _).
      cbn [fst]. split; [intros _|done]. exists rd, rest. split; [done|].
      apply andb_false_iff in Hgo as [Hts%bool_decide_eq_false|Hlim%negb_false_iff].
      * left. rewrite Hget. destruct ts; [done|]. cbn in Hts. lia.
      * right. apply bool_decide_eq_true in Hlim. unfold CONFIG in Hlim. cbn in Hlim. lia.
  - rewrite !handler_lines_app, handler_lines_Inner.
    by destruct (processTasks rejected TRIGGER_TOPIC_ARN now (take 1 rounds) _).1.
  - destruct rounds as [|rd rest]; [done|]. cbn [take]. rewrite take_0.
    destruct (getPendingTaskBatch_total (mkWorld t [] rs) (rd_queryFault rd))
      as (ts & logs & ok & _ & Hget).
    destruct (bool_decide (0 < length ts)
              && negb (bool_decide (Z.abs (now - rd_now rd) >= maxActiveTime CONFIG)%Z))
      eqn:Hgo.
    + apply andb_prop in Hgo as [Hts Hlim%negb_true_iff].
      apply bool_decide_eq_true in Hts. apply bool_decide_eq_false in Hlim.
      rewrite (processTasks_continue rejected TRIGGER_TOPIC_ARN now rd [] _ ts _ Hget);
        [|by destruct ts; [cbn in Hts; lia|]|lia].
      cbn [processTasks]. by destruct (allSettled _).
    + destruct (processTasks_exit_round rejected TRIGGER_TOPIC_ARN now rd rest _ ts _ Hget Hgo)
        as (new & -> & _).
      done.
Qed.

(** X16. The handler of the create tasks function completes, and writes
    [CREATE_TASKS_END], only when the clock read after its first insert is
    already 15 seconds from the start: the promise it awaits is the one of
    the first call of [createTasks].  An invocation that completes has sent
    exactly one put. *)
Theorem create_handler_ends_only_in_first_round now rounds t (rs : RS) :
  let inv := CreateTasks.handler now rounds t rs in
  (inv_returned inv = true
   <-> ∃ rd rest,
         rounds = rd :: rest
         ∧ (15000 <= Z.abs (now - CreateTasks.cr_check rd))%Z)
  ∧ handler_lines (inv_record inv)
    = (if inv_returned inv then [(LOG, CREATE_TASKS_END)] else [])
      ++ [(LOG, CREATE_TASKS_START)]
  ∧ (inv_returned inv = true -> length (requests_of (inv_record inv)) = 1).
Proof.
  cbv zeta. unfold CreateTasks.handler.
  cbn [inv_returned inv_record inv_table inv_runner].
  split_and!.
  - destruct rounds as [|rd rest].
    { cbn. split; [done|]. by intros (? & ? & ? & _). }
    cbn [take]. rewrite take_0. rewrite createTasks_cons. cbv zeta.
    destruct (decide (Z.abs (now - CreateTasks.cr_check rd)
                      < CreateTasks.maxActiveTime CreateTasks.CONFIG)%Z) as [Hlt|Hlt];
      [rewrite !(bool_decide_eq_true_2 _ Hlt)|rewrite !(bool_decide_eq_false_2 _ Hlt)];
      unfold CreateTasks.CONFIG in Hlt; cbn in Hlt; cbn [CreateTasks.createTasks fst].
    + split; [done|]. intros (rd' & rest' & [= <- <-] & Hge). lia.
    + split; [intros _|done]. exists rd, rest. split; [done|lia].
  - rewrite !handler_lines_app, handler_lines_Inner.
    by destruct (CreateTasks.createTasks now (take 1 rounds) _).1.
  - destruct rounds as [|rd rest]; [done|]. cbn [take]. rewrite take_0.
    rewrite !createTasks_cons. cbv zeta.
    destruct (createTask_run (mkWorld t [] rs) (CreateTasks.cr_now rd)
                (CreateTasks.cr_fault rd) (CreateTasks.cr_id rd))
      as (log & p & _ & _ & ->).
    destruct (decide (Z.abs (now - CreateTasks.cr_check rd)
                      < CreateTasks.maxActiveTime CreateTasks.CONFIG)%Z) as [Hlt|Hlt];
      [rewrite !(bool_decide_eq_true_2 _ Hlt)|rewrite !(bool_decide_eq_false_2 _ Hlt)];
      cbn [CreateTasks.createTasks fst snd trace]; [done|].
    intros _. reflexivity.
Qed.

End Handlers.

(** * Further scenarios *)

(** Two served attempts to lease [t2]: one of them wins. *)
Lemma transitionTask_at_most_one_owner_witness :
  "PENDING" ≠ "TAKEN"
  ∧ owners (attempts_run conditionalCheckFailed (task_of "t2" "PENDING" 7 7)
              "PENDING" "TAKEN" [(100%Z, None); (101%Z, None)] pending_world).1
    = (if bool_decide (persisted_status (table pending_world) "t2"
                       = Some (AttrS "PENDING"))
          && existsb served [(100%Z, None); (101%Z, None)]
       then 1 else 0).
Proof.
  assert (H1 : "PENDING" ≠ "TAKEN") by discriminate.
  split; [exact H1|].
  exact (proj1 (transitionTask_at_most_one_owner conditionalCheckFailed pending_world
                  (task_of "t2" "PENDING" 7 7) "PENDING" "TAKEN"
                  [(100%Z, None); (101%Z, None)] H1)).
Defined.

(** The batch of the table with two PENDING tasks has two tasks. *)
Lemma getPendingTaskBatch_with_ties_witness :
  well_formed (table pending_world)
  ∧ ∃ ts, (getPendingTaskBatch None pending_world).1 = Normal ts
          ∧ length ts = pageLimit CONFIG `min` length (pending_items (table pending_world)).
Proof.
  split; [exact well_formed_pending_table|].
  destruct (getPendingTaskBatch_with_ties pending_world well_formed_pending_table)
    as (ts & Hres & Hlen & _).
  by exists ts.
Defined.

Lemma getPendingTaskBatch_distinct_tasks_witness :
  well_formed (table pending_world)
  ∧ ∃ ts, (getPendingTaskBatch None pending_world).1 = Normal ts
          ∧ NoDup (taskId <$> ts).
Proof.
  split; [exact well_formed_pending_table|].
  exact (getPendingTaskBatch_distinct_tasks pending_world None well_formed_pending_table).
Defined.

(** The newest PENDING item of the damaged table has no update time: the
    batch is empty, though [t2] is waiting. *)
Lemma getPendingTaskBatch_failure_gives_empty_witness :
  (is_Some (@None JsError)
   ∨ ∃ it, it ∈ pending_page (table damaged_world) ∧ it !! "taskUpdated" = None)
  ∧ (getPendingTaskBatch None damaged_world).1 = Normal [].
Proof.
  assert (H1 : is_Some (@None JsError)
               ∨ ∃ it, it ∈ pending_page (table damaged_world)
                       ∧ it !! "taskUpdated" = None).
  { right. exists (delete "taskUpdated" (item_of "t4" "PENDING" 9 9)).
    split; [|vm_compute; reflexivity].
    assert (Hp : pending_page (table damaged_world)
                 = [delete "taskUpdated" (item_of "t4" "PENDING" 9 9);
                    item_of "t2" "PENDING" 7 7])
      by (vm_compute; reflexivity).
    rewrite Hp. by left. }
  split; [exact H1|].
  exact (f_equal fst (proj1 (getPendingTaskBatch_failure_gives_empty damaged_world None H1))).
Defined.

(** The fake runner answers SUCCESS for [t2]: the item ends in SUCCESS. *)
Lemma processTask_leaves_the_answer_witness :
  persisted_status (table pending_world) "t2" = Some (AttrS "PENDING")
  ∧ persisted_status
      (table (processTask conditionalCheckFailed 50 None 60 None
                (task_of "t2" "PENDING" 7 7) pending_world).2) "t2"
    = Some (AttrS "SUCCESS").
Proof.
  assert (H1 : persisted_status (table pending_world) "t2" = Some (AttrS "PENDING"))
    by (vm_compute; reflexivity).
  split; [exact H1|].
  exact (proj1 (proj2 (processTask_leaves_the_answer conditionalCheckFailed pending_world
                         50%Z 60%Z (task_of "t2" "PENDING" 7 7) H1))).
Defined.

(** The second request for [t2] times out: the item stays TAKEN and the next
    batch is [t3] alone. *)
Lemma processTask_strands_taken_witness :
  persisted_status (table pending_world) "t2" = Some (AttrS "PENDING")
  ∧ well_formed (table pending_world)
  ∧ (getPendingTaskBatch None
       (processTask conditionalCheckFailed 50 None 60 (Some requestTimeout)
          (task_of "t2" "PENDING" 7 7) pending_world).2).1
    = Normal [task_of "t3" "PENDING" 8 8]
  ∧ persisted_status
      (table (processTask conditionalCheckFailed 50 None 60 (Some requestTimeout)
                (task_of "t2" "PENDING" 7 7) pending_world).2) "t2"
    = Some (AttrS "TAKEN")
  ∧ "t2" ∉ taskId <$> [task_of "t3" "PENDING" 8 8].
Proof.
  assert (H1 : persisted_status (table pending_world) "t2" = Some (AttrS "PENDING"))
    by (vm_compute; reflexivity).
  assert (H2 : (getPendingTaskBatch None
                  (processTask conditionalCheckFailed 50 None 60 (Some requestTimeout)
                     (task_of "t2" "PENDING" 7 7) pending_world).2).1
               = Normal [task_of "t3" "PENDING" 8 8])
    by (vm_compute; reflexivity).
  split_and!; [exact H1|exact well_formed_pending_table|exact H2| |].
  - exact (proj1 (proj2 (processTask_strands_taken conditionalCheckFailed pending_world
                           50%Z 60%Z requestTimeout (task_of "t2" "PENDING" 7 7) H1))).
  - exact (proj2 (proj2 (proj2
             (processTask_strands_taken conditionalCheckFailed pending_world
                50%Z 60%Z requestTimeout (task_of "t2" "PENDING" 7 7) H1)))
             well_formed_pending_table None _ H2).
Defined.

(** In a batch of [t3] and [t2] the runner is called at most once for [t3]. *)
Lemma processTaskBatch_calls_runner_once_witness :
  NoDup (taskId <$> [task_of "t3" "PENDING" 8 8; task_of "t2" "PENDING" 7 7])
  ∧ ∃ new,
      trace (processTaskBatch conditionalCheckFailed
               [task_of "t3" "PENDING" 8 8; task_of "t2" "PENDING" 7 7]
               settle_two pending_world).2 = new ++ trace pending_world
      ∧ tally_effects (is_runner_call "t3") new ≤ 1.
Proof.
  assert (H1 : NoDup (taskId <$> [task_of "t3" "PENDING" 8 8;
                                  task_of "t2" "PENDING" 7 7]))
    by (refine (bool_decide_unpack _ _); vm_compute; exact I).
  split; [exact H1|].
  destruct (processTaskBatch_calls_runner_once conditionalCheckFailed
              [task_of "t3" "PENDING" 8 8; task_of "t2" "PENDING" 7 7]
              settle_two pending_world "t3") as (new & Htr & _ & Hone).
  exists new. split; [exact Htr|exact (Hone H1)].
Defined.

(** A round that settles its batch, then a round at the time limit. *)
Lemma processTasks_exits_witness :
  Forall (fun r => settles_a_page (rd_schedule r)) [round_at 0 settle_page]
  ∧ (Z.abs (0 - rd_now round_at_limit) >= maxActiveTime CONFIG)%Z
  ∧ ∃ hasTasks reachedTimeLimit,
      (processTasks conditionalCheckFailed "trigger" 0
         ([round_at 0 settle_page] ++ round_at_limit :: []) pending_world).1
      = Exited hasTasks reachedTimeLimit.
Proof.
  assert (H1 : Forall (fun r => settles_a_page (rd_schedule r)) [round_at 0 settle_page]).
  { constructor; [|constructor]. unfold settles_a_page.
    refine (bool_decide_unpack _ _). vm_compute. exact I. }
  assert (H2 : (Z.abs (0 - rd_now round_at_limit) >= maxActiveTime CONFIG)%Z)
    by (vm_compute; discriminate).
  split_and!; [exact H1|exact H2|].
  exact (processTasks_exits conditionalCheckFailed "trigger" 0%Z
           [round_at 0 settle_page] round_at_limit [] pending_world H1 H2).
Defined.

(** The query of the round times out: the activation exits and the two
    PENDING tasks stay as they are. *)
Lemma processTasks_ends_on_failed_selection_witness :
  (is_Some (rd_queryFault failing_round)
   ∨ ∃ it, it ∈ pending_page (table pending_world) ∧ it !! "taskUpdated" = None)
  ∧ (processTasks conditionalCheckFailed "trigger" 0 (failing_round :: []) pending_world).1
    = Exited false
        (bool_decide (Z.abs (0 - rd_now failing_round) >= maxActiveTime CONFIG)%Z)
  ∧ table (processTasks conditionalCheckFailed "trigger" 0 (failing_round :: [])
             pending_world).2 = table pending_world.
Proof.
  assert (H1 : is_Some (rd_queryFault failing_round)
               ∨ ∃ it, it ∈ pending_page (table pending_world)
                       ∧ it !! "taskUpdated" = None).
  { left. exists requestTimeout. reflexivity. }
  split; [exact H1|].
  destruct (processTasks_ends_on_failed_selection conditionalCheckFailed "trigger" 0%Z
              failing_round [] pending_world H1) as (Hexit & Htab & _).
  split; [exact Hexit|exact Htab].
Defined.

(** A batch of two, settled: the slots of the fake runner are free again. *)
Lemma fakeTaskRunner_slots_balanced_witness :
  allSettled (processTaskBatch conditionalCheckFailed
                [task_of "t3" "PENDING" 8 8; task_of "t2" "PENDING" 7 7]
                settle_two pending_world).1 = true
  ∧ runner pending_world = 0%Z
  ∧ runner (processTaskBatch conditionalCheckFailed
              [task_of "t3" "PENDING" 8 8; task_of "t2" "PENDING" 7 7]
              settle_two pending_world).2 = runner pending_world
  ∧ tally_threads is_running
      [task_of "t3" "PENDING" 8 8; task_of "t2" "PENDING" 7 7]
      (processTaskBatch conditionalCheckFailed
         [task_of "t3" "PENDING" 8 8; task_of "t2" "PENDING" 7 7]
         settle_two pending_world).1 ≤ 3.
Proof.
  assert (H1 : allSettled (processTaskBatch conditionalCheckFailed
                             [task_of "t3" "PENDING" 8 8; task_of "t2" "PENDING" 7 7]
                             settle_two pending_world).1 = true)
    by (vm_compute; reflexivity).
  assert (H2 : runner pending_world = 0%Z) by reflexivity.
  split_and!; [exact H1|exact H2| |].
  - exact (proj1 (proj2 (fakeTaskRunner_slots_balanced conditionalCheckFailed
                           [task_of "t3" "PENDING" 8 8; task_of "t2" "PENDING" 7 7]
                           settle_two pending_world)) H1).
  - exact (proj2 (proj2 (fakeTaskRunner_slots_balanced conditionalCheckFailed
                           [task_of "t3" "PENDING" 8 8; task_of "t2" "PENDING" 7 7]
                           settle_two pending_world)) H2).
Defined.

(** A page of the stream with two inserts: one call. *)
Lemma trigger_calls_worker_once_witness :
  calls_worker stream_with_insert = true
  ∧ ∃ lvl line,
      handler_lines (inv_record (Trigger.handler "process" None stream_with_insert))
      = [(lvl, line)]
      ∧ ∃ sns insert, line = TRIGGER_CALL_PROCESS_TASKS true sns insert.
Proof.
  assert (H1 : calls_worker stream_with_insert = true) by (vm_compute; reflexivity).
  split; [exact H1|].
  destruct (trigger_calls_worker_once "process" None stream_with_insert)
    as (_ & _ & lvl & line & Hlines & _ & Hcall).
  exists lvl, line. split; [exact Hlines|exact (Hcall H1)].
Defined.

(** The first insert of the producer rounds is a PENDING item afterwards. *)
Lemma createTasks_one_put_per_round_witness :
  ("n1" ∈ inserted (consumed 0 creation_rounds)
   ∨ persisted_status (table pending_world) "n1" = Some (AttrS "PENDING"))
  ∧ persisted_status
      (table (CreateTasks.createTasks 0 creation_rounds pending_world).2) "n1"
    = Some (AttrS "PENDING").
Proof.
  assert (H1 : "n1" ∈ inserted (consumed 0 creation_rounds)
               ∨ persisted_status (table pending_world) "n1" = Some (AttrS "PENDING")).
  { left. refine (bool_decide_unpack _ _). vm_compute. exact I. }
  split; [exact H1|].
  exact (proj1 (proj2 (proj2
           (createTasks_one_put_per_round 0%Z creation_rounds pending_world))) "n1" H1).
Defined.

(** A task inserted at time 100 heads the batch, ahead of [t3] and [t2]. *)
Lemma createTask_heads_next_batch_witness :
  well_formed (table pending_world)
  ∧ (∀ it, it ∈ pending_items (table pending_world) -> (range_key it < 100)%Z)
  ∧ ∃ rest,
      (getPendingTaskBatch None (CreateTasks.createTask 100 None "t9" pending_world).2).1
      = Normal (task_of "t9" "PENDING" 100 100 :: rest).
Proof.
  assert (H2 : ∀ it, it ∈ pending_items (table pending_world) -> (range_key it < 100)%Z).
  { apply (proj1 (Forall_forall _ _)).
    refine (bool_decide_unpack _ _). vm_compute. exact I. }
  split_and!; [exact well_formed_pending_table|exact H2|].
  exact (createTask_heads_next_batch pending_world 100%Z "t9"
           well_formed_pending_table H2).
Defined.

(** An invocation whose first round is at the time limit completes. *)
Lemma handler_ends_only_in_first_round_witness :
  (∃ rd rest,
      [round_at_limit] = rd :: rest
      ∧ ((getPendingTaskBatch (rd_queryFault rd) (mkWorld pending_table [] 0%Z)).1
         = Normal []
         ∨ (59000 <= Z.abs (0 - rd_now rd))%Z))
  ∧ inv_returned (handler conditionalCheckFailed "trigger" 0 [round_at_limit]
                    pending_table 0%Z) = true.
Proof.
  assert (H1 : ∃ rd rest,
             [round_at_limit] = rd :: rest
             ∧ ((getPendingTaskBatch (rd_queryFault rd) (mkWorld pending_table [] 0%Z)).1
                = Normal []
                ∨ (59000 <= Z.abs (0 - rd_now rd))%Z)).
  { exists round_at_limit, []. split; [reflexivity|]. right. vm_compute. discriminate. }
  split; [exact H1|].
  exact (proj2 (proj1 (handler_ends_only_in_first_round conditionalCheckFailed "trigger"
                         0%Z [round_at_limit] pending_table 0%Z)) H1).
Defined.

(** An invocation of the producer whose first insert takes 15 seconds
    completes. *)
Lemma create_handler_ends_only_in_first_round_witness :
  (∃ rd rest,
      [creation_at_limit] = rd :: rest
      ∧ (15000 <= Z.abs (0 - CreateTasks.cr_check rd))%Z)
  ∧ inv_returned (CreateTasks.handler 0 [creation_at_limit] pending_table 0%Z) = true.
Proof.
  assert (H1 : ∃ rd rest,
             [creation_at_limit] = rd :: rest
             ∧ (15000 <= Z.abs (0 - CreateTasks.cr_check rd))%Z).
  { exists creation_at_limit, []. split; [reflexivity|]. vm_compute. discriminate. }
  split; [exact H1|].
  exact (proj2 (proj1 (create_handler_ends_only_in_first_round 0%Z [creation_at_limit]
                         pending_table 0%Z)) H1).
Defined.
